(** * libdivecomputer: Suunto Solution sample decoder and Uwatec Smart
      transfer, dump and dive splitting

    A shallow embedding of [src/suunto_solution_parser.c] and
    [src/uwatec_smart.c].  C [unsigned int] values are integers in [Z]
    reduced modulo 2^32 at every arithmetic operation, bytes are
    [Byte.byte], and a C pointer to bytes is the memory that can be reached
    from it, indexed by offset.  Every function logs the memory reads, the
    socket calls and the callback invocations it performs in the order the
    C code performs them. *)

From Stdlib Require Import ZArith List Bool Lia.
From Stdlib.Strings Require Import Byte.
From Stdlib.Strings Require String.
Import ListNotations.
Local Open Scope Z_scope.

(** ** Machine integers, bytes and status codes *)

Definition UINT_MAX : Z := 4294967295.

(** Reduction of an integer to [unsigned int] (32 bits). *)
Definition u32 (x : Z) : Z := x mod 4294967296.

(** The value of an [unsigned char]. *)
Definition uint8 (b : byte) : Z := Z.of_N (Byte.to_N b).

(** The conversion [(signed char) v] of an [unsigned char] value. *)
Definition signed_char (v : Z) : Z := if v <? 128 then v else v - 256.

(** The byte [v & 0xFF]. *)
Definition byte_of_Z (v : Z) : byte :=
  match Byte.of_N (Z.to_N (Z.land v 0xFF)) with
  | Some b => b
  | None => x00
  end.

(** What a [const unsigned char *] gives access to: the byte at each
    offset from the pointer.  The buffer proper is the offsets below the
    size that travels with the pointer. *)
Definition memory := Z -> byte.

Definition mem_of_list (l : list byte) : memory :=
  fun i => if i <? 0 then x00 else nth (Z.to_nat i) l x00.

(** The memory [data + p]. *)
Definition shift (data : memory) (p : Z) : memory := fun i => data (p + i).

Inductive dc_status_t : Set :=
| DC_STATUS_SUCCESS
| DC_STATUS_UNSUPPORTED
| DC_STATUS_INVALIDARGS
| DC_STATUS_NOMEMORY
| DC_STATUS_IO
| DC_STATUS_TIMEOUT
| DC_STATUS_PROTOCOL
| DC_STATUS_DATAFORMAT.

Inductive dc_family_t : Set :=
| DC_FAMILY_NULL
| DC_FAMILY_SUUNTO_SOLUTION
| DC_FAMILY_UWATEC_SMART.

Definition dc_family_eqb (a b : dc_family_t) : bool :=
  match a, b with
  | DC_FAMILY_NULL, DC_FAMILY_NULL => true
  | DC_FAMILY_SUUNTO_SOLUTION, DC_FAMILY_SUUNTO_SOLUTION => true
  | DC_FAMILY_UWATEC_SMART, DC_FAMILY_UWATEC_SMART => true
  | _, _ => false
  end.

Definition is_success (rc : dc_status_t) : bool :=
  match rc with
  | DC_STATUS_SUCCESS => true
  | _ => false
  end.

(** How a call ends: it returns a status, or the loop of the model was
    given too few iterations to reach a [return]. *)
Inductive outcome : Set :=
| Returned (rc : dc_status_t)
| Unfinished.

(** Modelled from the spec: [array_uint32_le] of [array.h], which is not
    among the sources; the spec calls the value it reads a 4-byte
    little-endian unsigned integer. *)
Definition array_uint32_le (data : memory) : Z :=
  Z.lor (Z.lor (Z.lor (uint8 (data 0)) (Z.shiftl (uint8 (data 1)) 8))
               (Z.shiftl (uint8 (data 2)) 16))
        (Z.shiftl (uint8 (data 3)) 24).

(** ** Computations with a state and an event log

    [M St Ev A] is a computation that returns an [A], updates a state of
    type [St] and appends to a log of events of type [Ev]. *)

Definition M (St Ev A : Type) : Type := St -> A * St * list Ev.

Definition ret {St Ev A} (a : A) : M St Ev A := fun s => (a, s, []).

Definition bind {St Ev A B} (m : M St Ev A) (k : A -> M St Ev B) : M St Ev B :=
  fun s =>
    let '(a, s1, t1) := m s in
    let '(b, s2, t2) := k a s1 in
    (b, s2, t1 ++ t2).

Definition get {St Ev} : M St Ev St := fun s => (s, s, []).

Definition put {St Ev} (s : St) : M St Ev unit := fun _ => (tt, s, []).

Definition log {St Ev} (e : Ev) : M St Ev unit := fun s => (tt, s, [e]).

Notation "x <- m ;; k" := (bind m (fun x => k))
  (at level 61, m at next level, right associativity).
Notation "' p <- m ;; k" := (bind m (fun x => let p := x in k))
  (at level 61, p pattern, m at next level, right associativity).
Notation "m ;;; k" := (bind m (fun _ => k))
  (at level 61, right associativity).

(** The parts of a finished run. *)
Definition result {St Ev A} (r : A * St * list Ev) : A := fst (fst r).
Definition final {St Ev A} (r : A * St * list Ev) : St := snd (fst r).
Definition trace {St Ev A} (r : A * St * list Ev) : list Ev := snd r.

(** ** The Suunto Solution sample decoder *)

Module SuuntoSolution.

Inductive parser_sample_event_t : Set :=
| SAMPLE_EVENT_NONE
| SAMPLE_EVENT_DECOSTOP
| SAMPLE_EVENT_CEILING
| SAMPLE_EVENT_ASCENT.

(** The sample type together with the member of [dc_sample_value_t] that
    the decoder has set.  A depth sample carries the accumulator [depth],
    in feet; the C code hands [depth * FEET] to the callback. *)
Inductive sample : Set :=
| DC_SAMPLE_TIME (time : Z)
| DC_SAMPLE_DEPTH (depth : Z)
| DC_SAMPLE_EVENT (type : parser_sample_event_t).

Record dc_parser_t : Type := {
  backend : dc_family_t;
  data : memory;
  size : Z
}.

(** What a run does, in order: [Read i] is an evaluation of [data[i]],
    [Callback s] an invocation of the callback. *)
Inductive event : Set :=
| Read (i : Z)
| Callback (s : sample).

Definition parser_is_suunto_solution (abstract : option dc_parser_t) : bool :=
  match abstract with
  | None => false
  | Some p => dc_family_eqb (backend p) DC_FAMILY_SUUNTO_SOLUTION
  end.

Section Decoder.

(** The state behind [userdata] and what the callback returns; the
    call sites discard the latter. *)
Context {U R : Type}.

Definition dc_sample_callback_t : Type := sample -> U -> R * U.

Variable data : memory.
Variable size : Z.
Variable callback : option dc_sample_callback_t.

(** [data[i]] *)
Definition read (i : Z) : M U event Z := log (Read i) ;;; ret (uint8 (data i)).

(** [if (callback) callback (type, sample, userdata);] *)
Definition call (s : sample) : M U event unit :=
  match callback with
  | None => ret tt
  | Some f => u <- get ;; put (snd (f s u)) ;;; log (Callback s)
  end.

(** [offset < size && data[offset] != 0x80] *)
Definition loop_condition (offset : Z) : M U event bool :=
  if offset <? size then
    v <- read offset ;; ret (negb (v =? 0x80))
  else ret false.

(** The [switch] on an event byte; [sample] starts as [{0}], so an
    unknown event keeps type 0. *)
Definition event_type (value : Z) : parser_sample_event_t :=
  if value =? 0x7e then SAMPLE_EVENT_DECOSTOP
  else if value =? 0x7f then SAMPLE_EVENT_CEILING
  else if value =? 0x81 then SAMPLE_EVENT_ASCENT
  else SAMPLE_EVENT_NONE.

(** The [while] loop of [suunto_solution_parser_samples_foreach]
    followed by the check of the end marker. *)
Fixpoint samples_loop (fuel : nat) (offset time depth : Z) : M U event outcome :=
  match fuel with
  | O => ret Unfinished
  | S fuel =>
    c <- loop_condition offset ;;
    if c then
      value <- read offset ;;
      let offset := u32 (offset + 1) in
      if (value <? 0x7e) || (value >? 0x82) then
        let time := u32 (time + 3 * 60) in
        call (DC_SAMPLE_TIME time) ;;;
        let depth := u32 (depth + signed_char value) in
        r <- (if (value =? 0x7D) || (value =? 0x83) then
                if u32 (offset + 1) >? size then ret None
                else
                  w <- read offset ;;
                  ret (Some (u32 (offset + 1), u32 (depth + signed_char w)))
              else ret (Some (offset, depth))) ;;
        match r with
        | None => ret (Returned DC_STATUS_DATAFORMAT)
        | Some (offset, depth) =>
          call (DC_SAMPLE_DEPTH depth) ;;;
          samples_loop fuel offset time depth
        end
      else
        call (DC_SAMPLE_EVENT (event_type value)) ;;;
        samples_loop fuel offset time depth
    else
      v <- read offset ;;
      if negb (v =? 0x80) then ret (Returned DC_STATUS_DATAFORMAT)
      else ret (Returned DC_STATUS_SUCCESS)
  end.

End Decoder.

(** The cached fields of [suunto_solution_parser_t]. *)
Record suunto_solution_parser_t : Set := {
  cached : Z;
  divetime : Z;
  maxdepth : Z
}.

Inductive dc_field_type_t : Set :=
| DC_FIELD_DIVETIME
| DC_FIELD_MAXDEPTH
| DC_FIELD_GASMIX_COUNT
| DC_FIELD_GASMIX
| DC_FIELD_OTHER.

(** What [suunto_solution_parser_get_field] stores through [value]: the
    dive time in seconds, the maximum depth in feet (the C code stores
    [maxdepth * FEET]), the number of gas mixes, or the air mix. *)
Inductive field_value : Set :=
| Divetime (seconds : Z)
| Maxdepth (feet : Z)
| GasmixCount (n : Z)
| GasmixAir.

(** How the [while] loop of [suunto_solution_parser_get_field] ends: by
    the [return] inside it, or with the loop condition false. *)
Inductive field_scan : Set :=
| Truncated
| Stopped (offset nsamples maxdepth : Z)
| Exhausted.

Section Fields.

Variable data : memory.
Variable size : Z.

(** The [while] loop of [suunto_solution_parser_get_field]. *)
Fixpoint field_loop (fuel : nat) (offset nsamples depth maxdepth : Z)
    : M suunto_solution_parser_t event field_scan :=
  match fuel with
  | O => ret Exhausted
  | S fuel =>
    c <- loop_condition data size offset ;;
    if c then
      value <- read data offset ;;
      let offset := u32 (offset + 1) in
      if (value <? 0x7e) || (value >? 0x82) then
        let depth := u32 (depth + signed_char value) in
        r <- (if (value =? 0x7D) || (value =? 0x83) then
                if u32 (offset + 1) >? size then ret None
                else
                  w <- read data offset ;;
                  ret (Some (u32 (offset + 1), u32 (depth + signed_char w)))
              else ret (Some (offset, depth))) ;;
        match r with
        | None => ret Truncated
        | Some (offset, depth) =>
          let maxdepth := if depth >? maxdepth then depth else maxdepth in
          field_loop fuel offset (u32 (nsamples + 1)) depth maxdepth
        end
      else field_loop fuel offset nsamples depth maxdepth
    else ret (Stopped offset nsamples maxdepth)
  end.

(** [suunto_solution_parser_get_field]; [value] tells whether the pointer
    of that name is non-null, and the result carries what is stored
    through it. *)
Definition suunto_solution_parser_get_field (type : dc_field_type_t) (value : bool)
    : M suunto_solution_parser_t event (outcome * option field_value) :=
  if size <? 4 then ret (Returned DC_STATUS_DATAFORMAT, None)
  else
    parser <- get ;;
    failed <- (if cached parser =? 0 then
                 s <- field_loop (S (Z.to_nat size)) 3 0 0 0 ;;
                 match s with
                 | Exhausted => ret (Some Unfinished)
                 | Truncated => ret (Some (Returned DC_STATUS_DATAFORMAT))
                 | Stopped offset nsamples maxdepth =>
                   (* Store the offset to the end marker. *)
                   let marker := offset in
                   bad <- (if u32 (marker + 1) >=? size then ret true
                           else v <- read data marker ;; ret (negb (v =? 0x80))) ;;
                   if bad : bool then ret (Some (Returned DC_STATUS_DATAFORMAT))
                   else
                     t <- read data (u32 (marker + 1)) ;;
                     put {| cached := 1;
                            divetime := u32 (u32 (u32 (nsamples * 3) + t) * 60);
                            maxdepth := maxdepth |} ;;;
                     ret None
                 end
               else ret None) ;;
    match failed with
    | Some o => ret (o, None)
    | None =>
      parser <- get ;;
      if value then
        match type with
        | DC_FIELD_DIVETIME =>
          ret (Returned DC_STATUS_SUCCESS, Some (Divetime (divetime parser)))
        | DC_FIELD_MAXDEPTH =>
          ret (Returned DC_STATUS_SUCCESS, Some (Maxdepth (maxdepth parser)))
        | DC_FIELD_GASMIX_COUNT =>
          ret (Returned DC_STATUS_SUCCESS, Some (GasmixCount 1))
        | DC_FIELD_GASMIX =>
          ret (Returned DC_STATUS_SUCCESS, Some GasmixAir)
        | DC_FIELD_OTHER => ret (Returned DC_STATUS_UNSUPPORTED, None)
        end
      else ret (Returned DC_STATUS_SUCCESS, None)
    end.

End Fields.

(** A parser with nothing cached, as [suunto_solution_parser_set_data]
    leaves it. *)
Definition fresh_parser : suunto_solution_parser_t :=
  {| cached := 0; divetime := 0; maxdepth := 0 |}.

Definition suunto_solution_parser_samples_foreach {U R : Type}
    (abstract : option dc_parser_t)
    (callback : option (@dc_sample_callback_t U R)) : M U event outcome :=
  match abstract with
  | None => ret (Returned DC_STATUS_INVALIDARGS)
  | Some p =>
    if negb (parser_is_suunto_solution abstract) then
      ret (Returned DC_STATUS_INVALIDARGS)
    else if size p <? 4 then ret (Returned DC_STATUS_DATAFORMAT)
    else samples_loop (data p) (size p) callback (S (Z.to_nat (size p))) 3 0 0
  end.

(** A consumer that keeps every sample it is given, oldest first, and
    answers [r]. *)
Definition recorder {R : Type} (r : R) : @dc_sample_callback_t (list sample) R :=
  fun s seen => (r, seen ++ [s]).

(** Whether every [data[i]] of a log has [i] below [size]. *)
Definition reads_within (size : Z) (t : list event) : bool :=
  forallb (fun e => match e with
                    | Read i => (0 <=? i) && (i <? size)
                    | Callback _ => true
                    end) t.

(** Whether one of [data[3]], ..., [data[size - 1]] is the end marker. *)
Definition has_end_marker (data : memory) (size : Z) : bool :=
  existsb (fun i => uint8 (data (3 + Z.of_nat i)) =? 0x80)
          (seq 0 (Z.to_nat (size - 3))).

Definition solution_parser (l : list byte) (n : Z) : option dc_parser_t :=
  Some {| backend := DC_FAMILY_SUUNTO_SOLUTION; data := mem_of_list l; size := n |}.

(** [suunto_solution_parser_set_data] *)
Definition suunto_solution_parser_set_data (abstract : option dc_parser_t)
    : M suunto_solution_parser_t event outcome :=
  if negb (parser_is_suunto_solution abstract) then ret (Returned DC_STATUS_INVALIDARGS)
  else
    (* Reset the cache. *)
    put {| cached := 0; divetime := 0; maxdepth := 0 |} ;;;
    ret (Returned DC_STATUS_SUCCESS).

(** The samples a log hands to the callback, in order. *)
Fixpoint delivered (t : list event) : list sample :=
  match t with
  | [] => []
  | Callback s :: t' => s :: delivered t'
  | Read _ :: t' => delivered t'
  end.

(** The depths of the depth samples of a list, in order. *)
Fixpoint depths (l : list sample) : list Z :=
  match l with
  | [] => []
  | DC_SAMPLE_DEPTH d :: l' => d :: depths l'
  | _ :: l' => depths l'
  end.

(** The running maximum [if (depth > maxdepth) maxdepth = depth] over a
    list of depths. *)
Definition max_depth (start : Z) (l : list Z) : Z :=
  fold_left (fun m d => if d >? m then d else m) l start.

(** Whether a list of samples is made of events and of pairs of a time
    sample and a depth sample, each time 180 seconds after the one before
    it ([time] at first); with [dangling], the list may end with a time
    sample that has no depth sample. *)
Fixpoint paired (dangling : bool) (time : Z) (l : list sample) : bool :=
  match l with
  | [] => true
  | DC_SAMPLE_EVENT _ :: l' => paired dangling time l'
  | DC_SAMPLE_TIME t :: l' =>
    (t =? u32 (time + 180))
    && match l' with
       | [] => dangling
       | DC_SAMPLE_DEPTH _ :: l'' => paired dangling t l''
       | _ => false
       end
  | DC_SAMPLE_DEPTH _ :: _ => false
  end.

(** The bytes [data[from]], ..., [data[size - 1]] of a buffer. *)
Definition bytes_from (data : memory) (size from : Z) : list byte :=
  map (fun i => data (from + Z.of_nat i)) (seq 0 (Z.to_nat (size - from))).

(** The samples of a stream in the words of the spec (section 4.6), to be
    compared with what the decoder hands over: a byte 0x80 ends the
    stream; a byte outside 0x7E..0x82 advances the time by three minutes
    and gives a time sample, adds its signed value to the depth, with 0x7D
    and 0x83 also the signed value of the byte after it (no depth sample
    if there is none), and gives a depth sample; any other byte gives an
    event sample. Time and depth are kept as unsigned ints, as the code
    keeps them. *)
Fixpoint spec_samples (time depth : Z) (stream : list byte) : list sample :=
  match stream with
  | [] => []
  | b :: rest =>
    let v := uint8 b in
    if v =? 0x80 then []
    else if (v <? 0x7e) || (v >? 0x82) then
      let time := u32 (time + 3 * 60) in
      let depth := u32 (depth + signed_char v) in
      if (v =? 0x7D) || (v =? 0x83) then
        match rest with
        | [] => [DC_SAMPLE_TIME time]
        | w :: rest' =>
          let depth := u32 (depth + signed_char (uint8 w)) in
          DC_SAMPLE_TIME time :: DC_SAMPLE_DEPTH depth :: spec_samples time depth rest'
        end
      else DC_SAMPLE_TIME time :: DC_SAMPLE_DEPTH depth :: spec_samples time depth rest
    else DC_SAMPLE_EVENT (event_type v) :: spec_samples time depth rest
  end.

End SuuntoSolution.



(** ** The Uwatec Smart device: transfer, version, dump *)

Module UwatecSmart.

(** The infrared socket of [irda.h], which is not among the sources: the
    three calls the device code makes, over a connection state [S].
    [irda_socket_read] yields its return value and the bytes it has stored
    at the start of the destination. *)
Record irda_t (S : Type) : Type := {
  irda_socket_write : S -> list byte -> Z -> Z * S;
  irda_socket_read : S -> Z -> Z * list byte * S;
  irda_socket_available : S -> Z * S
}.
Arguments irda_socket_write {S}.
Arguments irda_socket_read {S}.
Arguments irda_socket_available {S}.

(** [EXITCODE (rc)] *)
Definition EXITCODE (rc : Z) : dc_status_t :=
  if rc =? -1 then DC_STATUS_IO else DC_STATUS_TIMEOUT.

(** Modelled from the spec: [UWATEC_SMART_VERSION_SIZE] of
    [uwatec_smart.h], which is not among the sources; the spec gives the
    device info query 9 bytes in total. *)
Definition UWATEC_SMART_VERSION_SIZE : Z := 9.

Record uwatec_smart_device_t : Set := {
  backend : dc_family_t;
  timestamp : Z;
  devtime : Z;
  systime : Z
}.

(** A [dc_buffer_t]: its size and the bytes it holds. *)
Record dc_buffer_t : Type := {
  bsize : Z;
  bdata : memory
}.

Record dc_event_progress_t : Set := {
  current : Z;
  maximum : Z
}.

(** Modelled from the spec: [EVENT_PROGRESS_INITIALIZER] of
    [device-private.h], which is not among the sources; the first progress
    event has [current = 0], and the maximum is not known before the
    length query. *)
Definition EVENT_PROGRESS_INITIALIZER : dc_event_progress_t :=
  {| current := 0; maximum := UINT_MAX |}.

Inductive dc_event_t : Set :=
| DC_EVENT_PROGRESS (progress : dc_event_progress_t)
| DC_EVENT_CLOCK (systime devtime : Z)
| DC_EVENT_DEVINFO (model firmware serial : Z).

(** What a run does, in order.
    - [Write command csize n]: [irda_socket_write (socket, command, csize)]
      returned [n];
    - [Answer command asize n answer]: the [irda_socket_read] of the
      transfer of [command], asked for [asize] bytes, returned [n] and left
      [answer] in the answer array;
    - [Available n]: [irda_socket_available] returned [n];
    - [Chunk nbytes len n]: the [irda_socket_read] of the dump loop, asked
      for [len] bytes at [data + nbytes], returned [n];
    - [Emit e]: [device_event_emit]. *)
Inductive event : Set :=
| Write (command : list byte) (csize n : Z)
| Answer (command : list byte) (asize n : Z) (answer : list byte)
| Available (n : Z)
| Chunk (nbytes len n : Z)
| Emit (e : dc_event_t).

(** The objects the device functions work on: the connection, the device
    structure behind [abstract] and the buffer behind [buffer]; [None] is
    a null pointer. *)
Record world (S : Type) : Type := {
  socket : S;
  device : option uwatec_smart_device_t;
  buffer : option dc_buffer_t
}.
Arguments socket {S}.
Arguments device {S}.
Arguments buffer {S}.

Definition device_is_uwatec_smart (abstract : option uwatec_smart_device_t) : bool :=
  match abstract with
  | None => false
  | Some d => dc_family_eqb (backend d) DC_FAMILY_UWATEC_SMART
  end.

(** Bytes [src] stored at the start of the array [dst]. *)
Definition store (dst src : list byte) : list byte :=
  firstn (length dst) (src ++ skipn (length src) dst).

(** Bytes [src] stored at [data + p]. *)
Definition mem_store (data : memory) (p : Z) (src : list byte) : memory :=
  fun i =>
    if (p <=? i) && (i <? p + Z.of_nat (length src))
    then nth (Z.to_nat (i - p)) src x00
    else data i.

(** The [n] bytes of an array from index [p] on. *)
Definition slice (l : list byte) (p n : nat) : list byte := firstn n (skipn p l).

(** The array with [src] put in place of the bytes from index [p] on. *)
Definition splice (l : list byte) (p : nat) (src : list byte) : list byte :=
  firstn p l ++ src ++ skipn (p + length src) l.

Section Device.

Context {Sock : Type}.
Variable irda : irda_t Sock.

(** [dc_datetime_now ()] and whether [dc_buffer_resize] obtains a buffer
    of the given size: both are outside the sources. *)
Variable dc_datetime_now : Z.
Variable dc_buffer_resize_ok : Z -> bool.

Definition socket_write (command : list byte) (csize : Z) : M (world Sock) event Z :=
  w <- get ;;
  let '(n, s) := irda_socket_write irda (socket w) command csize in
  put {| socket := s; device := device w; buffer := buffer w |} ;;;
  log (Write command csize n) ;;;
  ret n.

Definition socket_read (size : Z) : M (world Sock) event (Z * list byte) :=
  w <- get ;;
  let '(n, bytes, s) := irda_socket_read irda (socket w) size in
  put {| socket := s; device := device w; buffer := buffer w |} ;;;
  ret (n, bytes).

Definition socket_available : M (world Sock) event Z :=
  w <- get ;;
  let '(n, s) := irda_socket_available irda (socket w) in
  put {| socket := s; device := device w; buffer := buffer w |} ;;;
  log (Available n) ;;;
  ret n.

Definition device_event_emit (e : dc_event_t) : M (world Sock) event unit :=
  log (Emit e).

(** [uwatec_smart_transfer]: the status and the answer array. *)
Definition uwatec_smart_transfer (command : list byte) (csize : Z)
    (answer : list byte) (asize : Z) : M (world Sock) event (dc_status_t * list byte) :=
  n <- socket_write command csize ;;
  if negb (u32 n =? csize) then ret (EXITCODE n, answer)
  else
    r <- socket_read asize ;;
    let n := fst r in
    let answer := store answer (snd r) in
    log (Answer command asize n answer) ;;;
    if negb (u32 n =? asize) then ret (EXITCODE n, answer)
    else ret (DC_STATUS_SUCCESS, answer).

(** [uwatec_smart_device_version]: the status and the array [data]. *)
Definition uwatec_smart_device_version (data : list byte) (size : Z)
    : M (world Sock) event (dc_status_t * list byte) :=
  if size <? UWATEC_SMART_VERSION_SIZE then ret (DC_STATUS_NOMEMORY, data)
  else
    (* Model Number. *)
    r <- uwatec_smart_transfer [x10] 1 (slice data 0 1) 1 ;;
    let data := splice data 0 (snd r) in
    if negb (is_success (fst r))
    then ret (fst r, data)
    else
      (* Serial Number. *)
      r <- uwatec_smart_transfer [x14] 1 (slice data 1 4) 4 ;;
      let data := splice data 1 (snd r) in
      if negb (is_success (fst r))
      then ret (fst r, data)
      else
        (* Current Timestamp. *)
        r <- uwatec_smart_transfer [x1a] 1 (slice data 5 4) 4 ;;
        let data := splice data 5 (snd r) in
        if negb (is_success (fst r))
        then ret (fst r, data)
        else ret (DC_STATUS_SUCCESS, data).

Definition set_clock (sys dev : Z) : M (world Sock) event unit :=
  w <- get ;;
  put {| socket := socket w;
         device := option_map (fun d => {| backend := backend d;
                                           timestamp := timestamp d;
                                           devtime := dev;
                                           systime := sys |}) (device w);
         buffer := buffer w |}.

(** Modelled from the spec: [dc_buffer_clear] of the buffer utility,
    which is not among the sources; it fails on a null buffer and leaves
    length zero otherwise. *)
Definition dc_buffer_clear : M (world Sock) event bool :=
  w <- get ;;
  match buffer w with
  | None => ret false
  | Some b =>
    put {| socket := socket w; device := device w;
           buffer := Some {| bsize := 0; bdata := bdata b |} |} ;;;
    ret true
  end.

(** Modelled from the spec: [dc_buffer_resize] of the buffer utility,
    which is not among the sources; it fails on a null buffer or when no
    memory is to be had, and fills the bytes it adds with zeros. *)
Definition dc_buffer_resize (size : Z) : M (world Sock) event bool :=
  w <- get ;;
  match buffer w with
  | None => ret false
  | Some b =>
    if dc_buffer_resize_ok size then
      put {| socket := socket w; device := device w;
             buffer := Some {| bsize := size;
                               bdata := fun i => if i <? bsize b
                                                 then bdata b i else x00 |} |} ;;;
      ret true
    else ret false
  end.

(** The bytes an [irda_socket_read] has stored at [data + nbytes], where
    [data] is [dc_buffer_get_data (buffer)]. *)
Definition buffer_store (nbytes : Z) (bytes : list byte) : M (world Sock) event unit :=
  w <- get ;;
  put {| socket := socket w; device := device w;
         buffer := option_map (fun b => {| bsize := bsize b;
                                           bdata := mem_store (bdata b) nbytes bytes |})
                              (buffer w) |}.

(** [progress.current += n] *)
Definition advance (progress : dc_event_progress_t) (n : Z) : dc_event_progress_t :=
  {| current := u32 (current progress + n); maximum := maximum progress |}.

(** [command[0] = opcode] *)
Definition set_opcode (opcode : byte) (command : list byte) : list byte :=
  opcode :: tl command.

(** The [while (nbytes < length)] loop of [uwatec_smart_device_dump]. *)
Fixpoint dump_loop (fuel : nat) (length nbytes : Z) (progress : dc_event_progress_t)
    : M (world Sock) event outcome :=
  match fuel with
  | O => ret Unfinished
  | S fuel =>
    if nbytes <? length then
      (* Set the minimum packet size. *)
      let len := 32 in
      (* Increase the packet size if more data is immediately available. *)
      available <- socket_available ;;
      let len := if u32 available >? len then u32 available else len in
      (* Limit the packet size to the total size. *)
      let len := if u32 (nbytes + len) >? length then u32 (length - nbytes) else len in
      r <- socket_read len ;;
      let n := fst r in
      buffer_store nbytes (snd r) ;;;
      log (Chunk nbytes len n) ;;;
      if negb (u32 n =? len) then ret (Returned (EXITCODE n))
      else
        let progress := advance progress n in
        device_event_emit (DC_EVENT_PROGRESS progress) ;;;
        dump_loop fuel length (u32 (nbytes + n)) progress
    else ret (Returned DC_STATUS_SUCCESS)
  end.

(** [uwatec_smart_device_dump]; [fuel] bounds the number of chunks the
    model reads. *)
Definition uwatec_smart_device_dump (fuel : nat) : M (world Sock) event outcome :=
  w <- get ;;
  match device w with
  | None => ret (Returned DC_STATUS_INVALIDARGS)
  | Some d =>
    if negb (device_is_uwatec_smart (device w)) then ret (Returned DC_STATUS_INVALIDARGS)
    else
      (* Erase the current contents of the buffer. *)
      ok <- dc_buffer_clear ;;
      if negb ok then ret (Returned DC_STATUS_NOMEMORY)
      else
        (* Enable progress notifications. *)
        let progress := EVENT_PROGRESS_INITIALIZER in
        device_event_emit (DC_EVENT_PROGRESS progress) ;;;
        (* Read the version and clock data. *)
        r <- uwatec_smart_device_version (repeat x00 9) 9 ;;
        let version := snd r in
        if negb (is_success (fst r)) then ret (Returned (fst r))
        else
          (* Store the clock calibration values. *)
          let systime := dc_datetime_now in
          let devtime := array_uint32_le (mem_of_list (skipn 5 version)) in
          set_clock systime devtime ;;;
          let progress := advance progress 9 in
          device_event_emit (DC_EVENT_PROGRESS progress) ;;;
          device_event_emit (DC_EVENT_CLOCK systime devtime) ;;;
          device_event_emit
            (DC_EVENT_DEVINFO (uint8 (nth 0 version x00)) 0
                              (array_uint32_le (mem_of_list (skipn 1 version)))) ;;;
          (* Command template. *)
          let answer := [x00; x00; x00; x00] in
          let command := [x00;
                          byte_of_Z (timestamp d);
                          byte_of_Z (Z.shiftr (timestamp d) 8);
                          byte_of_Z (Z.shiftr (timestamp d) 16);
                          byte_of_Z (Z.shiftr (timestamp d) 24);
                          x10; x27; x00; x00] in
          (* Data Length. *)
          let command := set_opcode xc6 command in
          r <- uwatec_smart_transfer command 9 answer 4 ;;
          let answer := snd r in
          if negb (is_success (fst r)) then ret (Returned (fst r))
          else
            let length := array_uint32_le (mem_of_list answer) in
            let progress :=
              {| current := u32 (current progress + 4);
                 maximum := u32 (4 + 9 + (if length =? 0 then 0 else u32 (length + 4))) |} in
            device_event_emit (DC_EVENT_PROGRESS progress) ;;;
            if length =? 0 then ret (Returned DC_STATUS_SUCCESS)
            else
              (* Allocate the required amount of memory. *)
              ok <- dc_buffer_resize length ;;
              if negb ok then ret (Returned DC_STATUS_NOMEMORY)
              else
                (* Data. *)
                let command := set_opcode xc4 command in
                r <- uwatec_smart_transfer command 9 answer 4 ;;
                let answer := snd r in
                if negb (is_success (fst r)) then ret (Returned (fst r))
                else
                  let total := array_uint32_le (mem_of_list answer) in
                  let progress := advance progress 4 in
                  device_event_emit (DC_EVENT_PROGRESS progress) ;;;
                  if negb (total =? u32 (length + 4)) then ret (Returned DC_STATUS_PROTOCOL)
                  else dump_loop fuel length 0 progress
  end.

End Device.

(** *** The dive splitter *)

(** What a scan does, in order.
    - [Compare p]: [memcmp (data + p, header, 4)];
    - [ReadLength p]: [array_uint32_le (data + p)];
    - [Callback p len f fsize r]:
      [callback (data + p, len, data + f, fsize, userdata)] returned [r]. *)
Inductive scan_event : Set :=
| Compare (p : Z)
| ReadLength (p : Z)
| Callback (p len f fsize r : Z).

(** [memcmp (a, b, n)] with [n] the length of [b]. *)
Fixpoint memcmp (a : memory) (b : list byte) : Z :=
  match b with
  | [] => 0
  | y :: b' =>
    let d := uint8 (a 0) - uint8 y in
    if d =? 0 then memcmp (shift a 1) b' else d
  end.

Section Splitter.

Context {U : Type}.

(** The dive callback: data, size, fingerprint, fingerprint size and the
    state behind [userdata]; it returns an [int]. *)
Definition dc_dive_callback_t : Type := memory -> Z -> memory -> Z -> U -> Z * U.

Variable data : memory.
Variable size : Z.
Variable callback : option dc_dive_callback_t.

Definition header : list byte := [xa5; xa5; x5a; x5a].

(** [callback && !callback (data + current, len, data + current + 8, 4, userdata)] *)
Definition call_stops (current len : Z) : M U scan_event bool :=
  match callback with
  | None => ret false
  | Some f =>
    u <- get ;;
    let '(r, u') := f (shift data current) len (shift data (current + 8)) 4 u in
    put u' ;;;
    log (Callback current len (current + 8) 4 r) ;;;
    ret (r =? 0)
  end.

(** The [while (current > 0)] loop of [uwatec_smart_extract_dives]. *)
Fixpoint scan (fuel : nat) (previous current : Z) : M U scan_event outcome :=
  match fuel with
  | O => ret Unfinished
  | S fuel =>
    if current >? 0 then
      let current := u32 (current - 1) in
      log (Compare current) ;;;
      if memcmp (shift data current) header =? 0 then
        (* Get the length of the profile data. *)
        log (ReadLength (current + 4)) ;;;
        let len := array_uint32_le (shift data (current + 4)) in
        (* Check for a buffer overflow. *)
        if u32 (current + len) >? previous then ret (Returned DC_STATUS_DATAFORMAT)
        else
          stop <- call_stops current len ;;
          if stop then ret (Returned DC_STATUS_SUCCESS)
          else
            (* Prepare for the next dive. *)
            let previous := current in
            let current := if current >=? 4 then u32 (current - 4) else 0 in
            scan fuel previous current
      else scan fuel previous current
    else ret (Returned DC_STATUS_SUCCESS)
  end.

Definition uwatec_smart_extract_dives (abstract : option uwatec_smart_device_t)
    : M U scan_event outcome :=
  if match abstract with
     | None => false
     | Some _ => negb (device_is_uwatec_smart abstract)
     end
  then ret (Returned DC_STATUS_INVALIDARGS)
  else
    (* Search the data stream for start markers. *)
    let previous := size in
    let current := if size >=? 4 then u32 (size - 4) else 0 in
    scan (S (Z.to_nat size)) previous current.

End Splitter.

(** [x] is immediately followed by [y] in [l]. *)
Definition adjacent {A : Type} (x y : A) (l : list A) : Prop :=
  exists l1 l2, l = l1 ++ x :: y :: l2.

(** The logs a scan can leave when it enters the loop with [current = c],
    together with how it ends; [cb] tells whether there is a callback. *)
Inductive scan_log (cb : bool) : Z -> outcome -> list scan_event -> Prop :=
| scan_end : forall c,
    c <= 0 ->
    scan_log cb c (Returned DC_STATUS_SUCCESS) []
| scan_miss : forall c o t,
    0 < c ->
    scan_log cb (c - 1) o t ->
    scan_log cb c o (Compare (c - 1) :: t)
| scan_overlap : forall c,
    0 < c ->
    scan_log cb c (Returned DC_STATUS_DATAFORMAT)
             [Compare (c - 1); ReadLength (c + 3)]
| scan_stop : forall c len,
    0 < c -> cb = true ->
    scan_log cb c (Returned DC_STATUS_SUCCESS)
             [Compare (c - 1); ReadLength (c + 3); Callback (c - 1) len (c + 7) 4 0]
| scan_deliver : forall c len r o t,
    0 < c -> cb = true -> r <> 0 ->
    scan_log cb (if c - 1 >=? 4 then c - 5 else 0) o t ->
    scan_log cb c o
             (Compare (c - 1) :: ReadLength (c + 3)
                :: Callback (c - 1) len (c + 7) 4 r :: t)
| scan_accept : forall c o t,
    0 < c -> cb = false ->
    scan_log cb (if c - 1 >=? 4 then c - 5 else 0) o t ->
    scan_log cb c o (Compare (c - 1) :: ReadLength (c + 3) :: t).

(** What may come right after an event of a scan. *)
Definition follows (x y : scan_event) : Prop :=
  match x with
  | Compare p => y = Compare (p - 1) \/ y = ReadLength (p + 4)
  | ReadLength q =>
    (exists len r, y = Callback (q - 4) len (q + 4) 4 r)
    \/ (9 <= q /\ y = Compare (q - 9))
  | Callback p _ _ _ r => r <> 0 /\ 5 <= p /\ y = Compare (p - 5)
  end.

(** What the last event of a scan may be. *)
Definition may_end (e : scan_event) : Prop :=
  match e with
  | Compare p => p = 0
  | ReadLength q => 4 <= q
  | Callback p _ _ _ r => r = 0 \/ (0 <= p /\ p < 5)
  end.

(** The state behind [userdata] after the callback has been run on the
    deliveries of a log, in order. *)
Definition replay {U : Type} (data : memory) (callback : option (@dc_dive_callback_t U))
    (t : list scan_event) (u : U) : U :=
  fold_left (fun u e =>
               match e, callback with
               | Callback p len f fsize _, Some cb =>
                 snd (cb (shift data p) len (shift data f) fsize u)
               | _, _ => u
               end) t u.

(** Whether every delivery of a log has its payload end at or before the
    start of the delivery before it, [previous] at first. *)
Fixpoint payloads_within (previous : Z) (t : list scan_event) : bool :=
  match t with
  | [] => true
  | Callback p len _ _ _ :: t' => (p + len <=? previous) && payloads_within p t'
  | _ :: t' => payloads_within previous t'
  end.

(** The same with the end of each payload taken as the code computes it,
    as an unsigned int. *)
Fixpoint payloads_within_u32 (previous : Z) (t : list scan_event) : bool :=
  match t with
  | [] => true
  | Callback p len _ _ _ :: t' =>
    (u32 (p + len) <=? previous) && payloads_within_u32 p t'
  | _ :: t' => payloads_within_u32 previous t'
  end.

(** Whether every length field a log reads lies below [size]. *)
Definition lengths_within (size : Z) (t : list scan_event) : bool :=
  forallb (fun e => match e with
                    | ReadLength q => q + 4 <=? size
                    | _ => true
                    end) t.

Definition is_some {A : Type} (o : option A) : bool :=
  match o with
  | Some _ => true
  | None => false
  end.

(** A dive consumer that keeps the length of every dive it is given,
    oldest first, and answers [r]. *)
Definition keep (r : Z) : @dc_dive_callback_t (list Z) :=
  fun _ len _ _ seen => (r, seen ++ [len]).

(** Whether an event is a write or an answer of a transfer of one of
    [commands]. *)
Definition transfer_of (commands : list (list byte)) (e : event) : Prop :=
  match e with
  | Write c _ _ => In c commands
  | Answer c _ _ _ => In c commands
  | _ => False
  end.

(** Whether an event is one of the dump loop: the socket asked what is
    pending, a chunk read, or progress. *)
Definition loop_event (e : event) : Prop :=
  match e with
  | Available _ => True
  | Chunk _ _ _ => True
  | Emit _ => True
  | _ => False
  end.

(** Whether an event belongs to the reading of the payload: the socket
    asked what is pending, or a chunk read. *)
Definition payload_event (e : event) : Prop :=
  match e with
  | Available _ => True
  | Chunk _ _ _ => True
  | _ => False
  end.

(** A socket that plays back a script: each call takes the next entry if
    it is of its kind, and fails with -1 otherwise. *)
Inductive reply : Set :=
| Written (n : Z)
| Received (n : Z) (bytes : list byte)
| Pending (n : Z).

Definition scripted : irda_t (list reply) :=
  {| irda_socket_write := fun s _ _ =>
       match s with
       | Written n :: s' => (n, s')
       | _ => (-1, s)
       end;
     irda_socket_read := fun s _ =>
       match s with
       | Received n bytes :: s' => (n, bytes, s')
       | _ => (-1, [], s)
       end;
     irda_socket_available := fun s =>
       match s with
       | Pending n :: s' => (n, s')
       | _ => (0, s)
       end |}.

(** The three answers of a version query: model 0x11, serial 01 02 03 04,
    clock 10 00 00 00. *)
Definition version_script : list reply :=
  [Written 1; Received 1 [x11];
   Written 1; Received 4 [x01; x02; x03; x04];
   Written 1; Received 4 [x10; x00; x00; x00]].

Definition smart_device (ts : Z) : option uwatec_smart_device_t :=
  Some {| backend := DC_FAMILY_UWATEC_SMART; timestamp := ts; devtime := 0; systime := -1 |}.

Definition empty_buffer : option dc_buffer_t :=
  Some {| bsize := 0; bdata := fun _ => x00 |}.

Section Session.

Context {Sock : Type}.
Variable irda : irda_t Sock.

(** [uwatec_smart_handshake] *)
Definition uwatec_smart_handshake : M (world Sock) event dc_status_t :=
  (* Command template. *)
  let answer := [x00] in
  let command := [x00; x10; x27; x00; x00] in
  (* Handshake (stage 1). *)
  let command := set_opcode x1b command in
  r <- uwatec_smart_transfer irda command 1 answer 1 ;;
  let answer := snd r in
  if negb (is_success (fst r)) then ret (fst r)
  else
    (* Verify the answer. *)
    if negb (uint8 (nth 0 answer x00) =? 0x01) then ret DC_STATUS_PROTOCOL
    else
      (* Handshake (stage 2). *)
      let command := set_opcode x1c command in
      r <- uwatec_smart_transfer irda command 5 answer 1 ;;
      let answer := snd r in
      if negb (is_success (fst r)) then ret (fst r)
      else
        (* Verify the answer. *)
        if negb (uint8 (nth 0 answer x00) =? 0x01) then ret DC_STATUS_PROTOCOL
        else ret DC_STATUS_SUCCESS.

(** [device->timestamp = timestamp] *)
Definition set_device_timestamp (ts : Z) : M (world Sock) event unit :=
  w <- get ;;
  put {| socket := socket w;
         device := option_map (fun d => {| backend := backend d;
                                           timestamp := ts;
                                           devtime := devtime d;
                                           systime := systime d |}) (device w);
         buffer := buffer w |}.

(** [uwatec_smart_device_set_timestamp] *)
Definition uwatec_smart_device_set_timestamp (timestamp : Z)
    : M (world Sock) event dc_status_t :=
  w <- get ;;
  if negb (device_is_uwatec_smart (device w)) then ret DC_STATUS_INVALIDARGS
  else
    set_device_timestamp timestamp ;;;
    ret DC_STATUS_SUCCESS.

(** [uwatec_smart_device_set_fingerprint] *)
Definition uwatec_smart_device_set_fingerprint (data : memory) (size : Z)
    : M (world Sock) event dc_status_t :=
  w <- get ;;
  if negb (device_is_uwatec_smart (device w)) then ret DC_STATUS_INVALIDARGS
  else if negb (size =? 0) && negb (size =? 4) then ret DC_STATUS_INVALIDARGS
  else
    (if negb (size =? 0) then set_device_timestamp (array_uint32_le data)
     else set_device_timestamp 0) ;;;
    ret DC_STATUS_SUCCESS.

End Session.

(** The two frames of the handshake as they go out. *)
Definition handshake_stage1 : list byte := [x1b; x10; x27; x00; x00].
Definition handshake_stage2 : list byte := [x1c; x10; x27; x00; x00].

Definition dump_world (script : list reply) : world (list reply) :=
  {| socket := script; device := smart_device 0; buffer := empty_buffer |}.

Definition length_query : list byte := [xc6; x00; x00; x00; x00; x10; x27; x00; x00].
Definition data_query : list byte := [xc4; x00; x00; x00; x00; x10; x27; x00; x00].

Definition progress_script : list reply :=
  version_script
  ++ [Written 9; Received 4 [x02; x00; x00; x00];
      Written 9; Received 4 [x06; x00; x00; x00];
      Pending 0; Received 2 [xaa; xbb]].

(** Whether the chunk reads of a log follow one another from offset
    [from] on, each of at least one byte and ending at or before
    [length]. *)
Fixpoint tiles (from length : Z) (t : list event) : bool :=
  match t with
  | [] => true
  | Chunk nbytes len _ :: t' =>
    (nbytes =? from) && (0 <? len) && (from + len <=? length)
    && tiles (from + len) length t'
  | _ :: t' => tiles from length t'
  end.

(** The number of bytes the chunk reads of a log asked for. *)
Fixpoint requested (t : list event) : Z :=
  match t with
  | [] => 0
  | Chunk _ len _ :: t' => len + requested t'
  | _ :: t' => requested t'
  end.

(** A payload of 40 bytes that arrives in chunks of 32 and 8. *)
Definition chunk_script : list reply :=
  [Pending 0; Received 32 []; Pending 8; Received 8 []].

(** Whether the deliveries of a log start at offsets that go down, each
    at least five below the one before it, [bound] at first, and none
    below zero. *)
Fixpoint descending (bound : Z) (t : list scan_event) : bool :=
  match t with
  | [] => true
  | Callback p _ _ _ _ :: t' => (0 <=? p) && (p + 5 <=? bound) && descending p t'
  | _ :: t' => descending bound t'
  end.

(** A buffer with two records: at offset 0 one of 12 bytes with
    fingerprint 01 02 03 04, at offset 12 one of 13 bytes with fingerprint
    05 06 07 08, and one byte behind it. *)
Definition two_dives : list byte :=
  [xa5; xa5; x5a; x5a; x0c; x00; x00; x00; x01; x02; x03; x04;
   xa5; xa5; x5a; x5a; x0d; x00; x00; x00; x05; x06; x07; x08; xff; xff].

(** Whether an event is a comparison with the marker. *)
Definition is_compare (e : scan_event) : bool :=
  match e with
  | Compare _ => true
  | _ => false
  end.

(** A buffer whose only marker stands in its last four bytes. *)
Definition marker_at_end : list byte := [x00; x00; x00; x00; xa5; xa5; x5a; x5a].

(** *** Downloading and splitting in one call *)

(** What a [foreach] does, in order: the events of the dump and the
    events of the splitter. *)
Inductive foreach_event : Set :=
| Device (e : event)
| Scan (e : scan_event).

Section Foreach.

Context {Sock U : Type}.
Variable irda : irda_t Sock.
Variable dc_datetime_now : Z.
Variable dc_buffer_resize_ok : Z -> bool.

(** Whether [dc_buffer_new (0)] obtains a buffer: it is outside the
    sources. *)
Variable dc_buffer_new_ok : bool.

(** A device function run on the objects of a [foreach]. *)
Definition on_device {A : Type} (m : M (world Sock) event A)
    : M (world Sock * U) foreach_event A :=
  fun s => let '(a, w, t) := m (fst s) in (a, (w, snd s), map Device t).

(** The splitter run on the state behind [userdata]. *)
Definition on_userdata {A : Type} (m : M U scan_event A)
    : M (world Sock * U) foreach_event A :=
  fun s => let '(a, u, t) := m (snd s) in (a, (fst s, u), map Scan t).

(** The local [buffer] is the buffer of the world: [dc_buffer_new] puts
    an empty one there and [dc_buffer_free] leaves none. *)
Definition set_buffer (b : option dc_buffer_t) : M (world Sock * U) foreach_event unit :=
  s <- get ;;
  put ({| socket := socket (fst s); device := device (fst s); buffer := b |}, snd s).

(** Modelled from the spec: [dc_buffer_get_data] and [dc_buffer_get_size]
    of the buffer utility, which is not among the sources; a dump buffer
    is its bytes and their number. *)
Definition dc_buffer_get_data (b : option dc_buffer_t) : memory :=
  match b with
  | Some b => bdata b
  | None => fun _ => x00
  end.

Definition dc_buffer_get_size (b : option dc_buffer_t) : Z :=
  match b with
  | Some b => bsize b
  | None => 0
  end.

(** [uwatec_smart_device_foreach]; [fuel] bounds the number of chunks the
    model reads. *)
Definition uwatec_smart_device_foreach (fuel : nat) (callback : option dc_dive_callback_t)
    : M (world Sock * U) foreach_event outcome :=
  s <- get ;;
  if negb (device_is_uwatec_smart (device (fst s))) then ret (Returned DC_STATUS_INVALIDARGS)
  else if negb dc_buffer_new_ok then ret (Returned DC_STATUS_NOMEMORY)
  else
    set_buffer (Some {| bsize := 0; bdata := fun _ => x00 |}) ;;;
    rc <- on_device (uwatec_smart_device_dump irda dc_datetime_now dc_buffer_resize_ok fuel) ;;
    match rc with
    | Returned DC_STATUS_SUCCESS =>
      s <- get ;;
      rc <- on_userdata
              (uwatec_smart_extract_dives (dc_buffer_get_data (buffer (fst s)))
                                          (dc_buffer_get_size (buffer (fst s)))
                                          callback (device (fst s))) ;;
      set_buffer None ;;;
      ret rc
    | _ =>
      set_buffer None ;;;
      ret rc
    end.

End Foreach.

(** After the version and the two queries, a payload of 26 bytes that
    holds two dives and arrives in one chunk. *)
Definition foreach_script : list reply :=
  version_script
  ++ [Written 9; Received 4 [x1a; x00; x00; x00];
      Written 9; Received 4 [x1e; x00; x00; x00];
      Pending 26; Received 26 two_dives].

(** After the version, a length query answered with zero. *)
Definition empty_script : list reply :=
  version_script ++ [Written 9; Received 4 [x00; x00; x00; x00]].

(** *** Opening and closing the device *)

(** The words of the name filter, as the characters of the C string
    literals. *)
Module Names.

Import String.

Definition UWATEC_Galileo_Sol : list byte := list_byte_of_string "UWATEC Galileo Sol"%string.
Definition Uwatec_Smart : list byte := list_byte_of_string "Uwatec Smart"%string.
Definition Uwatec : list byte := list_byte_of_string "Uwatec"%string.
Definition UWATEC : list byte := list_byte_of_string "UWATEC"%string.
Definition Aladin : list byte := list_byte_of_string "Aladin"%string.
Definition ALADIN : list byte := list_byte_of_string "ALADIN"%string.
Definition Smart : list byte := list_byte_of_string "Smart"%string.
Definition SMART : list byte := list_byte_of_string "SMART"%string.
Definition Galileo : list byte := list_byte_of_string "Galileo"%string.
Definition GALILEO : list byte := list_byte_of_string "GALILEO"%string.

(** Two names a discovery may report. *)
Definition uwatec_smart : list byte := list_byte_of_string "uwatec smart"%string.
Definition Aladin_Prime : list byte := list_byte_of_string "Aladin Prime"%string.

End Names.

(** [strncmp (s1, s2, n)] of the C library. A string is the list of its
    characters before the terminating NUL, which is what a read behind
    the list yields. *)
Fixpoint strncmp (s1 s2 : list byte) (n : nat) : Z :=
  match n with
  | O => 0
  | S n' =>
    let c1 := uint8 (hd x00 s1) in
    let c2 := uint8 (hd x00 s2) in
    if negb (c1 =? c2) then c1 - c2
    else if c1 =? 0 then 0
    else strncmp (tl s1) (tl s2) n'
  end.

(** Whether [s] begins with the characters of [needle]. *)
Fixpoint starts_with (needle s : list byte) : bool :=
  match needle, s with
  | [], _ => true
  | _ :: _, [] => false
  | x :: needle', y :: s' => (uint8 x =? uint8 y) && starts_with needle' s'
  end.

(** [strstr (haystack, needle)] of the C library: the string from the
    first occurrence of [needle] on, or [None] for [NULL]. *)
Fixpoint strstr (haystack needle : list byte) : option (list byte) :=
  if starts_with needle haystack then Some haystack
  else
    match haystack with
    | [] => None
    | _ :: haystack' => strstr haystack' needle
    end.

(** [uwatec_smart_discovery]: [device] is the [address] field of the
    structure behind [userdata], [None] for a null pointer; the result is
    that field afterwards. The arguments [charset] and [hints], which the
    function does not use, are left out. *)
Definition uwatec_smart_discovery (address : Z) (name : list byte) (device : option Z)
    : option Z :=
  match device with
  | None => None
  | Some current =>
    if (strncmp name Names.UWATEC_Galileo_Sol 18 =? 0)
       || (strncmp name Names.Uwatec_Smart 12 =? 0)
       || is_some (strstr name Names.Uwatec)
       || is_some (strstr name Names.UWATEC)
       || is_some (strstr name Names.Aladin)
       || is_some (strstr name Names.ALADIN)
       || is_some (strstr name Names.Smart)
       || is_some (strstr name Names.SMART)
       || is_some (strstr name Names.Galileo)
       || is_some (strstr name Names.GALILEO)
    then Some address
    else Some current
  end.

(** The words one of which a name must hold to pass the filter. *)
Definition filter_words : list (list byte) :=
  [Names.Uwatec; Names.UWATEC; Names.Aladin; Names.ALADIN;
   Names.Smart; Names.SMART; Names.Galileo; Names.GALILEO].

(** The rest of the infrared socket of [irda.h], which is not among the
    sources: the calls that open, discover, connect and close.
    [irda_socket_open] yields its return value and the connection;
    [irda_socket_discover] yields its return value and the devices it has
    reported to the callback, each with its address and its name, in the
    order of the calls. *)
Record irda_link (S : Type) : Type := {
  irda_socket_open : Z * S;
  irda_socket_discover : S -> Z * list (Z * list byte) * S;
  irda_socket_connect_lsap : S -> Z -> Z -> Z * S;
  irda_socket_close : S -> Z
}.
Arguments irda_socket_open {S}.
Arguments irda_socket_discover {S}.
Arguments irda_socket_connect_lsap {S}.
Arguments irda_socket_close {S}.

(** What opening or closing a device does, in order: the calls on the
    socket with what they returned, [free (device)], and the events of the
    handshake. *)
Inductive session_event : Set :=
| SocketOpen (rc : Z)
| SocketDiscover (rc : Z)
| SocketConnect (address lsap rc : Z)
| SocketClose (rc : Z)
| Free
| Transfer (e : event).

(** The device structure as [uwatec_smart_device_open] hands it out: the
    fields of [uwatec_smart_device_t] with the socket and the address. *)
Record opened_device (S : Type) : Type := {
  base_device : uwatec_smart_device_t;
  device_socket : S;
  device_address : Z
}.
Arguments base_device {S}.
Arguments device_socket {S}.
Arguments device_address {S}.

Section Open.

Context {Sock : Type}.
Variable irda : irda_t Sock.
Variable link : irda_link Sock.

(** Whether [malloc] obtains the structure. *)
Variable malloc_ok : bool.

(** The address field after the callback has been run on the devices a
    discovery reported. *)
Definition discovered (found : list (Z * list byte)) (address : Z) : Z :=
  fold_left (fun a r =>
               match uwatec_smart_discovery (fst r) (snd r) (Some a) with
               | Some a' => a'
               | None => a
               end) found address.

(** [uwatec_smart_device_open]: the status, the device stored in [*out]
    if one is, and what was done; [out] tells whether the pointer [out] is
    non-null. *)
Definition uwatec_smart_device_open (out : bool)
    : dc_status_t * option (opened_device Sock) * list session_event :=
  if negb out then (DC_STATUS_INVALIDARGS, None, [])
  else if negb malloc_ok then (DC_STATUS_NOMEMORY, None, [])
  else
    (* Set the default values. *)
    let device := {| backend := DC_FAMILY_UWATEC_SMART; timestamp := 0;
                     devtime := 0; systime := -1 |} in
    let address := 0 in
    (* Open the irda socket. *)
    let '(rc1, s) := irda_socket_open link in
    if rc1 =? -1 then (DC_STATUS_IO, None, [SocketOpen rc1; Free])
    else
      (* Discover the device. *)
      let '(rc2, found, s) := irda_socket_discover link s in
      let address := discovered found address in
      if rc2 =? -1
      then (DC_STATUS_IO, None,
            [SocketOpen rc1; SocketDiscover rc2; SocketClose (irda_socket_close link s); Free])
      else if address =? 0
      then (DC_STATUS_IO, None,
            [SocketOpen rc1; SocketDiscover rc2; SocketClose (irda_socket_close link s); Free])
      else
        (* Connect the device. *)
        let '(rc3, s) := irda_socket_connect_lsap link s address 1 in
        if rc3 =? -1
        then (DC_STATUS_IO, None,
              [SocketOpen rc1; SocketDiscover rc2; SocketConnect address 1 rc3;
               SocketClose (irda_socket_close link s); Free])
        else
          (* Perform the handshaking. *)
          let h := uwatec_smart_handshake irda
                     {| socket := s; device := Some device; buffer := None |} in
          (DC_STATUS_SUCCESS,
           Some {| base_device := device; device_socket := socket (final h);
                   device_address := address |},
           [SocketOpen rc1; SocketDiscover rc2; SocketConnect address 1 rc3]
             ++ map Transfer (trace h)).

(** [uwatec_smart_device_close] *)
Definition uwatec_smart_device_close (abstract : option (opened_device Sock))
    : dc_status_t * list session_event :=
  match abstract with
  | None => (DC_STATUS_INVALIDARGS, [])
  | Some device =>
    if negb (device_is_uwatec_smart (Some (base_device device)))
    then (DC_STATUS_INVALIDARGS, [])
    else
      (* Close the device. *)
      let rc := irda_socket_close link (device_socket device) in
      if rc =? -1 then (DC_STATUS_IO, [SocketClose rc; Free])
      else (DC_STATUS_SUCCESS, [SocketClose rc; Free])
  end.

(** The objects of the device functions for a device that was opened. *)
Definition world_of (d : opened_device Sock) (b : option dc_buffer_t) : world Sock :=
  {| socket := device_socket d; device := Some (base_device d); buffer := b |}.

End Open.

(** A link over the scripted socket: it opens, reports the given devices
    and connects, each call returning 0, and closes with [rc]. *)
Definition scripted_link (script : list reply) (found : list (Z * list byte)) (rc : Z)
    : irda_link (list reply) :=
  {| irda_socket_open := (0, script);
     irda_socket_discover := fun s => (0, found, s);
     irda_socket_connect_lsap := fun s _ _ => (0, s);
     irda_socket_close := fun _ => rc |}.

End UwatecSmart.

(** * Machine arithmetic *)

Lemma u32_small : forall x, 0 <= x <= UINT_MAX -> u32 x = x.
Proof.
  intros x Hx. unfold u32, UINT_MAX in *. apply Z.mod_small. lia.
Qed.

Lemma u32_add_l : forall a b, u32 (u32 a + b) = u32 (a + b).
Proof.
  intros a b. unfold u32. apply Zplus_mod_idemp_l.
Qed.

Lemma uint8_range : forall b, 0 <= uint8 b < 256.
Proof.
  intros b. unfold uint8.
  pose proof (Byte.to_N_bounded b) as Hb. lia.
Qed.

Lemma uint8_inj : forall a b, uint8 a = uint8 b -> a = b.
Proof.
  intros a b H. unfold uint8 in H. apply N2Z.inj in H.
  pose proof (Byte.of_to_N a) as Ha. pose proof (Byte.of_to_N b) as Hb.
  rewrite H in Ha. rewrite Ha in Hb. injection Hb as ->. reflexivity.
Qed.

Lemma lor_shiftl_add :
  forall a b k, 0 <= k -> 0 <= a < 2 ^ k -> Z.lor a (Z.shiftl b k) = a + b * 2 ^ k.
Proof.
  intros a b k Hk Ha.
  assert (Hl : Z.land a (Z.shiftl b k) = 0).
  { apply Z.bits_inj'. intros n Hn.
    rewrite Z.land_spec, Z.bits_0.
    destruct (Z.lt_ge_cases n k) as [Hlt | Hge].
    - rewrite Z.shiftl_spec_low by exact Hlt. apply andb_false_r.
    - assert (Hp : 2 ^ k <= 2 ^ n) by (apply Z.pow_le_mono_r; lia).
      assert (Hf : Z.testbit a n = false).
      { apply (Z.testbit_false a n Hn). rewrite Z.div_small by lia. reflexivity. }
      rewrite Hf. reflexivity. }
  rewrite <- Z.lxor_lor by exact Hl.
  rewrite <- Z.add_nocarry_lxor by exact Hl.
  rewrite Z.shiftl_mul_pow2 by exact Hk. reflexivity.
Qed.

Lemma array_uint32_le_sum :
  forall data : memory,
    array_uint32_le data
    = uint8 (data 0) + uint8 (data 1) * 256 + uint8 (data 2) * 65536
      + uint8 (data 3) * 16777216.
Proof.
  intros data. unfold array_uint32_le.
  pose proof (uint8_range (data 0)). pose proof (uint8_range (data 1)).
  pose proof (uint8_range (data 2)). pose proof (uint8_range (data 3)).
  rewrite (lor_shiftl_add (uint8 (data 0)) (uint8 (data 1)) 8) by lia.
  rewrite (lor_shiftl_add _ (uint8 (data 2)) 16) by lia.
  rewrite (lor_shiftl_add _ (uint8 (data 3)) 24) by lia.
  reflexivity.
Qed.

Lemma array_uint32_le_range :
  forall data : memory, 0 <= array_uint32_le data <= UINT_MAX.
Proof.
  intros data. rewrite array_uint32_le_sum. unfold UINT_MAX.
  pose proof (uint8_range (data 0)). pose proof (uint8_range (data 1)).
  pose proof (uint8_range (data 2)). pose proof (uint8_range (data 3)).
  lia.
Qed.

Lemma byte_of_uint8 :
  forall (b : byte) v, v mod 256 = uint8 b -> byte_of_Z v = b.
Proof.
  intros b v H. unfold byte_of_Z.
  change 0xFF with (Z.ones 8). rewrite Z.land_ones by lia.
  change (2 ^ 8) with 256. rewrite H. unfold uint8.
  rewrite N2Z.id, Byte.of_to_N. reflexivity.
Qed.

(** The bytes [v & 0xFF], [(v >> 8) & 0xFF], ... of a value read by
    [array_uint32_le] are the four bytes it was read from. *)
Lemma uint32_le_bytes :
  forall data : memory,
    byte_of_Z (array_uint32_le data) = data 0
    /\ byte_of_Z (Z.shiftr (array_uint32_le data) 8) = data 1
    /\ byte_of_Z (Z.shiftr (array_uint32_le data) 16) = data 2
    /\ byte_of_Z (Z.shiftr (array_uint32_le data) 24) = data 3.
Proof.
  intros data. rewrite array_uint32_le_sum.
  pose proof (uint8_range (data 0)). pose proof (uint8_range (data 1)).
  pose proof (uint8_range (data 2)). pose proof (uint8_range (data 3)).
  repeat split; apply byte_of_uint8; rewrite ?Z.shiftr_div_pow2 by lia;
    try change (2 ^ 8) with 256; try change (2 ^ 16) with 65536;
    try change (2 ^ 24) with 16777216;
    Z.to_euclidean_division_equations; lia.
Qed.

(** * Properties of the sample decoder *)

Module SuuntoSolutionSpec.

Import SuuntoSolution.

(** C1, as amended: in every run of the decoder loop, a depth-delta byte
    0x7D followed by a continuation byte k makes the loop read both bytes,
    hand over a time sample and then a depth sample whose depth is the
    running depth plus exactly 125 + k (k as a signed char, the sum taken
    as an unsigned int), and go on behind the two bytes; a byte 0x83
    followed by k does the same with -125 + k. *)
Theorem overflow_continuation_delta :
  forall (U R : Type) (data : memory) (size : Z)
         (callback : option (@dc_sample_callback_t U R))
         (fuel : nat) (offset time depth : Z) (k : byte) (u : U),
    0 <= offset -> offset + 1 < size -> size <= UINT_MAX ->
    data (offset + 1) = k ->
    (data offset = x7d ->
     samples_loop data size callback (S fuel) offset time depth u =
     (read data offset ;;; read data offset ;;;
      call callback (DC_SAMPLE_TIME (u32 (time + 180))) ;;;
      read data (offset + 1) ;;;
      call callback (DC_SAMPLE_DEPTH (u32 (depth + (125 + signed_char (uint8 k))))) ;;;
      samples_loop data size callback fuel (offset + 2) (u32 (time + 180))
                   (u32 (depth + (125 + signed_char (uint8 k))))) u)
    /\
    (data offset = x83 ->
     samples_loop data size callback (S fuel) offset time depth u =
     (read data offset ;;; read data offset ;;;
      call callback (DC_SAMPLE_TIME (u32 (time + 180))) ;;;
      read data (offset + 1) ;;;
      call callback (DC_SAMPLE_DEPTH (u32 (depth + (-125 + signed_char (uint8 k))))) ;;;
      samples_loop data size callback fuel (offset + 2) (u32 (time + 180))
                   (u32 (depth + (-125 + signed_char (uint8 k))))) u).
Proof.
  intros U R data size callback fuel offset time depth k u Hlo Hhi Hmax Hk.
  assert (Hlt : (offset <? size) = true) by (apply Z.ltb_lt; lia).
  assert (H1 : u32 (offset + 1) = offset + 1) by (apply u32_small; lia).
  assert (H2 : u32 (offset + 1 + 1) = offset + 2).
  { replace (offset + 1 + 1) with (offset + 2) by lia. apply u32_small. lia. }
  assert (Hgt : (offset + 2 >? size) = false).
  { rewrite Z.gtb_ltb. apply Z.ltb_ge. lia. }
  split; intros Hv.
  - cbn [samples_loop]. unfold loop_condition. rewrite Hlt.
    unfold read, bind, ret, log. rewrite Hv. cbn -[u32 signed_char call samples_loop Z.add].
    rewrite H1, H2, Hgt, Hk, u32_add_l, <- Z.add_assoc.
    reflexivity.
  - cbn [samples_loop]. unfold loop_condition. rewrite Hlt.
    unfold read, bind, ret, log. rewrite Hv. cbn -[u32 signed_char call samples_loop Z.add].
    rewrite H1, H2, Hgt, Hk, u32_add_l, <- Z.add_assoc.
    reflexivity.
Qed.

(** The law at work on the stream 03 7D 02 80 05 behind a three-byte
    header: depth 3, then 3 + 125 + 2. *)
Example overflow_scenario :
  final (suunto_solution_parser_samples_foreach
           (solution_parser [x00; x00; x00; x03; x7d; x02; x80; x05] 8)
           (Some (recorder tt)) [])
  = [DC_SAMPLE_TIME 180; DC_SAMPLE_DEPTH 3; DC_SAMPLE_TIME 360; DC_SAMPLE_DEPTH 130].
Proof. vm_compute. reflexivity. Qed.

Lemma overflow_continuation_delta_witness :
  (0 <= 3 /\ 3 + 1 < 6 /\ 6 <= UINT_MAX
   /\ mem_of_list [x00; x00; x00; x7d; x02; x80] 3 = x7d)
  /\ samples_loop (mem_of_list [x00; x00; x00; x7d; x02; x80]) 6
                  (Some (recorder tt)) 3 3 0 0 []
     = (read (mem_of_list [x00; x00; x00; x7d; x02; x80]) 3 ;;;
        read (mem_of_list [x00; x00; x00; x7d; x02; x80]) 3 ;;;
        call (Some (recorder tt)) (DC_SAMPLE_TIME (u32 (0 + 180))) ;;;
        read (mem_of_list [x00; x00; x00; x7d; x02; x80]) (3 + 1) ;;;
        call (Some (recorder tt))
             (DC_SAMPLE_DEPTH (u32 (0 + (125 + signed_char (uint8 x02))))) ;;;
        samples_loop (mem_of_list [x00; x00; x00; x7d; x02; x80]) 6
                     (Some (recorder tt)) 2 (3 + 2) (u32 (0 + 180))
                     (u32 (0 + (125 + signed_char (uint8 x02))))) [].
Proof.
  split.
  - unfold UINT_MAX. repeat split; try lia.
  - apply (proj1 (overflow_continuation_delta (list sample) unit
                    (mem_of_list [x00; x00; x00; x7d; x02; x80]) 6
                    (Some (recorder tt)) 2 3 0 0 x02 []
                    ltac:(lia) ltac:(lia) ltac:(unfold UINT_MAX; lia) eq_refl)).
    reflexivity.
Defined.

(** C1, as stated, fails: after 7D 02 the depth handed over is 127, not
    124 + 2. *)
Lemma overflow_delta_is_not_124_plus_k :
  final (suunto_solution_parser_samples_foreach
           (solution_parser [x00; x00; x00; x7d; x02; x80] 6)
           (Some (recorder tt)) [])
  = [DC_SAMPLE_TIME 180; DC_SAMPLE_DEPTH 127]
  /\ 127 <> 0 + (124 + signed_char (uint8 x02)).
Proof.
  split.
  - vm_compute. reflexivity.
  - vm_compute. discriminate.
Qed.


(** What the decoder returns and what it logs do not depend on the
    consumer. *)
Lemma samples_loop_independent :
  forall U1 R1 U2 R2 (data : memory) (size : Z)
         (f1 : @dc_sample_callback_t U1 R1) (f2 : @dc_sample_callback_t U2 R2)
         fuel offset time depth (u1 : U1) (u2 : U2),
    result (samples_loop data size (Some f1) fuel offset time depth u1)
    = result (samples_loop data size (Some f2) fuel offset time depth u2)
    /\ trace (samples_loop data size (Some f1) fuel offset time depth u1)
       = trace (samples_loop data size (Some f2) fuel offset time depth u2).
Proof.
  intros U1 R1 U2 R2 data size f1 f2 fuel.
  induction fuel as [|fuel IH]; intros offset time depth u1 u2.
  - split; reflexivity.
  - cbn [samples_loop]. unfold loop_condition.
    destruct (offset <? size);
      unfold read, call, bind, ret, log, get, put; cbn [fst snd app];
      repeat match goal with
             | |- context [if ?c then _ else _] => destruct c
             end;
      try (split; reflexivity);
      match goal with
      | |- context [samples_loop data size (Some f1) fuel ?o ?t ?d ?ua] =>
        match goal with
        | |- context [samples_loop data size (Some f2) fuel o t d ?ub] =>
          destruct (IH o t d ua ub) as [IHr IHt];
          destruct (samples_loop data size (Some f1) fuel o t d ua) as [[r1 w1] t1];
          destruct (samples_loop data size (Some f2) fuel o t d ub) as [[r2 w2] t2];
          cbn in *; subst; split; reflexivity
        end
      end.
Qed.

Lemma samples_foreach_independent :
  forall U1 R1 U2 R2 (abstract : option dc_parser_t)
         (f1 : @dc_sample_callback_t U1 R1) (f2 : @dc_sample_callback_t U2 R2)
         (u1 : U1) (u2 : U2),
    result (suunto_solution_parser_samples_foreach abstract (Some f1) u1)
    = result (suunto_solution_parser_samples_foreach abstract (Some f2) u2)
    /\ trace (suunto_solution_parser_samples_foreach abstract (Some f1) u1)
       = trace (suunto_solution_parser_samples_foreach abstract (Some f2) u2).
Proof.
  intros U1 R1 U2 R2 abstract f1 f2 u1 u2.
  unfold suunto_solution_parser_samples_foreach.
  destruct abstract as [p|]; [|split; reflexivity].
  destruct (negb (parser_is_suunto_solution (Some p))); [split; reflexivity|].
  destruct (size p <? 4); [split; reflexivity|].
  apply samples_loop_independent.
Qed.

(** C3 fails on the code: with four bytes 00 00 00 01 the loop ends at
    offset = size = 4 and the check of the end marker evaluates data[4]. *)
Theorem end_marker_check_reads_data_size :
  trace (suunto_solution_parser_samples_foreach
           (solution_parser [x00; x00; x00; x01] 4) (Some (recorder tt)) [])
  = [Read 3; Read 3; Callback (DC_SAMPLE_TIME 180); Callback (DC_SAMPLE_DEPTH 1); Read 4]
  /\ reads_within 4
       (trace (suunto_solution_parser_samples_foreach
                 (solution_parser [x00; x00; x00; x01] 4) (Some (recorder tt)) []))
     = false.
Proof.
  split; vm_compute; reflexivity.
Qed.

(** C5 fails on the code: the four-byte stream 00 00 00 01 holds no end
    marker, and the decoder accepts it when the byte behind the buffer is
    0x80 and rejects it when that byte is 0x00. *)
Theorem verdict_depends_on_byte_behind_buffer :
  has_end_marker (mem_of_list [x00; x00; x00; x01; x80]) 4 = false
  /\ result (suunto_solution_parser_samples_foreach
               (solution_parser [x00; x00; x00; x01; x80] 4) (Some (recorder tt)) [])
     = Returned DC_STATUS_SUCCESS
  /\ result (suunto_solution_parser_samples_foreach
               (solution_parser [x00; x00; x00; x01; x00] 4) (Some (recorder tt)) [])
     = Returned DC_STATUS_DATAFORMAT.
Proof.
  repeat split; vm_compute; reflexivity.
Qed.

(** The second half of C5 holds: an end marker at the first decodable
    position gives success, no sample and two reads of data[3]. *)
Lemma end_marker_at_first_position :
  forall (U R : Type) (p : dc_parser_t) (callback : option (@dc_sample_callback_t U R)) (u : U),
    backend p = DC_FAMILY_SUUNTO_SOLUTION ->
    4 <= size p ->
    data p 3 = x80 ->
    suunto_solution_parser_samples_foreach (Some p) callback u
    = (Returned DC_STATUS_SUCCESS, u, [Read 3; Read 3]).
Proof.
  intros U R p callback u Hb Hs Hd.
  unfold suunto_solution_parser_samples_foreach, parser_is_suunto_solution.
  rewrite Hb. cbn [dc_family_eqb negb].
  destruct (size p <? 4) eqn:E; [apply Z.ltb_lt in E; lia|].
  cbn [samples_loop]. unfold loop_condition.
  destruct (3 <? size p) eqn:E3; [|apply Z.ltb_ge in E3; lia].
  unfold read, bind, ret, log. rewrite Hd. reflexivity.
Qed.

(** With enough iterations the loop returns, and it returns success only
    when the last byte it has read, at an index from [offset] up to and
    including [size], is 0x80. *)
Lemma samples_loop_verdict :
  forall (U R : Type) (data : memory) (size : Z)
         (callback : option (@dc_sample_callback_t U R))
         fuel offset time depth (u : U),
    0 <= offset <= size -> size < UINT_MAX ->
    (Z.to_nat (size - offset) < fuel)%nat ->
    result (samples_loop data size callback fuel offset time depth u)
    = Returned DC_STATUS_DATAFORMAT
    \/ (result (samples_loop data size callback fuel offset time depth u)
        = Returned DC_STATUS_SUCCESS
        /\ exists i, offset <= i <= size /\ uint8 (data i) = 0x80).
Proof.
  intros U R data size callback fuel.
  induction fuel as [|fuel IH]; intros offset time depth u Ho Hs Hf; [lia|].
  cbn [samples_loop]. unfold loop_condition.
  destruct (offset <? size) eqn:Elt.
  - apply Z.ltb_lt in Elt.
    assert (E1 : u32 (offset + 1) = offset + 1)
      by (apply u32_small; unfold UINT_MAX in *; lia).
    assert (E2 : u32 (offset + 1 + 1) = offset + 2).
    { replace (offset + 1 + 1) with (offset + 2) by lia.
      apply u32_small. unfold UINT_MAX in *. lia. }
    unfold read, bind, ret, log. cbn [fst snd app].
    rewrite E1.
    destruct (uint8 (data offset) =? 128) eqn:Eend; cbn [negb].
    + cbn. right. split; [reflexivity|].
      exists offset. apply Z.eqb_eq in Eend. split; [lia | exact Eend].
    + assert (Hnext : forall o' t' d' u',
                 offset < o' <= size ->
                 result (samples_loop data size callback fuel o' t' d' u')
                 = Returned DC_STATUS_DATAFORMAT
                 \/ (result (samples_loop data size callback fuel o' t' d' u')
                     = Returned DC_STATUS_SUCCESS
                     /\ exists i, offset <= i <= size /\ uint8 (data i) = 0x80)).
      { intros o' t' d' u' Ho'.
        destruct (IH o' t' d' u' ltac:(lia) Hs ltac:(lia)) as [Hd | [Hr [i [Hi Hv]]]].
        - left. exact Hd.
        - right. split; [exact Hr|]. exists i. split; [lia | exact Hv]. }
      destruct ((uint8 (data offset) <? 126) || (uint8 (data offset) >? 130)).
      * destruct ((uint8 (data offset) =? 125) || (uint8 (data offset) =? 131)).
        -- rewrite E2.
           destruct (offset + 2 >? size) eqn:Egt.
           ++ destruct (call callback (DC_SAMPLE_TIME (u32 (time + 3 * 60))) u)
                as [[x u1] t1].
              cbn. left. reflexivity.
           ++ rewrite Z.gtb_ltb in Egt. apply Z.ltb_ge in Egt.
              destruct (call callback (DC_SAMPLE_TIME (u32 (time + 3 * 60))) u)
                as [[x u1] t1].
              cbn [fst snd app].
              match goal with
              | |- context [call callback ?s u1] =>
                destruct (call callback s u1) as [[y u2] t2]
              end.
              match goal with
              | |- context [samples_loop data size callback fuel ?o ?t ?d u2] =>
                specialize (Hnext o t d u2 ltac:(lia));
                destruct (samples_loop data size callback fuel o t d u2) as [[r w] tr]
              end.
              cbn in *. exact Hnext.
        -- destruct (call callback (DC_SAMPLE_TIME (u32 (time + 3 * 60))) u)
             as [[x u1] t1].
           cbn [fst snd app].
           match goal with
           | |- context [call callback ?s u1] =>
             destruct (call callback s u1) as [[y u2] t2]
           end.
           match goal with
           | |- context [samples_loop data size callback fuel ?o ?t ?d u2] =>
             specialize (Hnext o t d u2 ltac:(lia));
             destruct (samples_loop data size callback fuel o t d u2) as [[r w] tr]
           end.
           cbn in *. exact Hnext.
      * match goal with
        | |- context [call callback ?s u] =>
          destruct (call callback s u) as [[y u2] t2]
        end.
        match goal with
        | |- context [samples_loop data size callback fuel ?o ?t ?d u2] =>
          specialize (Hnext o t d u2 ltac:(lia));
          destruct (samples_loop data size callback fuel o t d u2) as [[r w] tr]
        end.
        cbn in *. exact Hnext.
  - apply Z.ltb_ge in Elt. assert (offset = size) by lia. subst offset.
    unfold read, bind, ret, log. cbn [fst snd app].
    destruct (uint8 (data size) =? 128) eqn:Eend; cbn.
    + right. split; [reflexivity|]. exists size. apply Z.eqb_eq in Eend.
      split; [lia | exact Eend].
    + left. reflexivity.
Qed.

(** A stream without end marker is rejected exactly when the byte behind
    the buffer is not 0x80 either. *)
Lemma missing_end_marker_verdict :
  forall (U R : Type) (p : dc_parser_t) (callback : option (@dc_sample_callback_t U R)) (u : U),
    backend p = DC_FAMILY_SUUNTO_SOLUTION ->
    0 <= size p < UINT_MAX ->
    (forall i, 3 <= i < size p -> uint8 (data p i) <> 0x80) ->
    result (suunto_solution_parser_samples_foreach (Some p) callback u)
    = Returned DC_STATUS_DATAFORMAT
    \/ (result (suunto_solution_parser_samples_foreach (Some p) callback u)
        = Returned DC_STATUS_SUCCESS
        /\ uint8 (data p (size p)) = 0x80).
Proof.
  intros U R p callback u Hb Hs Hno.
  unfold suunto_solution_parser_samples_foreach, parser_is_suunto_solution.
  rewrite Hb. cbn [dc_family_eqb negb].
  destruct (size p <? 4) eqn:E4; [left; reflexivity|].
  apply Z.ltb_ge in E4.
  destruct (samples_loop_verdict U R (data p) (size p) callback
              (S (Z.to_nat (size p))) 3 0 0 u ltac:(lia) ltac:(lia) ltac:(lia))
    as [Hd | [Hr [i [Hi Hv]]]].
  - left. exact Hd.
  - right. split; [exact Hr|].
    destruct (Z.eq_dec i (size p)) as [-> | Hne]; [exact Hv|].
    exfalso. apply (Hno i); [lia | exact Hv].
Qed.

(** *** The sibling scan of [suunto_solution_parser_get_field] *)

Lemma reads_within_cons :
  forall size i t,
    0 <= i < size -> reads_within size t = true ->
    reads_within size (Read i :: t) = true.
Proof.
  intros size i t Hi Ht. unfold reads_within in *. cbn [forallb]. rewrite Ht.
  destruct (0 <=? i) eqn:E0; [|apply Z.leb_gt in E0; lia].
  destruct (i <? size) eqn:E1; [reflexivity|apply Z.ltb_ge in E1; lia].
Qed.

(** The loop of [get_field] reads below [size] only and stops at an
    offset up to [size]. *)
Lemma field_loop_safe :
  forall (data : memory) (size : Z) fuel offset nsamples depth maxdepth st,
    0 <= offset <= size -> size < UINT_MAX ->
    reads_within size
      (trace (field_loop data size fuel offset nsamples depth maxdepth st)) = true
    /\ (forall o n m,
          result (field_loop data size fuel offset nsamples depth maxdepth st)
          = Stopped o n m ->
          0 <= o <= size).
Proof.
  intros data size fuel.
  induction fuel as [|fuel IH]; intros offset nsamples depth maxdepth st Ho Hs.
  - cbn. split; [reflexivity | discriminate].
  - cbn [field_loop]. unfold loop_condition.
    destruct (offset <? size) eqn:Elt.
    + apply Z.ltb_lt in Elt.
      assert (E1 : u32 (offset + 1) = offset + 1)
        by (apply u32_small; unfold UINT_MAX in *; lia).
      assert (E2 : u32 (offset + 1 + 1) = offset + 2).
      { replace (offset + 1 + 1) with (offset + 2) by lia.
        apply u32_small. unfold UINT_MAX in *. lia. }
      unfold read, bind, ret, log. cbn [fst snd app].
      rewrite E1.
      destruct (negb (uint8 (data offset) =? 128)).
      * destruct ((uint8 (data offset) <? 126) || (uint8 (data offset) >? 130)).
        -- destruct ((uint8 (data offset) =? 125) || (uint8 (data offset) =? 131)).
           ++ rewrite E2.
              destruct (offset + 2 >? size) eqn:Egt.
              ** cbn [fst snd app result trace].
                 split; [|discriminate].
                 repeat (apply reads_within_cons; [lia|]). reflexivity.
              ** rewrite Z.gtb_ltb in Egt. apply Z.ltb_ge in Egt.
                 cbn [fst snd app].
                 match goal with
                 | |- context [field_loop data size fuel ?o ?n ?d ?m st] =>
                   destruct (IH o n d m st ltac:(lia) Hs) as [IHr IHs];
                   destruct (field_loop data size fuel o n d m st) as [[r w] t]
                 end.
                 cbn [fst snd app result trace] in *.
                 split.
                 --- repeat (apply reads_within_cons; [lia|]). exact IHr.
                 --- intros o n m E. specialize (IHs o n m E). lia.
           ++ cbn [fst snd app].
              match goal with
              | |- context [field_loop data size fuel ?o ?n ?d ?m st] =>
                destruct (IH o n d m st ltac:(lia) Hs) as [IHr IHs];
                destruct (field_loop data size fuel o n d m st) as [[r w] t]
              end.
              cbn [fst snd app result trace] in *.
              split.
              ** repeat (apply reads_within_cons; [lia|]). exact IHr.
              ** intros o n m E. specialize (IHs o n m E). lia.
        -- match goal with
           | |- context [field_loop data size fuel ?o ?n ?d ?m st] =>
             destruct (IH o n d m st ltac:(lia) Hs) as [IHr IHs];
             destruct (field_loop data size fuel o n d m st) as [[r w] t]
           end.
           cbn [fst snd app result trace] in *.
           split.
           ++ repeat (apply reads_within_cons; [lia|]). exact IHr.
           ++ intros o n m E. specialize (IHs o n m E). lia.
      * cbn [fst snd app result trace]. split.
        -- repeat (apply reads_within_cons; [lia|]). reflexivity.
        -- intros o n m E. injection E as <- _ _. lia.
    + cbn. split; [reflexivity|].
      intros o n m E. injection E as <- _ _. lia.
Qed.

(** The loop of [get_field] accumulates the depth by the same rule as the
    sample decoder: 7D k adds 125 + k, 83 k adds -125 + k. *)
Lemma field_overflow_delta :
  forall (data : memory) (size : Z) fuel offset nsamples depth maxdepth (k : byte) st,
    0 <= offset -> offset + 1 < size -> size <= UINT_MAX ->
    data (offset + 1) = k ->
    forall base, (base = 125 /\ data offset = x7d) \/ (base = -125 /\ data offset = x83) ->
    field_loop data size (S fuel) offset nsamples depth maxdepth st =
    (read data offset ;;; read data offset ;;; read data (offset + 1) ;;;
     field_loop data size fuel (offset + 2) (u32 (nsamples + 1))
                (u32 (depth + (base + signed_char (uint8 k))))
                (if u32 (depth + (base + signed_char (uint8 k))) >? maxdepth
                 then u32 (depth + (base + signed_char (uint8 k)))
                 else maxdepth)) st.
Proof.
  intros data size fuel offset nsamples depth maxdepth k st Hlo Hhi Hmax Hk base Hv.
  assert (Hlt : (offset <? size) = true) by (apply Z.ltb_lt; lia).
  assert (H1 : u32 (offset + 1) = offset + 1) by (apply u32_small; lia).
  assert (H2 : u32 (offset + 1 + 1) = offset + 2).
  { replace (offset + 1 + 1) with (offset + 2) by lia. apply u32_small. lia. }
  assert (Hgt : (offset + 2 >? size) = false).
  { rewrite Z.gtb_ltb. apply Z.ltb_ge. lia. }
  cbn [field_loop]. unfold loop_condition. rewrite Hlt.
  unfold read, bind, ret, log.
  destruct Hv as [[-> Hv] | [-> Hv]]; rewrite Hv;
    cbn -[u32 signed_char field_loop Z.add];
    rewrite H1, H2, Hgt, Hk, u32_add_l, <- Z.add_assoc;
    reflexivity.
Qed.

(** Unlike the sample decoder, [get_field] tests the end marker behind a
    bounds check and reads no byte at or behind [size]. *)
Lemma get_field_reads_within_size :
  forall (data : memory) (size : Z) type value st,
    0 <= size < UINT_MAX ->
    reads_within size
      (trace (suunto_solution_parser_get_field data size type value st)) = true.
Proof.
  intros data size type value st Hs.
  unfold suunto_solution_parser_get_field.
  destruct (size <? 4) eqn:E4; [reflexivity|].
  apply Z.ltb_ge in E4.
  unfold bind, get. cbn [fst snd app].
  destruct (cached st =? 0).
  - destruct (field_loop_safe data size (S (Z.to_nat size)) 3 0 0 0 st
                ltac:(lia) ltac:(lia)) as [Hr Hstop].
    destruct (field_loop data size (S (Z.to_nat size)) 3 0 0 0 st) as [[r w] t].
    cbn [fst snd result trace] in *.
    destruct r as [|o n m|].
    + cbn. rewrite !app_nil_r. exact Hr.
    + specialize (Hstop o n m eq_refl).
      assert (E1 : u32 (o + 1) = o + 1)
        by (apply u32_small; unfold UINT_MAX in *; lia).
      rewrite !E1.
      destruct (o + 1 >=? size) eqn:Ege.
      * cbn. rewrite !app_nil_r. exact Hr.
      * rewrite Z.geb_leb in Ege. apply Z.leb_gt in Ege.
        unfold read, bind, log, ret, put. cbn [fst snd app].
        destruct (negb (uint8 (data o) =? 128)).
        -- cbn [fst snd app trace]. unfold reads_within in *.
           rewrite !forallb_app, Hr. cbn [forallb andb].
           destruct (0 <=? o) eqn:A; [|apply Z.leb_gt in A; lia].
           destruct (o <? size) eqn:B; [reflexivity|apply Z.ltb_ge in B; lia].
        -- cbn [fst snd app].
           destruct value; destruct type; cbn [fst snd app trace];
             unfold reads_within in *; rewrite !forallb_app, Hr; cbn [forallb andb];
             (destruct (0 <=? o) eqn:A; [|apply Z.leb_gt in A; lia]);
             (destruct (o <? size) eqn:B; [|apply Z.ltb_ge in B; lia]);
             (destruct (0 <=? o + 1) eqn:C; [|apply Z.leb_gt in C; lia]);
             (destruct (o + 1 <? size) eqn:D; [reflexivity|apply Z.ltb_ge in D; lia]).
    + cbn. rewrite !app_nil_r. exact Hr.
  - cbn [fst snd app].
    destruct value; destruct type; reflexivity.
Qed.

(** On the input on which the sample decoder reads data[4], [get_field]
    reads data[3] only and rejects the stream. *)
Example get_field_checks_bounds :
  suunto_solution_parser_get_field (mem_of_list [x00; x00; x00; x01]) 4
    DC_FIELD_DIVETIME true fresh_parser
  = (Returned DC_STATUS_DATAFORMAT, None, fresh_parser, [Read 3; Read 3]).
Proof. vm_compute. reflexivity. Qed.

(** The scenario of the spec: two samples, trailing byte 5, maximum depth
    3 + 125 + 2. *)
Example get_field_scenario :
  final (suunto_solution_parser_get_field
           (mem_of_list [x00; x00; x00; x03; x7d; x02; x80; x05]) 8
           DC_FIELD_DIVETIME true fresh_parser)
  = {| cached := 1; divetime := (2 * 3 + 5) * 60; maxdepth := 130 |}.
Proof. vm_compute. reflexivity. Qed.

(** *** Further properties of the decoder and of [get_field] *)

Lemma u32_idem : forall a, u32 (u32 a) = u32 a.
Proof.
  intros a. unfold u32. apply Z.mod_mod. lia.
Qed.

Lemma u32_add_r : forall a b, u32 (a + u32 b) = u32 (a + b).
Proof.
  intros a b. unfold u32. apply Zplus_mod_idemp_r.
Qed.

Lemma u32_mul_l : forall a b, u32 (u32 a * b) = u32 (a * b).
Proof.
  intros a b. unfold u32. apply Zmult_mod_idemp_l.
Qed.

(** The two loops run in lockstep: where the loop of [get_field] stops,
    the decoder makes its final check, and the count and the maximum of
    the one are those of the depth samples of the other. *)
Lemma loops_in_lockstep :
  forall (U R : Type) (data : memory) (size : Z) (f : @dc_sample_callback_t U R)
         fuel offset time depth nsamples maxdepth st (u : U),
    u32 nsamples = nsamples ->
    match result (field_loop data size fuel offset nsamples depth maxdepth st) with
    | Stopped o n m =>
      result (samples_loop data size (Some f) fuel offset time depth u)
      = Returned (if uint8 (data o) =? 0x80 then DC_STATUS_SUCCESS
                  else DC_STATUS_DATAFORMAT)
      /\ n = u32 (nsamples
                  + Z.of_nat (length (depths (delivered
                      (trace (samples_loop data size (Some f) fuel offset time depth u))))))
      /\ m = max_depth maxdepth
               (depths (delivered
                  (trace (samples_loop data size (Some f) fuel offset time depth u))))
    | Truncated =>
      result (samples_loop data size (Some f) fuel offset time depth u)
      = Returned DC_STATUS_DATAFORMAT
    | Exhausted =>
      result (samples_loop data size (Some f) fuel offset time depth u) = Unfinished
    end.
Proof.
  intros U R data size f fuel.
  induction fuel as [|fuel IH]; intros offset time depth nsamples maxdepth st u Hn.
  - reflexivity.
  - cbn [field_loop samples_loop]. unfold loop_condition.
    destruct (offset <? size).
    + unfold read, call, bind, ret, log, get, put. cbn [fst snd app].
      destruct (uint8 (data offset) =? 128) eqn:Eend; cbn [negb].
      * cbn. rewrite Eend, Z.add_0_r. auto.
      * destruct ((uint8 (data offset) <? 126) || (uint8 (data offset) >? 130)).
        -- destruct ((uint8 (data offset) =? 125) || (uint8 (data offset) =? 131)).
           ++ destruct (u32 (u32 (offset + 1) + 1) >? size).
              ** reflexivity.
              ** cbn [fst snd app].
                 match goal with
                 | |- context [field_loop data size fuel ?o ?n ?d ?m st] =>
                   match goal with
                   | |- context [samples_loop data size (Some f) fuel o ?t d ?u'] =>
                     specialize (IH o t d n m st u' (u32_idem _));
                     destruct (field_loop data size fuel o n d m st) as [[rf wf] tf];
                     destruct (samples_loop data size (Some f) fuel o t d u') as [[rs ws] ts]
                   end
                 end.
                 cbn [fst snd result trace delivered depths length app] in *.
                 destruct rf as [|o' n' m'|]; try exact IH.
                 destruct IH as (Hr & Hc & Hm).
                 split; [exact Hr|]. split.
                 --- rewrite Hc, u32_add_l. f_equal. lia.
                 --- rewrite Hm. reflexivity.
           ++ cbn [fst snd app].
              match goal with
              | |- context [field_loop data size fuel ?o ?n ?d ?m st] =>
                match goal with
                | |- context [samples_loop data size (Some f) fuel o ?t d ?u'] =>
                  specialize (IH o t d n m st u' (u32_idem _));
                  destruct (field_loop data size fuel o n d m st) as [[rf wf] tf];
                  destruct (samples_loop data size (Some f) fuel o t d u') as [[rs ws] ts]
                end
              end.
              cbn [fst snd result trace delivered depths length app] in *.
              destruct rf as [|o' n' m'|]; try exact IH.
              destruct IH as (Hr & Hc & Hm).
              split; [exact Hr|]. split.
              ** rewrite Hc, u32_add_l. f_equal. lia.
              ** rewrite Hm. reflexivity.
        -- match goal with
           | |- context [field_loop data size fuel ?o ?n ?d ?m st] =>
             match goal with
             | |- context [samples_loop data size (Some f) fuel o ?t d ?u'] =>
               specialize (IH o t d n m st u' Hn);
               destruct (field_loop data size fuel o n d m st) as [[rf wf] tf];
               destruct (samples_loop data size (Some f) fuel o t d u') as [[rs ws] ts]
             end
           end.
           cbn [fst snd result trace delivered depths length app] in *.
           exact IH.
    + unfold read, bind, ret, log. cbn.
      destruct (uint8 (data offset) =? 128); cbn; rewrite Z.add_0_r; auto.
Qed.

Lemma field_loop_state :
  forall (data : memory) (size : Z) fuel offset nsamples depth maxdepth st,
    final (field_loop data size fuel offset nsamples depth maxdepth st) = st.
Proof.
  intros data size fuel.
  induction fuel as [|fuel IH]; intros offset nsamples depth maxdepth st; [reflexivity|].
  cbn [field_loop]. unfold loop_condition.
  destruct (offset <? size); [|reflexivity].
  unfold read, bind, ret, log. cbn [fst snd app].
  repeat match goal with
         | |- context [if ?c then _ else _] => destruct c
         end;
    try reflexivity;
    match goal with
    | |- context [field_loop data size fuel ?o ?n ?d ?m st] =>
      specialize (IH o n d m st);
      destruct (field_loop data size fuel o n d m st) as [[r w] t]
    end;
    cbn in *; exact IH.
Qed.

(** What a [get_field] that fills the cache has found. *)
Lemma get_field_computes :
  forall (data : memory) (size : Z) type value,
    cached (final (suunto_solution_parser_get_field data size type value fresh_parser))
    = 1 ->
    exists o n m tf,
      field_loop data size (S (Z.to_nat size)) 3 0 0 0 fresh_parser
      = (Stopped o n m, fresh_parser, tf)
      /\ uint8 (data o) = 0x80
      /\ final (suunto_solution_parser_get_field data size type value fresh_parser)
         = {| cached := 1;
              divetime := u32 (u32 (u32 (n * 3) + uint8 (data (u32 (o + 1)))) * 60);
              maxdepth := m |}.
Proof.
  intros data size type value.
  unfold suunto_solution_parser_get_field.
  destruct (size <? 4); [cbn; discriminate|].
  unfold bind, get. cbn [cached fresh_parser Z.eqb fst snd app].
  pose proof (field_loop_state data size (S (Z.to_nat size)) 3 0 0 0 fresh_parser) as Hst.
  destruct (field_loop data size (S (Z.to_nat size)) 3 0 0 0 fresh_parser)
    as [[rf wf] tf].
  cbn [final fst snd] in Hst. subst wf.
  destruct rf as [|o n m|].
  - cbn. discriminate.
  - unfold read, bind, ret, log, put.
    destruct (u32 (o + 1) >=? size); [cbn; discriminate|].
    cbn [fst snd app].
    destruct (uint8 (data o) =? 128) eqn:Eend; cbn [negb]; [|cbn; discriminate].
    intros _. exists o, n, m, tf.
    split; [reflexivity|]. split; [apply Z.eqb_eq; exact Eend|].
    destruct value; [destruct type|]; reflexivity.
  - cbn. discriminate.
Qed.

(** Where the loop of [get_field] stops, the decoder makes its last
    read. *)
Lemma loops_stop_together :
  forall (U R : Type) (data : memory) (size : Z) (f : @dc_sample_callback_t U R)
         fuel offset time depth nsamples maxdepth st (u : U),
    match result (field_loop data size fuel offset nsamples depth maxdepth st) with
    | Stopped o _ _ =>
      exists t, trace (samples_loop data size (Some f) fuel offset time depth u)
                = t ++ [Read o]
    | _ => True
    end.
Proof.
  intros U R data size f fuel.
  induction fuel as [|fuel IH]; intros offset time depth nsamples maxdepth st u.
  - exact I.
  - cbn [field_loop samples_loop]. unfold loop_condition.
    destruct (offset <? size).
    + unfold read, call, bind, ret, log, get, put. cbn [fst snd app].
      destruct (uint8 (data offset) =? 128) eqn:Eend; cbn [negb].
      * cbn. exists [Read offset]. reflexivity.
      * destruct ((uint8 (data offset) <? 126) || (uint8 (data offset) >? 130)).
        -- destruct ((uint8 (data offset) =? 125) || (uint8 (data offset) =? 131)).
           ++ destruct (u32 (u32 (offset + 1) + 1) >? size).
              ** exact I.
              ** cbn [fst snd app].
                 match goal with
                 | |- context [field_loop data size fuel ?o ?n ?d ?m st] =>
                   match goal with
                   | |- context [samples_loop data size (Some f) fuel o ?t d ?u'] =>
                     specialize (IH o t d n m st u');
                     destruct (field_loop data size fuel o n d m st) as [[rf wf] tf];
                     destruct (samples_loop data size (Some f) fuel o t d u') as [[rs ws] ts]
                   end
                 end.
                 cbn [fst snd result trace app] in *.
                 destruct rf as [|o' n' m'|]; try exact I.
                 destruct IH as [t Et]. rewrite Et.
                 eexists (_ :: _ :: _ :: _ :: _ :: t). reflexivity.
           ++ cbn [fst snd app].
              match goal with
              | |- context [field_loop data size fuel ?o ?n ?d ?m st] =>
                match goal with
                | |- context [samples_loop data size (Some f) fuel o ?t d ?u'] =>
                  specialize (IH o t d n m st u');
                  destruct (field_loop data size fuel o n d m st) as [[rf wf] tf];
                  destruct (samples_loop data size (Some f) fuel o t d u') as [[rs ws] ts]
                end
              end.
              cbn [fst snd result trace app] in *.
              destruct rf as [|o' n' m'|]; try exact I.
              destruct IH as [t Et]. rewrite Et.
              eexists (_ :: _ :: _ :: _ :: t). reflexivity.
        -- match goal with
           | |- context [field_loop data size fuel ?o ?n ?d ?m st] =>
             match goal with
             | |- context [samples_loop data size (Some f) fuel o ?t d ?u'] =>
               specialize (IH o t d n m st u');
               destruct (field_loop data size fuel o n d m st) as [[rf wf] tf];
               destruct (samples_loop data size (Some f) fuel o t d u') as [[rs ws] ts]
             end
           end.
           cbn [fst snd result trace app] in *.
           destruct rf as [|o' n' m'|]; try exact I.
           destruct IH as [t Et]. rewrite Et.
           eexists (_ :: _ :: _ :: t). reflexivity.
    + unfold read, bind, ret, log. cbn.
      exists []. destruct (uint8 (data offset) =? 128); reflexivity.
Qed.

(** X2: whenever [get_field] fills its cache on a buffer, the sample
    decoder succeeds on the same buffer, the cached maximum depth is the
    largest depth handed to the sample consumer (0 if none), and the cached
    dive time is (number of depth samples * 3 + the byte behind the end
    marker) * 60, as an unsigned int; the end marker is the byte 0x80 at
    which the sample decoder stops, the one it reads last. *)
Theorem get_field_agrees_with_samples :
  forall (U R : Type) (data : memory) (size : Z) (f : @dc_sample_callback_t U R)
         type value (u : U),
    cached (final (suunto_solution_parser_get_field data size type value fresh_parser))
    = 1 ->
    result (suunto_solution_parser_samples_foreach
              (Some {| backend := DC_FAMILY_SUUNTO_SOLUTION; data := data; size := size |})
              (Some f) u)
    = Returned DC_STATUS_SUCCESS
    /\ maxdepth (final (suunto_solution_parser_get_field data size type value fresh_parser))
       = max_depth 0
           (depths (delivered (trace (suunto_solution_parser_samples_foreach
              (Some {| backend := DC_FAMILY_SUUNTO_SOLUTION; data := data; size := size |})
              (Some f) u))))
    /\ exists marker t,
         trace (suunto_solution_parser_samples_foreach
                  (Some {| backend := DC_FAMILY_SUUNTO_SOLUTION; data := data; size := size |})
                  (Some f) u)
         = t ++ [Read marker]
         /\ uint8 (data marker) = 0x80
         /\ divetime (final (suunto_solution_parser_get_field data size type value
                               fresh_parser))
            = u32 ((Z.of_nat (length (depths (delivered
                      (trace (suunto_solution_parser_samples_foreach
                         (Some {| backend := DC_FAMILY_SUUNTO_SOLUTION;
                                  data := data; size := size |})
                         (Some f) u)))))
                    * 3 + uint8 (data (u32 (marker + 1)))) * 60).
Proof.
  intros U R data size f type value u Hc.
  destruct (get_field_computes data size type value Hc)
    as (o & n & m & tf & Ef & Eend & Hfin).
  rewrite Hfin. cbn [maxdepth divetime].
  unfold suunto_solution_parser_samples_foreach.
  cbn [parser_is_suunto_solution SuuntoSolution.backend dc_family_eqb negb
       SuuntoSolution.size SuuntoSolution.data].
  destruct (size <? 4) eqn:E4.
  { unfold suunto_solution_parser_get_field in Hc. rewrite E4 in Hc. discriminate Hc. }
  pose proof (loops_in_lockstep U R data size f (S (Z.to_nat size)) 3 0 0 0 0
                fresh_parser u eq_refl) as H.
  pose proof (loops_stop_together U R data size f (S (Z.to_nat size)) 3 0 0 0 0
                fresh_parser u) as Hstop.
  rewrite Ef in H, Hstop. cbn [result fst snd] in H, Hstop.
  apply Z.eqb_eq in Eend. rewrite Eend in H. apply Z.eqb_eq in Eend.
  destruct H as (Hr & Hn & Hm).
  destruct Hstop as [t Et].
  split; [exact Hr|]. split; [exact Hm|].
  exists o, t. split; [exact Et|]. split; [exact Eend|].
  rewrite Hn, Z.add_0_l.
  set (c := Z.of_nat (length (depths (delivered
              (trace (samples_loop data size (Some f) (S (Z.to_nat size)) 3 0 0 u)))))).
  set (tb := uint8 (data (u32 (o + 1)))).
  rewrite (u32_mul_l c 3), (u32_add_l (c * 3) tb), (u32_mul_l (c * 3 + tb) 60).
  reflexivity.
Qed.

Lemma get_field_agrees_with_samples_witness :
  cached (final (suunto_solution_parser_get_field
                   (mem_of_list [x00; x00; x00; x03; x7d; x02; x80; x05]) 8
                   DC_FIELD_DIVETIME true fresh_parser)) = 1
  /\ result (suunto_solution_parser_samples_foreach
               (solution_parser [x00; x00; x00; x03; x7d; x02; x80; x05] 8)
               (Some (recorder tt)) [])
     = Returned DC_STATUS_SUCCESS.
Proof.
  split; [reflexivity|].
  exact (proj1 (get_field_agrees_with_samples (list sample) unit
                  (mem_of_list [x00; x00; x00; x03; x7d; x02; x80; x05]) 8
                  (recorder tt) DC_FIELD_DIVETIME true [] eq_refl)).
Defined.

(** On the stream 7D 80 09 80 05 the byte 0x80 at index 4 is the second
    byte of an overflow, the end marker is the one at index 6, and the dive
    time is (2 * 3 + 5) * 60. *)
Example end_marker_after_overflow :
  divetime (final (suunto_solution_parser_get_field
                     (mem_of_list [x00; x00; x00; x7d; x80; x09; x80; x05]) 8
                     DC_FIELD_DIVETIME true fresh_parser))
  = 660
  /\ last (trace (suunto_solution_parser_samples_foreach
                    (solution_parser [x00; x00; x00; x7d; x80; x09; x80; x05] 8)
                    (Some (recorder tt)) []))
          (Read 0)
     = Read 6.
Proof.
  split; vm_compute; reflexivity.
Qed.

Lemma samples_loop_paired :
  forall (U R : Type) (data : memory) (size : Z) (f : @dc_sample_callback_t U R)
         fuel offset time depth (u : U),
    paired true time
      (delivered (trace (samples_loop data size (Some f) fuel offset time depth u)))
    = true
    /\ (result (samples_loop data size (Some f) fuel offset time depth u)
        = Returned DC_STATUS_SUCCESS ->
        paired false time
          (delivered (trace (samples_loop data size (Some f) fuel offset time depth u)))
        = true).
Proof.
  intros U R data size f fuel.
  induction fuel as [|fuel IH]; intros offset time depth u.
  - split; reflexivity.
  - cbn [samples_loop]. unfold loop_condition.
    destruct (offset <? size);
      unfold read, call, bind, ret, log, get, put; cbn [fst snd app];
      repeat match goal with
             | |- context [if ?c then _ else _] => destruct c
             end;
      try match goal with
          | |- context [samples_loop data size (Some f) fuel ?o ?t ?d ?u'] =>
            destruct (IH o t d u') as [IH1 IH2];
            destruct (samples_loop data size (Some f) fuel o t d u') as [[r w] tr]
          end;
      cbn [fst snd result trace delivered paired app] in *;
      change (3 * 60) with 180;
      rewrite ?Z.eqb_refl; cbn [andb];
      (split; [first [assumption | reflexivity]
              | first [assumption | reflexivity | discriminate]]).
Qed.

(** X3: the samples handed to a consumer are events and pairs of a time
    sample followed by a depth sample, the times being 180, 360, ... (as
    unsigned ints); only a run that does not return success may end with a
    time sample that has no depth sample. *)
Theorem samples_come_in_pairs :
  forall (U R : Type) (abstract : option dc_parser_t) (f : @dc_sample_callback_t U R)
         (u : U),
    paired true 0
      (delivered (trace (suunto_solution_parser_samples_foreach abstract (Some f) u)))
    = true
    /\ (result (suunto_solution_parser_samples_foreach abstract (Some f) u)
        = Returned DC_STATUS_SUCCESS ->
        paired false 0
          (delivered (trace (suunto_solution_parser_samples_foreach abstract (Some f) u)))
        = true).
Proof.
  intros U R abstract f u.
  unfold suunto_solution_parser_samples_foreach.
  destruct abstract as [p|]; [|split; reflexivity].
  destruct (negb (parser_is_suunto_solution (Some p))); [split; reflexivity|].
  destruct (size p <? 4); [split; reflexivity|].
  apply samples_loop_paired.
Qed.

(** A time sample is left without its depth sample when the continuation
    byte of an overflow is missing. *)
Example dangling_time_sample :
  suunto_solution_parser_samples_foreach
    (solution_parser [x00; x00; x00; x7d] 4) (Some (recorder tt)) []
  = (Returned DC_STATUS_DATAFORMAT, [DC_SAMPLE_TIME 180],
     [Read 3; Read 3; Callback (DC_SAMPLE_TIME 180)]).
Proof. vm_compute. reflexivity. Qed.

(** X4: once [get_field] has stored a value, the same query on the same
    parser reads nothing and stores the same value again, whatever buffer
    of at least four bytes the parser holds by then: the cache is consulted
    before the data. *)
Theorem get_field_answers_from_cache :
  forall (data : memory) (size : Z) type value st v (data2 : memory) (size2 : Z),
    result (suunto_solution_parser_get_field data size type value st)
    = (Returned DC_STATUS_SUCCESS, Some v) ->
    4 <= size2 ->
    suunto_solution_parser_get_field data2 size2 type value
      (final (suunto_solution_parser_get_field data size type value st))
    = (Returned DC_STATUS_SUCCESS, Some v,
       final (suunto_solution_parser_get_field data size type value st), []).
Proof.
  intros data size type value st v data2 size2 H Hs2.
  unfold suunto_solution_parser_get_field in *.
  destruct (size2 <? 4) eqn:E2; [apply Z.ltb_lt in E2; lia|].
  destruct (size <? 4); [discriminate H|].
  unfold bind, get in *. cbn [fst snd app] in *.
  destruct (cached st =? 0) eqn:Ec.
  - pose proof (field_loop_state data size (S (Z.to_nat size)) 3 0 0 0 st) as Hst.
    destruct (field_loop data size (S (Z.to_nat size)) 3 0 0 0 st) as [[rf wf] tf].
    cbn [final fst snd] in Hst. subst wf.
    destruct rf as [|o n m|]; try discriminate H.
    unfold read, bind, ret, log, put in *.
    destruct (u32 (o + 1) >=? size); [discriminate H|].
    cbn [fst snd app] in *.
    destruct (negb (uint8 (data o) =? 128)); [discriminate H|].
    cbn [fst snd app] in *.
    destruct value; [destruct type|]; cbn in H; try discriminate H;
      injection H as <-; reflexivity.
  - unfold ret in *. cbn [fst snd app] in *.
    destruct value; [destruct type|]; cbn in H; try discriminate H;
      injection H as <-; cbn; rewrite Ec; reflexivity.
Qed.

Lemma get_field_answers_from_cache_witness :
  (result (suunto_solution_parser_get_field
             (mem_of_list [x00; x00; x00; x03; x7d; x02; x80; x05]) 8
             DC_FIELD_MAXDEPTH true fresh_parser)
   = (Returned DC_STATUS_SUCCESS, Some (Maxdepth 130))
   /\ 4 <= 4)
  /\ suunto_solution_parser_get_field (mem_of_list [x00; x00; x00; x80]) 4
       DC_FIELD_MAXDEPTH true
       (final (suunto_solution_parser_get_field
                 (mem_of_list [x00; x00; x00; x03; x7d; x02; x80; x05]) 8
                 DC_FIELD_MAXDEPTH true fresh_parser))
     = (Returned DC_STATUS_SUCCESS, Some (Maxdepth 130),
        final (suunto_solution_parser_get_field
                 (mem_of_list [x00; x00; x00; x03; x7d; x02; x80; x05]) 8
                 DC_FIELD_MAXDEPTH true fresh_parser), []).
Proof.
  assert (H1 : result (suunto_solution_parser_get_field
                         (mem_of_list [x00; x00; x00; x03; x7d; x02; x80; x05]) 8
                         DC_FIELD_MAXDEPTH true fresh_parser)
               = (Returned DC_STATUS_SUCCESS, Some (Maxdepth 130))) by reflexivity.
  assert (H2 : 4 <= 4) by lia.
  split; [split; [exact H1 | exact H2]|].
  exact (get_field_answers_from_cache
           (mem_of_list [x00; x00; x00; x03; x7d; x02; x80; x05]) 8
           DC_FIELD_MAXDEPTH true fresh_parser (Maxdepth 130)
           (mem_of_list [x00; x00; x00; x80]) 4 H1 H2).
Defined.

(** After [set_data], [get_field] computes from the buffer as a new
    parser would, whatever was cached before; [set_data] on a parser of
    another family changes nothing and returns InvalidArgs. *)
Lemma set_data_resets_cache :
  forall (p : dc_parser_t) st (data : memory) (size : Z) type value,
    (backend p = DC_FAMILY_SUUNTO_SOLUTION ->
     result (suunto_solution_parser_set_data (Some p) st) = Returned DC_STATUS_SUCCESS
     /\ suunto_solution_parser_get_field data size type value
          (final (suunto_solution_parser_set_data (Some p) st))
        = suunto_solution_parser_get_field data size type value fresh_parser)
    /\ (backend p <> DC_FAMILY_SUUNTO_SOLUTION ->
        suunto_solution_parser_set_data (Some p) st
        = (Returned DC_STATUS_INVALIDARGS, st, [])).
Proof.
  intros p st data size type value.
  unfold suunto_solution_parser_set_data, parser_is_suunto_solution.
  split; intros Hb.
  - rewrite Hb. split; reflexivity.
  - destruct (backend p); try reflexivity. contradiction.
Qed.

(** *** Bounds and verdicts *)

(** X1: [get_field] reads no byte outside the buffer: every index it
    reads is at least 0 and below [size]. *)
Theorem get_field_stays_in_buffer :
  forall (data : memory) (size : Z) type value st,
    0 <= size < UINT_MAX ->
    reads_within size
      (trace (suunto_solution_parser_get_field data size type value st)) = true.
Proof.
  exact get_field_reads_within_size.
Qed.

Lemma get_field_stays_in_buffer_witness :
  0 <= 8 < UINT_MAX
  /\ reads_within 8
       (trace (suunto_solution_parser_get_field
                 (mem_of_list [x00; x00; x00; x03; x7d; x02; x80; x05]) 8
                 DC_FIELD_DIVETIME true fresh_parser))
     = true.
Proof.
  assert (H : 0 <= 8 < UINT_MAX) by (unfold UINT_MAX; lia).
  split; [exact H|].
  exact (get_field_stays_in_buffer
           (mem_of_list [x00; x00; x00; x03; x7d; x02; x80; x05]) 8
           DC_FIELD_DIVETIME true fresh_parser H).
Defined.

(** Without end marker and without an overflow byte in the last place,
    the loop runs to the end of the buffer, and the verdict is that of the
    byte behind it. *)
Lemma samples_loop_runs_to_end :
  forall (U R : Type) (data : memory) (size : Z)
         (callback : option (@dc_sample_callback_t U R)) fuel offset time depth (u : U),
    0 <= offset <= size -> size < UINT_MAX ->
    (Z.to_nat (size - offset) < fuel)%nat ->
    (forall i, offset <= i < size -> uint8 (data i) <> 0x80) ->
    uint8 (data (size - 1)) <> 0x7D -> uint8 (data (size - 1)) <> 0x83 ->
    result (samples_loop data size callback fuel offset time depth u)
    = Returned (if uint8 (data size) =? 0x80 then DC_STATUS_SUCCESS
                else DC_STATUS_DATAFORMAT).
Proof.
  intros U R data size callback fuel.
  induction fuel as [|fuel IH]; intros offset time depth u Ho Hs Hf Hno H7d H83; [lia|].
  cbn [samples_loop]. unfold loop_condition.
  destruct (offset <? size) eqn:Elt.
  2:{ apply Z.ltb_ge in Elt. assert (offset = size) by lia. subst offset.
      unfold read, bind, ret, log. cbn [fst snd app].
      destruct (uint8 (data size) =? 128); reflexivity. }
  apply Z.ltb_lt in Elt.
  assert (E1 : u32 (offset + 1) = offset + 1)
    by (apply u32_small; unfold UINT_MAX in *; lia).
  unfold read, bind, ret, log. cbn [fst snd app]. rewrite E1.
  assert (Eend : (uint8 (data offset) =? 128) = false).
  { apply Z.eqb_neq. apply Hno. lia. }
  rewrite Eend. cbn [negb].
  assert (Hnext : forall o t d u',
             offset < o <= size ->
             result (samples_loop data size callback fuel o t d u')
             = Returned (if uint8 (data size) =? 0x80 then DC_STATUS_SUCCESS
                         else DC_STATUS_DATAFORMAT)).
  { intros o t d u' Hr. apply IH; try assumption; try lia.
    intros i Hi. apply Hno. lia. }
  destruct ((uint8 (data offset) <? 126) || (uint8 (data offset) >? 130)).
  - destruct ((uint8 (data offset) =? 125) || (uint8 (data offset) =? 131)) eqn:Eov.
    + assert (Hlast : offset <> size - 1).
      { intros ->. apply orb_true_iff in Eov.
        destruct Eov as [E | E]; apply Z.eqb_eq in E; contradiction. }
      assert (E2 : u32 (offset + 1 + 1) = offset + 2).
      { replace (offset + 1 + 1) with (offset + 2) by lia.
        apply u32_small. unfold UINT_MAX in *. lia. }
      rewrite E2.
      assert (Egt : (offset + 2 >? size) = false).
      { rewrite Z.gtb_ltb. apply Z.ltb_ge. lia. }
      rewrite Egt.
      unfold call, bind, ret, log, get, put.
      destruct callback as [f|]; cbn [fst snd app];
        match goal with
        | |- context [samples_loop data size ?cb fuel ?o ?t ?d ?u'] =>
          specialize (Hnext o t d u' ltac:(lia));
          destruct (samples_loop data size cb fuel o t d u') as [[rs ws] ts]
        end;
        cbn in *; exact Hnext.
    + unfold call, bind, ret, log, get, put.
      destruct callback as [f|]; cbn [fst snd app];
        match goal with
        | |- context [samples_loop data size ?cb fuel ?o ?t ?d ?u'] =>
          specialize (Hnext o t d u' ltac:(lia));
          destruct (samples_loop data size cb fuel o t d u') as [[rs ws] ts]
        end;
        cbn in *; exact Hnext.
  - unfold call, bind, ret, log, get, put.
    destruct callback as [f|]; cbn [fst snd app];
      match goal with
      | |- context [samples_loop data size ?cb fuel ?o ?t ?d ?u'] =>
        specialize (Hnext o t d u' ltac:(lia));
        destruct (samples_loop data size cb fuel o t d u') as [[rs ws] ts]
      end;
      cbn in *; exact Hnext.
Qed.

(** X5: on a buffer that holds no end marker 0x80 from index 3 on, the
    sample decoder returns DataFormatError or success, and success only
    where the byte just behind the buffer is 0x80. Where that byte is 0x80,
    the buffer has at least four bytes and its last byte is neither 0x7D
    nor 0x83, so that no overflow lacks its second byte, the decoder does
    return success. *)
Theorem samples_without_end_marker :
  forall (U R : Type) (p : dc_parser_t) (callback : option (@dc_sample_callback_t U R)) (u : U),
    backend p = DC_FAMILY_SUUNTO_SOLUTION ->
    0 <= size p < UINT_MAX ->
    (forall i, 3 <= i < size p -> uint8 (data p i) <> 0x80) ->
    (result (suunto_solution_parser_samples_foreach (Some p) callback u)
     = Returned DC_STATUS_DATAFORMAT
     \/ (result (suunto_solution_parser_samples_foreach (Some p) callback u)
         = Returned DC_STATUS_SUCCESS
         /\ uint8 (data p (size p)) = 0x80))
    /\ (4 <= size p ->
        uint8 (data p (size p)) = 0x80 ->
        uint8 (data p (size p - 1)) <> 0x7D ->
        uint8 (data p (size p - 1)) <> 0x83 ->
        result (suunto_solution_parser_samples_foreach (Some p) callback u)
        = Returned DC_STATUS_SUCCESS).
Proof.
  intros U R p callback u Hb Hs Hno.
  split; [exact (missing_end_marker_verdict U R p callback u Hb Hs Hno)|].
  intros H4 Hend H7d H83.
  unfold suunto_solution_parser_samples_foreach, parser_is_suunto_solution.
  rewrite Hb. cbn [dc_family_eqb negb].
  destruct (size p <? 4) eqn:E; [apply Z.ltb_lt in E; lia|].
  rewrite (samples_loop_runs_to_end U R (data p) (size p) callback
             (S (Z.to_nat (size p))) 3 0 0 u); try assumption; try lia.
  apply Z.eqb_eq in Hend. rewrite Hend. reflexivity.
Qed.

Lemma samples_without_end_marker_witness :
  result (suunto_solution_parser_samples_foreach
            (solution_parser [x00; x00; x00; x01; x02; x80] 5) (Some (recorder tt)) [])
  = Returned DC_STATUS_SUCCESS.
Proof.
  apply (proj2 (samples_without_end_marker (list sample) unit
                  {| backend := DC_FAMILY_SUUNTO_SOLUTION;
                     data := mem_of_list [x00; x00; x00; x01; x02; x80]; size := 5 |}
                  (Some (recorder tt)) [] eq_refl
                  ltac:(cbn; unfold UINT_MAX; lia)
                  ltac:(cbn; intros i Hi;
                        assert (Hc : i = 3 \/ i = 4) by lia;
                        destruct Hc as [-> | ->]; vm_compute; discriminate))).
  - cbn. lia.
  - reflexivity.
  - vm_compute. discriminate.
  - vm_compute. discriminate.
Defined.

(** Where the last byte opens an overflow, the decoder returns
    DataFormatError although the byte behind the buffer is 0x80. *)
Example overflow_in_last_place :
  result (suunto_solution_parser_samples_foreach
            (solution_parser [x00; x00; x00; x7d; x80] 4) (Some (recorder tt)) [])
  = Returned DC_STATUS_DATAFORMAT.
Proof. vm_compute. reflexivity. Qed.

(** X6: a dive whose first sample byte, at index 3, is the end marker
    has no samples: the decoder returns success, reads that byte only,
    does not call the consumer and leaves its state as it was. *)
Theorem dive_without_samples :
  forall (U R : Type) (p : dc_parser_t) (callback : option (@dc_sample_callback_t U R)) (u : U),
    backend p = DC_FAMILY_SUUNTO_SOLUTION ->
    4 <= size p ->
    data p 3 = x80 ->
    suunto_solution_parser_samples_foreach (Some p) callback u
    = (Returned DC_STATUS_SUCCESS, u, [Read 3; Read 3]).
Proof.
  exact end_marker_at_first_position.
Qed.

Lemma dive_without_samples_witness :
  suunto_solution_parser_samples_foreach
    (solution_parser [x00; x00; x00; x80; x05] 5) (Some (recorder tt)) []
  = (Returned DC_STATUS_SUCCESS, [], [Read 3; Read 3]).
Proof.
  apply (dive_without_samples (list sample) unit
           {| backend := DC_FAMILY_SUUNTO_SOLUTION;
              data := mem_of_list [x00; x00; x00; x80; x05]; size := 5 |}
           (Some (recorder tt)) []).
  - reflexivity.
  - cbn. lia.
  - reflexivity.
Defined.

(** *** The samples handed over *)

Lemma bytes_from_nil :
  forall (data : memory) size from, size <= from -> bytes_from data size from = [].
Proof.
  intros data size from H. unfold bytes_from.
  replace (Z.to_nat (size - from)) with 0%nat by lia. reflexivity.
Qed.

Lemma bytes_from_cons :
  forall (data : memory) size from,
    from < size ->
    bytes_from data size from = data from :: bytes_from data size (from + 1).
Proof.
  intros data size from H. unfold bytes_from.
  replace (Z.to_nat (size - from)) with (S (Z.to_nat (size - (from + 1)))) by lia.
  cbn [seq map]. rewrite Z.add_0_r. f_equal.
  rewrite <- seq_shift, map_map.
  apply map_ext. intros i. f_equal. lia.
Qed.

(** The decoder hands the samples of the stream to the consumer, all of
    them and in order, whatever the consumer returns. *)
Lemma samples_loop_hands_over :
  forall (U R : Type) (data : memory) (size : Z) (f : @dc_sample_callback_t U R)
         fuel offset time depth (u : U),
    0 <= offset <= size -> size < UINT_MAX ->
    (Z.to_nat (size - offset) < fuel)%nat ->
    delivered (trace (samples_loop data size (Some f) fuel offset time depth u))
    = spec_samples time depth (bytes_from data size offset)
    /\ final (samples_loop data size (Some f) fuel offset time depth u)
       = fold_left (fun u s => snd (f s u))
                   (spec_samples time depth (bytes_from data size offset)) u.
Proof.
  intros U R data size f fuel.
  induction fuel as [|fuel IH]; intros offset time depth u Ho Hs Hf; [lia|].
  cbn [samples_loop]. unfold loop_condition.
  destruct (offset <? size) eqn:Elt.
  2:{ apply Z.ltb_ge in Elt. rewrite bytes_from_nil by lia.
      unfold read, bind, ret, log. cbn [fst snd app].
      destruct (negb (uint8 (data offset) =? 128)); cbn; auto. }
  apply Z.ltb_lt in Elt.
  rewrite (bytes_from_cons data size offset Elt). cbn [spec_samples].
  assert (E1 : u32 (offset + 1) = offset + 1)
    by (apply u32_small; unfold UINT_MAX in *; lia).
  unfold read, call, bind, ret, log, get, put. cbn [fst snd app]. rewrite E1.
  destruct (uint8 (data offset) =? 128) eqn:Eend; cbn [negb].
  { cbn. auto. }
  destruct ((uint8 (data offset) <? 126) || (uint8 (data offset) >? 130)).
  - destruct ((uint8 (data offset) =? 125) || (uint8 (data offset) =? 131)).
    + assert (E2 : u32 (offset + 1 + 1) = offset + 2).
      { replace (offset + 1 + 1) with (offset + 2) by lia.
        apply u32_small. unfold UINT_MAX in *. lia. }
      rewrite E2.
      destruct (offset + 2 >? size) eqn:Egt.
      * rewrite Z.gtb_ltb in Egt. apply Z.ltb_lt in Egt.
        rewrite bytes_from_nil by lia. cbn. auto.
      * rewrite Z.gtb_ltb in Egt. apply Z.ltb_ge in Egt.
        rewrite (bytes_from_cons data size (offset + 1)) by lia.
        replace (offset + 1 + 1) with (offset + 2) by lia.
        cbn [fst snd app].
        match goal with
        | |- context [samples_loop data size (Some f) fuel ?o ?t ?d ?u'] =>
          specialize (IH o t d u' ltac:(lia) Hs ltac:(lia));
          destruct (samples_loop data size (Some f) fuel o t d u') as [[rs ws] ts]
        end.
        cbn [fst snd result final trace delivered app fold_left] in *.
        destruct IH as [IH1 IH2]. rewrite IH1, IH2. auto.
    + cbn [fst snd app].
      match goal with
      | |- context [samples_loop data size (Some f) fuel ?o ?t ?d ?u'] =>
        specialize (IH o t d u' ltac:(lia) Hs ltac:(lia));
        destruct (samples_loop data size (Some f) fuel o t d u') as [[rs ws] ts]
      end.
      cbn [fst snd result final trace delivered app fold_left] in *.
      destruct IH as [IH1 IH2]. rewrite IH1, IH2. auto.
  - match goal with
    | |- context [samples_loop data size (Some f) fuel ?o ?t ?d ?u'] =>
      specialize (IH o t d u' ltac:(lia) Hs ltac:(lia));
      destruct (samples_loop data size (Some f) fuel o t d u') as [[rs ws] ts]
    end.
    cbn [fst snd result final trace delivered app fold_left] in *.
    destruct IH as [IH1 IH2]. rewrite IH1, IH2. auto.
Qed.

Lemma samples_foreach_hands_over :
  forall (U R : Type) (p : dc_parser_t) (f : @dc_sample_callback_t U R) (u : U),
    backend p = DC_FAMILY_SUUNTO_SOLUTION ->
    4 <= size p < UINT_MAX ->
    delivered (trace (suunto_solution_parser_samples_foreach (Some p) (Some f) u))
    = spec_samples 0 0 (bytes_from (data p) (size p) 3)
    /\ final (suunto_solution_parser_samples_foreach (Some p) (Some f) u)
       = fold_left (fun u s => snd (f s u))
                   (spec_samples 0 0 (bytes_from (data p) (size p) 3)) u.
Proof.
  intros U R p f u Hb Hs.
  unfold suunto_solution_parser_samples_foreach, parser_is_suunto_solution.
  rewrite Hb. cbn [dc_family_eqb negb].
  destruct (size p <? 4) eqn:E; [apply Z.ltb_lt in E; lia|].
  apply samples_loop_hands_over; lia.
Qed.

(** The samples of the stream 01 02 80 behind a three-byte header. *)
Example spec_samples_scenario :
  spec_samples 0 0 (bytes_from (mem_of_list [x00; x00; x00; x01; x02; x80]) 6 3)
  = [DC_SAMPLE_TIME 180; DC_SAMPLE_DEPTH 1; DC_SAMPLE_TIME 360; DC_SAMPLE_DEPTH 3].
Proof. vm_compute. reflexivity. Qed.

End SuuntoSolutionSpec.

(** * Properties of the Uwatec Smart device code *)

Module UwatecSmartSpec.

Import UwatecSmart.

Lemma EXITCODE_not_success : forall n, is_success (EXITCODE n) = false.
Proof.
  intros n. unfold EXITCODE. destruct (n =? -1); reflexivity.
Qed.

(** The three ways a transfer can go. *)
Lemma transfer_cases :
  forall Sock (irda : irda_t Sock) command csize answer asize (w : world Sock),
    let wr := irda_socket_write irda (socket w) command csize in
    let rd := irda_socket_read irda (snd wr) asize in
    let w1 := {| socket := snd wr; device := device w; buffer := buffer w |} in
    let w2 := {| socket := snd rd; device := device w; buffer := buffer w |} in
    let answer' := store answer (snd (fst rd)) in
    uwatec_smart_transfer irda command csize answer asize w =
    if negb (u32 (fst wr) =? csize)
    then (EXITCODE (fst wr), answer, w1, [Write command csize (fst wr)])
    else if negb (u32 (fst (fst rd)) =? asize)
    then (EXITCODE (fst (fst rd)), answer', w2,
          [Write command csize (fst wr); Answer command asize (fst (fst rd)) answer'])
    else (DC_STATUS_SUCCESS, answer', w2,
          [Write command csize (fst wr); Answer command asize (fst (fst rd)) answer']).
Proof.
  intros Sock irda command csize answer asize w. cbv zeta.
  unfold uwatec_smart_transfer, socket_write, socket_read, bind, ret, log, get, put.
  destruct (irda_socket_write irda (socket w) command csize) as [n s] eqn:Ew.
  cbn [fst snd app].
  destruct (negb (u32 n =? csize)); [reflexivity|].
  cbn [socket device buffer].
  destruct (irda_socket_read irda s asize) as [[m bytes] s'] eqn:Er.
  cbn [fst snd app].
  destruct (negb (u32 m =? asize)); reflexivity.
Qed.

Lemma version_run :
  forall Sock (irda : irda_t Sock) data size (w : world Sock),
    let r := uwatec_smart_device_version irda data size w in
    device (final r) = device w
    /\ buffer (final r) = buffer w
    /\ Forall (transfer_of [[x10]; [x14]; [x1a]]) (trace r).
Proof.
  intros Sock irda data size w. cbv zeta.
  unfold uwatec_smart_device_version.
  destruct (size <? UWATEC_SMART_VERSION_SIZE).
  { cbn. auto. }
  unfold bind, ret.
  repeat first
    [ rewrite transfer_cases
    | match goal with
      | |- context [negb (u32 ?n =? ?c)] => destruct (negb (u32 n =? c))
      end
    | rewrite EXITCODE_not_success
    | progress cbn [fst snd is_success negb app final trace socket device buffer] ];
  (split; [reflexivity | split; [reflexivity | ]]);
  repeat (apply Forall_cons || apply Forall_nil); cbn; tauto.
Qed.

Lemma dump_loop_trace :
  forall Sock (irda : irda_t Sock) fuel length nbytes progress (w : world Sock),
    Forall loop_event (trace (dump_loop irda fuel length nbytes progress w)).
Proof.
  intros Sock irda fuel. induction fuel as [|fuel IH]; intros length nbytes progress w.
  - cbn. constructor.
  - cbn [dump_loop]. destruct (nbytes <? length); [|cbn; constructor].
    unfold socket_available, socket_read, buffer_store, device_event_emit.
    unfold bind, ret, log, get, put.
    destruct (irda_socket_available irda (socket w)) as [a s1].
    cbn [fst snd app socket device buffer].
    match goal with
    | |- context [irda_socket_read irda s1 ?len] =>
      destruct (irda_socket_read irda s1 len) as [[n bytes] s2]
    end.
    cbn [fst snd app socket device buffer].
    match goal with
    | |- context [negb ?b] => destruct (negb b)
    end.
    + cbn. repeat (apply Forall_cons || apply Forall_nil); exact I.
    + match goal with
      | |- context [dump_loop irda fuel ?l ?nb ?pr ?w'] =>
        specialize (IH l nb pr w'); destruct (dump_loop irda fuel l nb pr w') as [[o w3] t3]
      end.
      cbn in *. repeat (apply Forall_cons; [exact I|]). exact IH.
Qed.

(** C7, as amended: a transfer whose write returns a count that the code
    finds different from the command length (the two compared as unsigned
    ints) fails without reading, with IoError when the count is -1 and with
    TimeoutError otherwise; a transfer whose read returns a count different
    from the expected answer length fails in the same way, IoError for -1
    and TimeoutError otherwise; and a transfer whose two counts match
    succeeds. *)
Theorem transfer_failure_status :
  forall Sock (irda : irda_t Sock) command csize answer asize (w : world Sock),
    let n := fst (irda_socket_write irda (socket w) command csize) in
    let s := snd (irda_socket_write irda (socket w) command csize) in
    let m := fst (fst (irda_socket_read irda s asize)) in
    let r := uwatec_smart_transfer irda command csize answer asize w in
    (u32 n <> csize ->
     fst (result r) = (if n =? -1 then DC_STATUS_IO else DC_STATUS_TIMEOUT)
     /\ trace r = [Write command csize n])
    /\ (u32 n = csize -> u32 m <> asize ->
        fst (result r) = (if m =? -1 then DC_STATUS_IO else DC_STATUS_TIMEOUT))
    /\ (u32 n = csize -> u32 m = asize ->
        fst (result r) = DC_STATUS_SUCCESS).
Proof.
  intros Sock irda command csize answer asize w n s m r.
  subst r. rewrite transfer_cases. fold n s. fold m.
  split; [|split].
  - intros Hn. apply Z.eqb_neq in Hn. rewrite Hn. split; reflexivity.
  - intros Hn Hm. apply Z.eqb_eq in Hn. apply Z.eqb_neq in Hm.
    rewrite Hn, Hm. reflexivity.
  - intros Hn Hm. apply Z.eqb_eq in Hn. apply Z.eqb_eq in Hm.
    rewrite Hn, Hm. reflexivity.
Qed.

Lemma transfer_failure_status_witness :
  u32 1 = 1 /\ u32 0 <> 1
  /\ fst (result (uwatec_smart_transfer scripted [x1b] 1 [x00] 1
                    {| socket := [Written 1; Received 0 []];
                       device := smart_device 0; buffer := empty_buffer |}))
     = DC_STATUS_TIMEOUT.
Proof.
  assert (Hn : u32 1 = 1) by reflexivity.
  assert (Hm : u32 0 <> 1) by (vm_compute; discriminate).
  split; [exact Hn | split; [exact Hm | ]].
  exact (proj1 (proj2 (transfer_failure_status (list reply) scripted [x1b] 1 [x00] 1
                         {| socket := [Written 1; Received 0 []];
                            device := smart_device 0; buffer := empty_buffer |}))
               Hn Hm).
Defined.

(** C7, as stated, fails: a write that returns 0 for a one-byte command
    is a count different from the command length, and the transfer fails
    with TimeoutError, not IoError. *)
Lemma short_write_is_timeout :
  irda_socket_write scripted [Written 0] [x1b] 1 = (0, [])
  /\ fst (result (uwatec_smart_transfer scripted [x1b] 1 [x00] 1
                    {| socket := [Written 0];
                       device := smart_device 0; buffer := empty_buffer |}))
     = DC_STATUS_TIMEOUT
  /\ DC_STATUS_TIMEOUT <> DC_STATUS_IO.
Proof.
  repeat split; try reflexivity. discriminate.
Qed.

Ltac unfold_device :=
  unfold socket_available, socket_read, socket_write, buffer_store,
    device_event_emit, set_clock, dc_buffer_clear, dc_buffer_resize;
  unfold bind, ret, log, get, put.

Ltac simpl_run :=
  cbn [fst snd is_success negb app final trace result socket device buffer
       option_map bsize bdata] in *.

Ltac step_dump resize_ok :=
  first
    [ rewrite transfer_cases
    | rewrite EXITCODE_not_success
    | match goal with
      | |- context [negb (u32 ?n =? ?c)] =>
        destruct (negb (u32 n =? c)) eqn:?
      | |- context [if array_uint32_le ?a =? 0 then _ else _] =>
        destruct (array_uint32_le a =? 0) eqn:?
      | |- context [if resize_ok ?l then _ else _] =>
        destruct (resize_ok l)
      | |- context [negb (array_uint32_le ?a =? u32 ?x)] =>
        destruct (negb (array_uint32_le a =? u32 x)) eqn:?
      | |- context [dump_loop ?i ?f ?l ?n ?p ?w] =>
        pose proof (dump_loop_trace _ i f l n p w);
        destruct (dump_loop i f l n p w) as [[? ?] ?]
      end
    | progress simpl_run ].

Ltac norm_bool :=
  repeat match goal with
         | H : negb _ = true |- _ => apply negb_true_iff in H
         | H : negb _ = false |- _ => apply negb_false_iff in H
         | H : (_ =? _) = true |- _ => apply Z.eqb_eq in H
         | H : (_ =? _) = false |- _ => apply Z.eqb_neq in H
         end.

Ltac in_cases :=
  repeat match goal with
         | H : In _ [] |- _ => destruct H
         | H : In _ (_ :: _) |- _ => destruct H as [H|H]; [try discriminate H|]
         | H : In _ (_ ++ _) |- _ => apply in_app_or in H; destruct H as [H|H]
         end.

Ltac use_forall :=
  match goal with
  | HF : Forall ?P ?t, HI : In ?e ?t |- _ =>
    let HP := fresh "HP" in
    pose proof (proj1 (Forall_forall P t) HF e HI) as HP; cbn in HP; clear HI
  end.

Ltac absurd_query :=
  match goal with
  | HP : False |- _ => destruct HP
  | HP : _ \/ _ |- _ =>
    decompose [or] HP; subst; cbn in *; try discriminate; try contradiction
  end.

(** C8: whenever the length query (opcode 0xC6) is answered in full with
    a length of 0, the dump returns success, the buffer has length zero,
    and no command with opcode 0xC4 is written in the whole run. *)
Theorem dump_empty_short_circuit :
  forall Sock (irda : irda_t Sock) now resize_ok fuel (w : world Sock) command m answer,
    In (Answer command 4 m answer)
       (trace (uwatec_smart_device_dump irda now resize_ok fuel w)) ->
    hd x00 command = xc6 -> u32 m = 4 ->
    array_uint32_le (mem_of_list answer) = 0 ->
    result (uwatec_smart_device_dump irda now resize_ok fuel w)
    = Returned DC_STATUS_SUCCESS
    /\ option_map bsize (buffer (final (uwatec_smart_device_dump irda now resize_ok fuel w)))
       = Some 0
    /\ (forall c csize n,
          In (Write c csize n)
             (trace (uwatec_smart_device_dump irda now resize_ok fuel w)) ->
          hd x00 c <> xc4).
Proof.
  intros Sock irda now resize_ok fuel w command m answer.
  unfold uwatec_smart_device_dump.
  unfold_device.
  destruct (device w) as [d|]; [|simpl_run; intros []].
  destruct (negb (device_is_uwatec_smart (Some d))); [simpl_run; intros []|].
  destruct (buffer w) as [b|]; [|simpl_run; intros []].
  simpl_run.
  match goal with
  | |- context [uwatec_smart_device_version irda ?da ?sz ?w'] =>
    pose proof (version_run Sock irda da sz w') as (Hd & Hb & Hv);
    destruct (uwatec_smart_device_version irda da sz w') as [[rv wv] tv]
  end.
  simpl_run.
  destruct (negb (is_success (fst rv))).
  { simpl_run. intros HIn Hop Hm HL. in_cases. use_forall. absurd_query. }
  simpl_run. rewrite Hd, Hb. simpl_run.
  repeat step_dump resize_ok.
  all: intros HIn Hop Hm HL; norm_bool; in_cases.
  all: try (use_forall; absurd_query; fail).
  all: try (injection HIn as E1 E2 E3; subst command m answer;
            try contradiction; try congruence).
  all: try (cbn in Hop; discriminate Hop).
  split; [reflexivity | split; [reflexivity | ]].
  intros c csize n HW. in_cases.
  - use_forall. absurd_query.
  - injection HW as E1 E2 E3. subst c. cbn. discriminate.
Qed.

Ltac in_list := cbn; repeat (first [left; reflexivity | right]).

Lemma dump_empty_short_circuit_witness :
  result (uwatec_smart_device_dump scripted 0 (fun _ => true) 0
            (dump_world (version_script
                         ++ [Written 9; Received 4 [x00; x00; x00; x00]])))
  = Returned DC_STATUS_SUCCESS
  /\ option_map bsize
       (buffer (final (uwatec_smart_device_dump scripted 0 (fun _ => true) 0
                         (dump_world (version_script
                                      ++ [Written 9; Received 4 [x00; x00; x00; x00]])))))
     = Some 0
  /\ (forall c csize n,
        In (Write c csize n)
           (trace (uwatec_smart_device_dump scripted 0 (fun _ => true) 0
                     (dump_world (version_script
                                  ++ [Written 9; Received 4 [x00; x00; x00; x00]])))) ->
        hd x00 c <> xc4).
Proof.
  apply (dump_empty_short_circuit (list reply) scripted 0 (fun _ => true) 0
           (dump_world (version_script ++ [Written 9; Received 4 [x00; x00; x00; x00]]))
           length_query 4 [x00; x00; x00; x00]).
  - in_list.
  - reflexivity.
  - reflexivity.
  - reflexivity.
Defined.

(** C9, as amended: whenever the length query is answered in full with L
    and the data query (opcode 0xC4) is answered in full with a total
    different from L + 4 reduced modulo 2^32, the dump returns
    ProtocolError, and the run holds no query for pending bytes and no
    chunk read. *)
Theorem dump_total_mismatch :
  forall Sock (irda : irda_t Sock) now resize_ok fuel (w : world Sock)
         command6 m6 answer6 command4 m4 answer4,
    In (Answer command6 4 m6 answer6)
       (trace (uwatec_smart_device_dump irda now resize_ok fuel w)) ->
    hd x00 command6 = xc6 -> u32 m6 = 4 ->
    In (Answer command4 4 m4 answer4)
       (trace (uwatec_smart_device_dump irda now resize_ok fuel w)) ->
    hd x00 command4 = xc4 -> u32 m4 = 4 ->
    array_uint32_le (mem_of_list answer4)
    <> u32 (array_uint32_le (mem_of_list answer6) + 4) ->
    result (uwatec_smart_device_dump irda now resize_ok fuel w)
    = Returned DC_STATUS_PROTOCOL
    /\ (forall e,
          In e (trace (uwatec_smart_device_dump irda now resize_ok fuel w)) ->
          ~ payload_event e).
Proof.
  intros Sock irda now resize_ok fuel w command6 m6 answer6 command4 m4 answer4.
  unfold uwatec_smart_device_dump.
  unfold_device.
  destruct (device w) as [d|]; [|simpl_run; intros []].
  destruct (negb (device_is_uwatec_smart (Some d))); [simpl_run; intros []|].
  destruct (buffer w) as [b|]; [|simpl_run; intros []].
  simpl_run.
  match goal with
  | |- context [uwatec_smart_device_version irda ?da ?sz ?w'] =>
    pose proof (version_run Sock irda da sz w') as (Hd & Hb & Hv);
    destruct (uwatec_smart_device_version irda da sz w') as [[rv wv] tv]
  end.
  simpl_run.
  destruct (negb (is_success (fst rv))).
  { simpl_run. intros HIn Hop Hm. in_cases. use_forall. absurd_query. }
  simpl_run. rewrite Hd, Hb. simpl_run.
  repeat step_dump resize_ok.
  all: intros HIn Hop Hm; norm_bool; in_cases.
  all: try (use_forall; absurd_query; fail).
  all: try (cbn in Hop; discriminate Hop).
  all: try (injection HIn as E1 E2 E3; subst command6 m6 answer6;
            try contradiction; try congruence).
  all: try (cbn in Hop; discriminate Hop).
  all: intros HIn4 Hop4 Hm4; in_cases.
  all: try (use_forall; absurd_query; fail).
  all: try (cbn in Hop4; discriminate Hop4).
  all: try (injection HIn4 as E1 E2 E3; subst command4 m4 answer4;
            try contradiction; try congruence).
  all: try (cbn in Hop4; discriminate Hop4).
  intros Hne. split; [reflexivity|].
  intros e He Hp. in_cases; try (subst e; exact Hp).
  use_forall. destruct e; cbn in *; contradiction.
Qed.

Lemma dump_total_mismatch_witness :
  result (uwatec_smart_device_dump scripted 0 (fun _ => true) 0
            (dump_world (version_script
                         ++ [Written 9; Received 4 [x28; x00; x00; x00];
                             Written 9; Received 4 [x2d; x00; x00; x00]])))
  = Returned DC_STATUS_PROTOCOL
  /\ (forall e,
        In e (trace (uwatec_smart_device_dump scripted 0 (fun _ => true) 0
                       (dump_world (version_script
                                    ++ [Written 9; Received 4 [x28; x00; x00; x00];
                                        Written 9; Received 4 [x2d; x00; x00; x00]])))) ->
        ~ payload_event e).
Proof.
  apply (dump_total_mismatch (list reply) scripted 0 (fun _ => true) 0
           (dump_world (version_script
                        ++ [Written 9; Received 4 [x28; x00; x00; x00];
                            Written 9; Received 4 [x2d; x00; x00; x00]]))
           length_query 4 [x28; x00; x00; x00]
           data_query 4 [x2d; x00; x00; x00]).
  - in_list.
  - reflexivity.
  - reflexivity.
  - in_list.
  - reflexivity.
  - reflexivity.
  - vm_compute. discriminate.
Defined.

(** C9, as stated, fails: with L = 4294967292 the data query is answered
    with a total of 0, which is not L + 4 = 4294967296, and the dump does
    not return ProtocolError: it goes on to read a chunk and returns the
    failure of that read. *)
Lemma dump_total_wraps :
  In (Answer length_query 4 4 [xfc; xff; xff; xff])
     (trace (uwatec_smart_device_dump scripted 0 (fun _ => true) 1
               (dump_world (version_script
                            ++ [Written 9; Received 4 [xfc; xff; xff; xff];
                                Written 9; Received 4 [x00; x00; x00; x00]]))))
  /\ In (Answer data_query 4 4 [x00; x00; x00; x00])
        (trace (uwatec_smart_device_dump scripted 0 (fun _ => true) 1
                  (dump_world (version_script
                               ++ [Written 9; Received 4 [xfc; xff; xff; xff];
                                   Written 9; Received 4 [x00; x00; x00; x00]]))))
  /\ array_uint32_le (mem_of_list [x00; x00; x00; x00])
     <> array_uint32_le (mem_of_list [xfc; xff; xff; xff]) + 4
  /\ result (uwatec_smart_device_dump scripted 0 (fun _ => true) 1
               (dump_world (version_script
                            ++ [Written 9; Received 4 [xfc; xff; xff; xff];
                                Written 9; Received 4 [x00; x00; x00; x00]])))
     = Returned DC_STATUS_IO
  /\ In (Chunk 0 32 (-1))
        (trace (uwatec_smart_device_dump scripted 0 (fun _ => true) 1
                  (dump_world (version_script
                               ++ [Written 9; Received 4 [xfc; xff; xff; xff];
                                   Written 9; Received 4 [x00; x00; x00; x00]])))).
Proof.
  split; [in_list|].
  split; [in_list|].
  split; [vm_compute; discriminate|].
  split; [vm_compute; reflexivity|].
  in_list.
Qed.

(** *** The dive splitter *)

Lemma scan_shape :
  forall U (data : memory) (callback : option (@dc_dive_callback_t U))
         fuel previous current (u : U),
    0 <= current <= UINT_MAX ->
    (Z.to_nat current < fuel)%nat ->
    scan_log (is_some callback) current
             (result (scan data callback fuel previous current u))
             (trace (scan data callback fuel previous current u)).
Proof.
  intros U data callback fuel.
  induction fuel as [|fuel IH]; intros previous current u Hc Hf; [lia|].
  cbn [scan].
  destruct (current >? 0) eqn:Epos.
  2:{ cbn. apply scan_end. rewrite Z.gtb_ltb in Epos. apply Z.ltb_ge in Epos. lia. }
  rewrite Z.gtb_ltb in Epos. apply Z.ltb_lt in Epos.
  assert (E1 : u32 (current - 1) = current - 1) by (apply u32_small; lia).
  rewrite E1.
  unfold bind, log, ret.
  destruct (memcmp (shift data (current - 1)) header =? 0).
  - replace (current - 1 + 4) with (current + 3) by lia.
    replace (current - 1 + 8) with (current + 7) by lia.
    destruct (u32 (current - 1 + array_uint32_le (shift data (current + 3))) >? previous).
    + cbn. apply scan_overlap. lia.
    + unfold call_stops.
      replace (current - 1 + 8) with (current + 7) by lia.
      assert (E4 : (if current - 1 >=? 4 then u32 (current - 1 - 4) else 0)
                   = (if current - 1 >=? 4 then current - 5 else 0)).
      { destruct (current - 1 >=? 4) eqn:E; [|reflexivity].
        rewrite Z.geb_leb in E. apply Z.leb_le in E.
        replace (current - 1 - 4) with (current - 5) by lia.
        apply u32_small. lia. }
      rewrite E4.
      assert (Hn : 0 <= (if current - 1 >=? 4 then current - 5 else 0) <= UINT_MAX
                   /\ (Z.to_nat (if current - 1 >=? 4 then current - 5 else 0) < fuel)%nat).
      { destruct (current - 1 >=? 4) eqn:E.
        - rewrite Z.geb_leb in E. apply Z.leb_le in E. lia.
        - unfold UINT_MAX. lia. }
      destruct Hn as [Hn1 Hn2].
      destruct callback as [f|].
      * unfold bind, get, put, log, ret.
        destruct (f (shift data (current - 1))
                    (array_uint32_le (shift data (current + 3)))
                    (shift data (current + 7)) 4 u) as [r u'].
        cbn [fst snd app].
        destruct (r =? 0) eqn:Er.
        -- apply Z.eqb_eq in Er. subst r. cbn. apply scan_stop; [lia|reflexivity].
        -- apply Z.eqb_neq in Er.
           specialize (IH (current - 1) _ u' Hn1 Hn2).
           destruct (scan data (Some f) fuel (current - 1)
                          (if current - 1 >=? 4 then current - 5 else 0) u')
             as [[o w] t].
           cbn in *. apply scan_deliver; [lia|reflexivity|exact Er|exact IH].
      * cbn [bind ret fst snd app].
        specialize (IH (current - 1) _ u Hn1 Hn2).
        unfold ret.
        destruct (scan data None fuel (current - 1)
                       (if current - 1 >=? 4 then current - 5 else 0) u)
          as [[o w] t].
        cbn in *. apply scan_accept; [lia|reflexivity|exact IH].
  - assert (Hn : 0 <= current - 1 <= UINT_MAX /\ (Z.to_nat (current - 1) < fuel)%nat) by lia.
    destruct Hn as [Hn1 Hn2].
    specialize (IH previous (current - 1) u Hn1 Hn2).
    destruct (scan data callback fuel previous (current - 1) u) as [[o w] t].
    cbn in *. apply scan_miss; [lia|exact IH].
Qed.

Lemma adjacent_nil : forall A (x y : A), ~ adjacent x y [].
Proof.
  intros A x y (l1 & l2 & E). destruct l1; discriminate E.
Qed.

Lemma adjacent_cons_inv :
  forall A (x y a : A) l,
    adjacent x y (a :: l) ->
    (a = x /\ exists l', l = y :: l') \/ adjacent x y l.
Proof.
  intros A x y a l (l1 & l2 & E). destruct l1 as [|b l1]; cbn in E.
  - injection E as -> ->. left. split; [reflexivity|]. exists l2. reflexivity.
  - injection E as -> ->. right. exists l1, l2. reflexivity.
Qed.

Lemma snoc_cons_inv :
  forall A (a e : A) t l,
    a :: t = l ++ [e] ->
    (t = [] /\ a = e) \/ exists l', t = l' ++ [e].
Proof.
  intros A a e t l E. destruct l as [|b l]; cbn in E.
  - injection E as -> <-. left. split; reflexivity.
  - injection E as -> ->. right. exists l. reflexivity.
Qed.

Lemma scan_log_cons :
  forall cb c o e t,
    scan_log cb c o (e :: t) -> 0 < c /\ e = Compare (c - 1).
Proof.
  intros cb c o e t H. inversion H; subst; split; (assumption || reflexivity).
Qed.

Lemma scan_log_nil :
  forall cb c o, scan_log cb c o [] -> c <= 0.
Proof.
  intros cb c o H. inversion H; subst. assumption.
Qed.

Lemma next_current_positive :
  forall c, 0 < (if c - 1 >=? 4 then c - 5 else 0) -> 6 <= c.
Proof.
  intros c H. destruct (c - 1 >=? 4) eqn:E; lia.
Qed.

Lemma next_current_done :
  forall c, 0 < c -> (if c - 1 >=? 4 then c - 5 else 0) <= 0 -> c - 1 < 5.
Proof.
  intros c Hc H. destruct (c - 1 >=? 4) eqn:E.
  - lia.
  - rewrite Z.geb_leb in E. apply Z.leb_gt in E. lia.
Qed.

Lemma next_current_value :
  forall c, 6 <= c -> (if c - 1 >=? 4 then c - 5 else 0) = c - 5.
Proof.
  intros c H. destruct (c - 1 >=? 4) eqn:E; [reflexivity|].
  rewrite Z.geb_leb in E. apply Z.leb_gt in E. lia.
Qed.

Lemma scan_log_follows :
  forall cb c o t,
    scan_log cb c o t ->
    forall x y, adjacent x y t -> follows x y.
Proof.
  intros cb c o t H. induction H; intros x y Hadj.
  - destruct (adjacent_nil _ _ _ Hadj).
  - apply adjacent_cons_inv in Hadj. destruct Hadj as [[<- [l' ->]] | Hadj].
    + apply scan_log_cons in H0. destruct H0 as [_ ->]. left. reflexivity.
    + apply IHscan_log. exact Hadj.
  - apply adjacent_cons_inv in Hadj. destruct Hadj as [[<- [l' E]] | Hadj].
    + injection E as <- <-. right. f_equal. lia.
    + apply adjacent_cons_inv in Hadj. destruct Hadj as [[<- [l' E]] | Hadj].
      * discriminate E.
      * destruct (adjacent_nil _ _ _ Hadj).
  - apply adjacent_cons_inv in Hadj. destruct Hadj as [[<- [l' E]] | Hadj].
    + injection E as <- <-. right. f_equal. lia.
    + apply adjacent_cons_inv in Hadj. destruct Hadj as [[<- [l' E]] | Hadj].
      * injection E as <- <-. left. exists len, 0. f_equal; lia.
      * apply adjacent_cons_inv in Hadj. destruct Hadj as [[<- [l' E]] | Hadj].
        -- discriminate E.
        -- destruct (adjacent_nil _ _ _ Hadj).
  - apply adjacent_cons_inv in Hadj. destruct Hadj as [[<- [l' E]] | Hadj].
    + injection E as <- <-. right. f_equal. lia.
    + apply adjacent_cons_inv in Hadj. destruct Hadj as [[<- [l' E]] | Hadj].
      * injection E as <- <-. left. exists len, r. f_equal; lia.
      * apply adjacent_cons_inv in Hadj. destruct Hadj as [[<- [l' ->]] | Hadj].
        -- apply scan_log_cons in H2. destruct H2 as [Hpos ->].
           pose proof (next_current_positive _ Hpos) as H6.
           rewrite (next_current_value _ H6).
           split; [exact H1 | split; [lia | f_equal; lia]].
        -- apply IHscan_log. exact Hadj.
  - apply adjacent_cons_inv in Hadj. destruct Hadj as [[<- [l' E]] | Hadj].
    + injection E as <- <-. right. f_equal. lia.
    + apply adjacent_cons_inv in Hadj. destruct Hadj as [[<- [l' ->]] | Hadj].
      * apply scan_log_cons in H1. destruct H1 as [Hpos ->].
        pose proof (next_current_positive _ Hpos) as H6.
        rewrite (next_current_value _ H6).
        right. split; [lia | f_equal; lia].
      * apply IHscan_log. exact Hadj.
Qed.

Lemma scan_log_last :
  forall cb c o t,
    scan_log cb c o t ->
    forall l e, t = l ++ [e] -> may_end e.
Proof.
  intros cb c o t H. induction H; intros l e E.
  - destruct l; discriminate E.
  - apply snoc_cons_inv in E. destruct E as [[-> <-] | [l' E]].
    + apply scan_log_nil in H0. cbn. lia.
    + eapply IHscan_log. exact E.
  - apply snoc_cons_inv in E. destruct E as [[E _] | [l' E]]; [discriminate E|].
    apply snoc_cons_inv in E. destruct E as [[_ <-] | [l'' E]].
    + cbn. lia.
    + destruct l''; discriminate E.
  - apply snoc_cons_inv in E. destruct E as [[E _] | [l' E]]; [discriminate E|].
    apply snoc_cons_inv in E. destruct E as [[E _] | [l'' E]]; [discriminate E|].
    apply snoc_cons_inv in E. destruct E as [[_ <-] | [l3 E]].
    + cbn. left. reflexivity.
    + destruct l3; discriminate E.
  - apply snoc_cons_inv in E. destruct E as [[E _] | [l' E]]; [discriminate E|].
    apply snoc_cons_inv in E. destruct E as [[E _] | [l'' E]]; [discriminate E|].
    apply snoc_cons_inv in E. destruct E as [[-> <-] | [l3 E]].
    + apply scan_log_nil in H2. cbn. right.
      pose proof (next_current_done _ H H2). lia.
    + eapply IHscan_log. exact E.
  - apply snoc_cons_inv in E. destruct E as [[E _] | [l' E]]; [discriminate E|].
    apply snoc_cons_inv in E. destruct E as [[-> <-] | [l'' E]].
    + cbn. lia.
    + eapply IHscan_log. exact E.
Qed.

Lemma scan_log_done :
  forall cb c o t, scan_log cb c o t -> c <= 0 -> t = [].
Proof.
  intros cb c o t H Hc. inversion H; subst; (reflexivity || lia).
Qed.

Lemma scan_log_head :
  forall cb c o t, scan_log cb c o t -> 0 < c -> exists t', t = Compare (c - 1) :: t'.
Proof.
  intros cb c o t H Hc. inversion H; subst; try lia; eexists; reflexivity.
Qed.

Lemma extract_dives_scan_log :
  forall U (data : memory) (size : Z) (callback : option (@dc_dive_callback_t U))
         abstract (u : U),
    0 <= size <= UINT_MAX ->
    abstract = None \/ device_is_uwatec_smart abstract = true ->
    scan_log (is_some callback) (if size >=? 4 then size - 4 else 0)
             (result (uwatec_smart_extract_dives data size callback abstract u))
             (trace (uwatec_smart_extract_dives data size callback abstract u)).
Proof.
  intros U data size callback abstract u Hs Ha.
  unfold uwatec_smart_extract_dives.
  assert (Hg : match abstract with
               | None => false
               | Some _ => negb (device_is_uwatec_smart abstract)
               end = false).
  { destruct Ha as [-> | Ha]; [reflexivity|].
    destruct abstract; [rewrite Ha|]; reflexivity. }
  rewrite Hg.
  assert (Hc : (if size >=? 4 then u32 (size - 4) else 0)
               = (if size >=? 4 then size - 4 else 0)).
  { destruct (size >=? 4) eqn:E; [|reflexivity].
    rewrite Z.geb_leb in E. apply Z.leb_le in E. apply u32_small. lia. }
  rewrite Hc.
  apply scan_shape.
  - destruct (size >=? 4) eqn:E.
    + rewrite Z.geb_leb in E. apply Z.leb_le in E. lia.
    + unfold UINT_MAX. lia.
  - destruct (size >=? 4) eqn:E.
    + rewrite Z.geb_leb in E. apply Z.leb_le in E. lia.
    + cbn. lia.
Qed.

Lemma cons_split_inv :
  forall A (a x : A) t l1 l2,
    a :: t = l1 ++ x :: l2 ->
    (l1 = [] /\ a = x /\ t = l2) \/ exists l1', t = l1' ++ x :: l2.
Proof.
  intros A a x t l1 l2 E. destruct l1 as [|b l1]; cbn in E.
  - injection E as -> ->. left. repeat split.
  - injection E as -> ->. right. exists l1. reflexivity.
Qed.

Ltac peel E :=
  apply cons_split_inv in E;
  destruct E as [(_ & E & ?) | [? E]];
  [try discriminate E|].

(** A delivery on which the consumer stops is the last event of a scan,
    and the scan returns success. *)
Lemma scan_log_stop :
  forall cb c o t,
    scan_log cb c o t ->
    forall l1 l2 p len f fs,
      t = l1 ++ Callback p len f fs 0 :: l2 ->
      l2 = [] /\ o = Returned DC_STATUS_SUCCESS.
Proof.
  intros cb c o t H. induction H; intros l1 l2 p len' f fs E.
  - destruct l1; discriminate E.
  - peel E. eapply IHscan_log. exact E.
  - peel E. peel E. destruct x0; discriminate E.
  - peel E. peel E. peel E.
    + subst l2. split; reflexivity.
    + destruct x1; discriminate E.
  - peel E. peel E. peel E.
    + injection E as _ _ _ _ Er. contradiction.
    + eapply IHscan_log. exact E.
  - peel E. peel E. eapply IHscan_log. exact E.
Qed.

(** The state behind [userdata] after a scan is what the callback has made
    of it on the deliveries of the log. *)
Lemma scan_replay :
  forall U (data : memory) (callback : option (@dc_dive_callback_t U))
         fuel previous current (u : U),
    final (scan data callback fuel previous current u)
    = replay data callback (trace (scan data callback fuel previous current u)) u.
Proof.
  intros U data callback fuel.
  induction fuel as [|fuel IH]; intros previous current u; [reflexivity|].
  cbn [scan].
  destruct (current >? 0); [|reflexivity].
  unfold bind, log, ret.
  destruct (memcmp (shift data (u32 (current - 1))) header =? 0).
  - destruct (u32 (u32 (current - 1)
                   + array_uint32_le (shift data (u32 (current - 1) + 4))) >? previous);
      [reflexivity|].
    unfold call_stops. destruct callback as [f|].
    + unfold bind, get, put, log, ret.
      destruct (f (shift data (u32 (current - 1)))
                  (array_uint32_le (shift data (u32 (current - 1) + 4)))
                  (shift data (u32 (current - 1) + 8)) 4 u) as [r u'] eqn:Ef.
      cbn [fst snd app].
      destruct (r =? 0).
      * cbn. rewrite Ef. reflexivity.
      * match goal with
        | |- context [scan data (Some f) fuel ?pr ?cu u'] =>
          specialize (IH pr cu u');
          destruct (scan data (Some f) fuel pr cu u') as [[o w] t]
        end.
        cbn in *. rewrite Ef. exact IH.
    + cbn [bind ret fst snd app]. unfold ret.
      match goal with
      | |- context [scan data None fuel ?pr ?cu u] =>
        specialize (IH pr cu u);
        destruct (scan data None fuel pr cu u) as [[o w] t]
      end.
      cbn in *. exact IH.
  - specialize (IH previous (u32 (current - 1)) u).
    destruct (scan data callback fuel previous (u32 (current - 1)) u) as [[o w] t].
    cbn in *. exact IH.
Qed.

(** C2, as amended: for every dump buffer the dive splitter tests no
    position when the size is below 5 and tests position size - 5 first
    otherwise; a position p where the marker is not found is followed by
    p - 1, and a position where it is found by the read of the length at
    p + 4; the length read is followed by the delivery of the record or,
    without a callback, by position p - 5; a delivered record at p is
    followed by p - 5, and only if the consumer did not stop and p is at
    least 5; the scan ends at position 0, with a length read, with a
    consumer that stops, or with a record at a position below 5. *)
Theorem splitter_scan_order :
  forall U (data : memory) (size : Z) (callback : option (@dc_dive_callback_t U))
         abstract (u : U),
    0 <= size <= UINT_MAX ->
    abstract = None \/ device_is_uwatec_smart abstract = true ->
    (size < 5 -> trace (uwatec_smart_extract_dives data size callback abstract u) = [])
    /\ (5 <= size ->
        exists t',
          trace (uwatec_smart_extract_dives data size callback abstract u)
          = Compare (size - 5) :: t')
    /\ (forall x y,
          adjacent x y (trace (uwatec_smart_extract_dives data size callback abstract u)) ->
          follows x y)
    /\ (forall l e,
          trace (uwatec_smart_extract_dives data size callback abstract u) = l ++ [e] ->
          may_end e).
Proof.
  intros U data size callback abstract u Hs Ha.
  pose proof (extract_dives_scan_log U data size callback abstract u Hs Ha) as H.
  split; [|split; [|split]].
  - intros Hlt. eapply scan_log_done; [exact H|].
    destruct (size >=? 4) eqn:E; lia.
  - intros Hge.
    assert (E : (size >=? 4) = true) by (rewrite Z.geb_leb; apply Z.leb_le; lia).
    rewrite E in H.
    destruct (scan_log_head _ _ _ _ H ltac:(lia)) as [t' Ht].
    exists t'. rewrite Ht. f_equal. f_equal. lia.
  - intros x y Hadj. eapply scan_log_follows; [exact H | exact Hadj].
  - intros l e He. eapply scan_log_last; [exact H | exact He].
Qed.

Lemma splitter_scan_order_witness :
  (0 <= 12 <= UINT_MAX /\ (@None uwatec_smart_device_t = None \/ device_is_uwatec_smart None = true)
   /\ 5 <= 12)
  /\ exists t',
      trace (uwatec_smart_extract_dives
               (mem_of_list [x00; x00; x00; x00; x00; x00; x00; x00; xa5; xa5; x5a; x5a])
               12 (Some (keep 1)) None [])
      = Compare (12 - 5) :: t'.
Proof.
  assert (Hs : 0 <= 12 <= UINT_MAX) by (unfold UINT_MAX; lia).
  assert (Ha : @None uwatec_smart_device_t = None \/ device_is_uwatec_smart None = true)
    by (left; reflexivity).
  assert (H5 : 5 <= 12) by lia.
  split; [split; [exact Hs | split; [exact Ha | exact H5]]|].
  exact (proj1 (proj2 (splitter_scan_order (list Z)
                         (mem_of_list [x00; x00; x00; x00; x00; x00; x00; x00;
                                       xa5; xa5; x5a; x5a])
                         12 (Some (keep 1)) None [] Hs Ha)) H5).
Defined.

(** C2, as stated, fails: with a marker in the last four of twelve bytes
    the first position tested is 7, not 8, and position 8 is never tested;
    and after the record at position 9 of a 21-byte buffer the next
    position tested is 4, not 5. *)
Lemma splitter_skips_size_minus_4 :
  trace (uwatec_smart_extract_dives
           (mem_of_list [x00; x00; x00; x00; x00; x00; x00; x00; xa5; xa5; x5a; x5a])
           12 (Some (keep 1)) None [])
  = [Compare 7; Compare 6; Compare 5; Compare 4; Compare 3; Compare 2; Compare 1;
     Compare 0]
  /\ trace (uwatec_smart_extract_dives
              (mem_of_list [x00; x00; x00; x00; x00; x00; x00; x00; x00;
                            xa5; xa5; x5a; x5a; x0c; x00; x00; x00;
                            x01; x02; x03; x04])
              21 (Some (keep 1)) None [])
     = [Compare 16; Compare 15; Compare 14; Compare 13; Compare 12; Compare 11;
        Compare 10; Compare 9; ReadLength 13; Callback 9 12 17 4 1;
        Compare 4; Compare 3; Compare 2; Compare 1; Compare 0].
Proof.
  split; vm_compute; reflexivity.
Qed.

(** C6 fails on the code: in the 13-byte buffer with the marker at
    position 1 and the length FF FF FF FF, the sum 1 + 4294967295 wraps to
    0, the check against the bound 13 passes, and a record of 4294967295
    bytes is delivered with success. *)
Theorem overlap_check_wraps :
  trace (uwatec_smart_extract_dives
           (mem_of_list [x00; xa5; xa5; x5a; x5a; xff; xff; xff; xff;
                         x00; x00; x00; x00])
           13 (Some (keep 1)) None [])
  = [Compare 8; Compare 7; Compare 6; Compare 5; Compare 4; Compare 3; Compare 2;
     Compare 1; ReadLength 5; Callback 1 4294967295 9 4 1]
  /\ result (uwatec_smart_extract_dives
               (mem_of_list [x00; xa5; xa5; x5a; x5a; xff; xff; xff; xff;
                             x00; x00; x00; x00])
               13 (Some (keep 1)) None [])
     = Returned DC_STATUS_SUCCESS
  /\ payloads_within 13
       (trace (uwatec_smart_extract_dives
                 (mem_of_list [x00; xa5; xa5; x5a; x5a; xff; xff; xff; xff;
                               x00; x00; x00; x00])
                 13 (Some (keep 1)) None []))
     = false.
Proof.
  repeat split; vm_compute; reflexivity.
Qed.

(** What the overflow check does ensure: the end of every delivered
    payload, reduced to an unsigned int, is at or before the start of the
    record delivered before it. *)
Lemma scan_payloads_u32_gen :
  forall U (data : memory) (callback : option (@dc_dive_callback_t U))
         fuel previous current (u : U) bound,
    is_some callback = false \/ bound = previous ->
    payloads_within_u32 bound (trace (scan data callback fuel previous current u))
    = true.
Proof.
  intros U data callback fuel.
  induction fuel as [|fuel IH]; intros previous current u bound Hb; [reflexivity|].
  cbn [scan].
  destruct (current >? 0); [|reflexivity].
  unfold bind, log, ret.
  destruct (memcmp (shift data (u32 (current - 1))) header =? 0).
  - destruct (u32 (u32 (current - 1)
                   + array_uint32_le (shift data (u32 (current - 1) + 4))) >? previous)
      eqn:Egt; [reflexivity|].
    rewrite Z.gtb_ltb in Egt. apply Z.ltb_ge in Egt. apply Z.leb_le in Egt.
    unfold call_stops. destruct callback as [f|].
    + destruct Hb as [Hb | ->]; [discriminate Hb|].
      unfold bind, get, put, log, ret.
      destruct (f (shift data (u32 (current - 1)))
                  (array_uint32_le (shift data (u32 (current - 1) + 4)))
                  (shift data (u32 (current - 1) + 8)) 4 u) as [r u'].
      cbn [fst snd app].
      destruct (r =? 0).
      * cbn. rewrite Egt. reflexivity.
      * match goal with
        | |- context [scan data (Some f) fuel ?pr ?cu u'] =>
          specialize (IH pr cu u' pr (or_intror eq_refl));
          destruct (scan data (Some f) fuel pr cu u') as [[o w] t]
        end.
        cbn in *. rewrite Egt. exact IH.
    + cbn [bind ret fst snd app]. unfold ret.
      match goal with
      | |- context [scan data None fuel ?pr ?cu u] =>
        specialize (IH pr cu u bound (or_introl eq_refl));
        destruct (scan data None fuel pr cu u) as [[o w] t]
      end.
      cbn in *. exact IH.
  - specialize (IH previous (u32 (current - 1)) u bound Hb).
    destruct (scan data callback fuel previous (u32 (current - 1)) u) as [[o w] t].
    cbn in *. exact IH.
Qed.

Lemma extract_dives_payloads_u32 :
  forall U (data : memory) (size : Z) (callback : option (@dc_dive_callback_t U))
         abstract (u : U),
    payloads_within_u32 size
      (trace (uwatec_smart_extract_dives data size callback abstract u)) = true.
Proof.
  intros U data size callback abstract u.
  unfold uwatec_smart_extract_dives.
  destruct (match abstract with
            | Some _ => negb (device_is_uwatec_smart abstract)
            | None => false
            end); [reflexivity|].
  apply scan_payloads_u32_gen. right. reflexivity.
Qed.

(** Where no sum of position and length exceeds [UINT_MAX], the check is
    the one C6 describes. *)
Lemma payloads_within_exact :
  forall t previous,
    payloads_within_u32 previous t = true ->
    (forall p len f fs r, In (Callback p len f fs r) t -> 0 <= p + len <= UINT_MAX) ->
    payloads_within previous t = true.
Proof.
  induction t as [|e t IH]; intros previous H Hr; [reflexivity|].
  destruct e as [p|q|p len f fs r]; cbn in *.
  - apply IH; [exact H|]. intros. eapply Hr. right. eassumption.
  - apply IH; [exact H|]. intros. eapply Hr. right. eassumption.
  - apply andb_true_iff in H. destruct H as [H1 H2].
    rewrite u32_small in H1 by (eapply Hr; left; reflexivity).
    rewrite H1. cbn. apply IH; [exact H2|].
    intros. eapply Hr. right. eassumption.
Qed.

Lemma scan_log_returns :
  forall cb c o t, scan_log cb c o t -> exists rc, o = Returned rc.
Proof.
  intros cb c o t H. induction H; try assumption; eexists; reflexivity.
Qed.

(** The splitter returns: the iterations the model grants are enough. *)
Lemma extract_dives_returns :
  forall U (data : memory) (size : Z) (callback : option (@dc_dive_callback_t U))
         abstract (u : U),
    0 <= size <= UINT_MAX ->
    exists rc,
      result (uwatec_smart_extract_dives data size callback abstract u) = Returned rc.
Proof.
  intros U data size callback abstract u Hs.
  destruct abstract as [d|] eqn:Ea.
  - destruct (device_is_uwatec_smart (Some d)) eqn:Ed.
    + eapply scan_log_returns.
      exact (extract_dives_scan_log U data size callback (Some d) u Hs (or_intror Ed)).
    + unfold uwatec_smart_extract_dives. rewrite Ed. eexists. reflexivity.
  - eapply scan_log_returns.
    exact (extract_dives_scan_log U data size callback None u Hs (or_introl eq_refl)).
Qed.

(** C10 fails on the code: in the five-byte buffer A5 A5 5A 5A 00 the
    marker is matched at position 0 and the length is read from positions
    4 to 7, of which only position 4 is inside the buffer. *)
Theorem length_read_past_size :
  trace (uwatec_smart_extract_dives
           (mem_of_list [xa5; xa5; x5a; x5a; x00]) 5 (Some (keep 1)) None [])
  = [Compare 0; ReadLength 4; Callback 0 0 8 4 1]
  /\ lengths_within 5
       (trace (uwatec_smart_extract_dives
                 (mem_of_list [xa5; xa5; x5a; x5a; x00]) 5 (Some (keep 1)) None []))
     = false.
Proof.
  split; vm_compute; reflexivity.
Qed.

(** *** The handshake *)

(** X7: a handshake that returns success has written the first byte of
    1B 10 27 00 00 and then the five bytes 1C 10 27 00 00, was answered one
    byte each time, both bytes being 0x01, and has done nothing else. *)
Theorem handshake_success :
  forall Sock (irda : irda_t Sock) (w : world Sock),
    result (uwatec_smart_handshake irda w) = DC_STATUS_SUCCESS ->
    exists n1 m1 a1 n2 m2 a2,
      trace (uwatec_smart_handshake irda w)
      = [Write handshake_stage1 1 n1; Answer handshake_stage1 1 m1 a1;
         Write handshake_stage2 5 n2; Answer handshake_stage2 1 m2 a2]
      /\ u32 n1 = 1 /\ u32 m1 = 1 /\ nth 0 a1 x00 = x01
      /\ u32 n2 = 5 /\ u32 m2 = 1 /\ nth 0 a2 x00 = x01.
Proof.
  intros Sock irda w.
  unfold uwatec_smart_handshake, bind, ret.
  repeat first
    [ rewrite transfer_cases
    | rewrite EXITCODE_not_success
    | match goal with
      | |- context [negb (u32 ?n =? ?c)] => destruct (negb (u32 n =? c)) eqn:?
      | |- context [negb (uint8 ?a =? 1)] => destruct (negb (uint8 a =? 1)) eqn:?
      end
    | progress cbn [fst snd is_success negb app final trace result socket device buffer
                    set_opcode tl] ].
  all: try (intros H; unfold EXITCODE in H;
            repeat match type of H with
                   | context [if ?c then _ else _] => destruct c
                   end; discriminate H).
  intros _. norm_bool.
  do 6 eexists.
  split; [reflexivity|].
  repeat match goal with
         | |- _ /\ _ => split
         end;
    try assumption;
    apply uint8_inj; assumption.
Qed.

(** X8: a handshake whose stage is answered in full with a byte other
    than 0x01 returns ProtocolError; the stage-2 frame is written only
    after stage 1 was answered in full with 0x01; and the status is one of
    success, ProtocolError, IoError and TimeoutError. *)
Theorem handshake_failure :
  forall Sock (irda : irda_t Sock) (w : world Sock),
    (forall c m a,
        In (Answer c 1 m a) (trace (uwatec_smart_handshake irda w)) ->
        u32 m = 1 -> nth 0 a x00 <> x01 ->
        result (uwatec_smart_handshake irda w) = DC_STATUS_PROTOCOL)
    /\ (forall c n,
          In (Write c 5 n) (trace (uwatec_smart_handshake irda w)) ->
          c = handshake_stage2
          /\ exists m a,
               In (Answer handshake_stage1 1 m a) (trace (uwatec_smart_handshake irda w))
               /\ u32 m = 1 /\ nth 0 a x00 = x01)
    /\ In (result (uwatec_smart_handshake irda w))
          [DC_STATUS_SUCCESS; DC_STATUS_PROTOCOL; DC_STATUS_IO; DC_STATUS_TIMEOUT].
Proof.
  intros Sock irda w.
  unfold uwatec_smart_handshake, bind, ret.
  repeat first
    [ rewrite transfer_cases
    | rewrite EXITCODE_not_success
    | match goal with
      | |- context [negb (u32 ?n =? ?c)] => destruct (negb (u32 n =? c)) eqn:?
      | |- context [negb (uint8 ?a =? 1)] => destruct (negb (uint8 a =? 1)) eqn:?
      end
    | progress cbn [fst snd is_success negb app final trace result socket device buffer
                    set_opcode tl] ].
  all: norm_bool.
  all: split; [|split].
  all: try solve [intros c m a HIn Hm Ha; in_cases;
                  injection HIn as E1 E2 E3; subst c m a;
                  first [ reflexivity
                        | contradiction
                        | exfalso; apply Ha; apply uint8_inj; assumption ]].
  all: try solve [intros c n HIn; in_cases].
  all: try solve [intros c n HIn; in_cases;
                  injection HIn as E1 E2; subst c n;
                  split; [reflexivity|];
                  do 2 eexists;
                  split; [cbn; right; left; reflexivity|];
                  split; [assumption | apply uint8_inj; assumption]].
  all: try solve [unfold EXITCODE; cbn;
                  repeat match goal with
                         | |- context [if ?c then _ else _] => destruct c
                         end; tauto].
Qed.

Lemma handshake_success_witness :
  exists n1 m1 a1 n2 m2 a2,
    trace (uwatec_smart_handshake scripted
             (dump_world [Written 1; Received 1 [x01]; Written 5; Received 1 [x01]]))
    = [Write handshake_stage1 1 n1; Answer handshake_stage1 1 m1 a1;
       Write handshake_stage2 5 n2; Answer handshake_stage2 1 m2 a2]
    /\ u32 n1 = 1 /\ u32 m1 = 1 /\ nth 0 a1 x00 = x01
    /\ u32 n2 = 5 /\ u32 m2 = 1 /\ nth 0 a2 x00 = x01.
Proof.
  apply (handshake_success (list reply) scripted
           (dump_world [Written 1; Received 1 [x01]; Written 5; Received 1 [x01]])).
  reflexivity.
Defined.

(** *** The fingerprint *)

(** Every write of the version query is of one byte. *)
Lemma version_write_sizes :
  forall Sock (irda : irda_t Sock) data size (w : world Sock) c k n,
    In (Write c k n) (trace (uwatec_smart_device_version irda data size w)) -> k = 1.
Proof.
  intros Sock irda data size w c k n.
  unfold uwatec_smart_device_version.
  destruct (size <? UWATEC_SMART_VERSION_SIZE); [intros []|].
  unfold bind, ret.
  repeat first
    [ rewrite transfer_cases
    | match goal with
      | |- context [negb (u32 ?n =? ?c)] => destruct (negb (u32 n =? c))
      end
    | rewrite EXITCODE_not_success
    | progress cbn [fst snd is_success negb app final trace socket device buffer] ].
  all: intros HIn; in_cases; injection HIn as E1 E2 E3; symmetry; exact E2.
Qed.

(** The nine-byte commands of a dump carry the device's timestamp, least
    significant byte first, after the opcode. *)
Lemma dump_queries :
  forall Sock (irda : irda_t Sock) now resize_ok fuel (w : world Sock) d c n,
    device w = Some d ->
    In (Write c 9 n) (trace (uwatec_smart_device_dump irda now resize_ok fuel w)) ->
    (hd x00 c = xc6 \/ hd x00 c = xc4)
    /\ tl c = [byte_of_Z (timestamp d);
               byte_of_Z (Z.shiftr (timestamp d) 8);
               byte_of_Z (Z.shiftr (timestamp d) 16);
               byte_of_Z (Z.shiftr (timestamp d) 24);
               x10; x27; x00; x00].
Proof.
  intros Sock irda now resize_ok fuel w d c n Hdev.
  unfold uwatec_smart_device_dump.
  unfold_device. rewrite Hdev.
  destruct (negb (device_is_uwatec_smart (Some d))); [simpl_run; intros []|].
  destruct (buffer w) as [b|]; [|simpl_run; intros []].
  simpl_run.
  match goal with
  | |- context [uwatec_smart_device_version irda ?da ?sz ?w'] =>
    pose proof (version_run Sock irda da sz w') as (Hd & Hb & Hv);
    pose proof (version_write_sizes Sock irda da sz w' c 9 n) as Hk;
    destruct (uwatec_smart_device_version irda da sz w') as [[rv wv] tv]
  end.
  simpl_run.
  destruct (negb (is_success (fst rv))).
  { simpl_run. intros HIn. in_cases. apply Hk in HIn. discriminate HIn. }
  simpl_run. rewrite Hd, Hb. simpl_run.
  repeat step_dump resize_ok.
  all: intros HIn; in_cases.
  all: try (apply Hk in HIn; discriminate HIn).
  all: try (use_forall; contradiction).
  all: injection HIn as E1 E2; subst c; cbn; auto.
Qed.

(** X9: a four-byte fingerprint is accepted, and the length and data
    queries of the next dump carry those four bytes unchanged, in the same
    order, between the opcode and the trailer 10 27 00 00; an empty
    fingerprint is accepted too and makes the queries carry four zero
    bytes. *)
Theorem fingerprint_reaches_queries :
  forall Sock (irda : irda_t Sock) now resize_ok fuel (w : world Sock) (data : memory),
    device_is_uwatec_smart (device w) = true ->
    (result (uwatec_smart_device_set_fingerprint data 4 w) = DC_STATUS_SUCCESS
     /\ forall c n,
          In (Write c 9 n)
             (trace (uwatec_smart_device_dump irda now resize_ok fuel
                       (final (uwatec_smart_device_set_fingerprint data 4 w)))) ->
          tl c = [data 0; data 1; data 2; data 3; x10; x27; x00; x00])
    /\ (result (uwatec_smart_device_set_fingerprint data 0 w) = DC_STATUS_SUCCESS
        /\ forall c n,
             In (Write c 9 n)
                (trace (uwatec_smart_device_dump irda now resize_ok fuel
                          (final (uwatec_smart_device_set_fingerprint data 0 w)))) ->
             tl c = [x00; x00; x00; x00; x10; x27; x00; x00]).
Proof.
  intros Sock irda now resize_ok fuel w data Hsmart.
  unfold uwatec_smart_device_set_fingerprint, set_device_timestamp, bind, ret, get, put.
  rewrite Hsmart. cbn [negb andb Z.eqb Pos.eqb result final fst snd].
  destruct (device w) as [d|] eqn:Hdev; [|discriminate Hsmart].
  cbn [option_map].
  split; (split; [reflexivity|]); intros c n HIn.
  - eapply dump_queries in HIn; [|reflexivity].
    destruct HIn as [_ Ht]. rewrite Ht. cbn [timestamp].
    destruct (uint32_le_bytes data) as (E0 & E1 & E2 & E3).
    rewrite E0, E1, E2, E3. reflexivity.
  - eapply dump_queries in HIn; [|reflexivity].
    destruct HIn as [_ Ht]. rewrite Ht. reflexivity.
Qed.

Lemma fingerprint_reaches_queries_witness :
  device_is_uwatec_smart (device (dump_world (version_script ++ [Written 9]))) = true
  /\ forall c n,
       In (Write c 9 n)
          (trace (uwatec_smart_device_dump scripted 0 (fun _ => true) 0
                    (final (uwatec_smart_device_set_fingerprint
                              (mem_of_list [x78; x56; x34; x12]) 4
                              (dump_world (version_script ++ [Written 9])))))) ->
       tl c = [x78; x56; x34; x12; x10; x27; x00; x00].
Proof.
  split; [reflexivity|].
  exact (proj2 (proj1 (fingerprint_reaches_queries (list reply) scripted 0 (fun _ => true) 0
                         (dump_world (version_script ++ [Written 9]))
                         (mem_of_list [x78; x56; x34; x12]) eq_refl))).
Defined.

(** A fingerprint of any other size is refused, and so is one for a
    device of another family; the timestamp stays as it was. *)
Lemma set_fingerprint_refused :
  forall Sock (w : world Sock) (data : memory) size,
    size <> 0 -> size <> 4 ->
    uwatec_smart_device_set_fingerprint data size w = (DC_STATUS_INVALIDARGS, w, []).
Proof.
  intros Sock w data size H0 H4.
  unfold uwatec_smart_device_set_fingerprint, bind, ret, get.
  apply Z.eqb_neq in H0. apply Z.eqb_neq in H4. rewrite H0, H4.
  destruct (negb (device_is_uwatec_smart (device w))); reflexivity.
Qed.

(** *** The dump loop *)

Lemma chunk_length_fits :
  forall length nbytes a,
    0 <= nbytes < length -> length <= UINT_MAX ->
    let len := if u32 a >? 32 then u32 a else 32 in
    let len := if u32 (nbytes + len) >? length then u32 (length - nbytes) else len in
    0 <= u32 (nbytes + len) <= length.
Proof.
  intros length nbytes a Hn Hl. cbv zeta.
  destruct (u32 (nbytes + (if u32 a >? 32 then u32 a else 32)) >? length) eqn:E.
  - rewrite (u32_small (length - nbytes)) by (unfold UINT_MAX in *; lia).
    replace (nbytes + (length - nbytes)) with length by lia.
    rewrite u32_small by (unfold UINT_MAX in *; lia). lia.
  - rewrite Z.gtb_ltb in E. apply Z.ltb_ge in E.
    split; [|exact E]. unfold u32. apply Z.mod_pos_bound. reflexivity.
Qed.

(** A loop that returns success ends on a progress event whose [current]
    has grown by what was left to read. *)
Lemma dump_loop_success :
  forall Sock (irda : irda_t Sock) fuel length nbytes progress (w : world Sock) k,
    0 <= nbytes <= length -> length <= UINT_MAX ->
    current progress = u32 (k + nbytes) ->
    result (dump_loop irda fuel length nbytes progress w) = Returned DC_STATUS_SUCCESS ->
    (nbytes = length /\ trace (dump_loop irda fuel length nbytes progress w) = [])
    \/ exists t p,
         trace (dump_loop irda fuel length nbytes progress w)
         = t ++ [Emit (DC_EVENT_PROGRESS p)]
         /\ current p = u32 (k + length) /\ maximum p = maximum progress.
Proof.
  intros Sock irda fuel. induction fuel as [|fuel IH];
    intros length nbytes progress w k Hn Hl Hc.
  - cbn. discriminate.
  - cbn [dump_loop]. destruct (nbytes <? length) eqn:El.
    2:{ intros _. left. apply Z.ltb_ge in El. split; [lia | reflexivity]. }
    apply Z.ltb_lt in El.
    unfold socket_available, socket_read, buffer_store, device_event_emit.
    unfold bind, ret, log, get, put.
    destruct (irda_socket_available irda (socket w)) as [a s1].
    cbn [fst snd app socket device buffer].
    pose proof (chunk_length_fits length nbytes a (conj (proj1 Hn) El) Hl) as Hfit.
    cbv zeta in Hfit.
    match goal with
    | |- context [irda_socket_read irda s1 ?len] =>
      set (L := len) in *;
      destruct (irda_socket_read irda s1 L) as [[n bytes] s2]
    end.
    cbn [fst snd app socket device buffer].
    destruct (negb (u32 n =? L)) eqn:En.
    + cbn. intros H. injection H as H.
      pose proof (EXITCODE_not_success n) as Hx. rewrite H in Hx. discriminate Hx.
    + apply negb_false_iff in En. apply Z.eqb_eq in En.
      assert (Hnb : u32 (nbytes + n) = u32 (nbytes + L)).
      { rewrite <- En. rewrite SuuntoSolutionSpec.u32_add_r. reflexivity. }
      assert (Hcur : u32 (u32 (k + nbytes) + n) = u32 (k + u32 (nbytes + L))).
      { rewrite u32_add_l, SuuntoSolutionSpec.u32_add_r, <- En.
        replace (k + (nbytes + u32 n)) with (k + nbytes + u32 n) by lia.
        rewrite SuuntoSolutionSpec.u32_add_r. reflexivity. }
      match goal with
      | |- context [dump_loop irda fuel ?l ?nb ?pr ?w'] =>
        specialize (IH l nb pr w' k);
        destruct (dump_loop irda fuel l nb pr w') as [[o w3] t3]
      end.
      cbn [result final trace fst snd app] in *.
      intros Ho. rewrite Hnb in IH.
      destruct IH as [[E1 E2] | (t & p & E1 & E2 & E3)].
      * exact Hfit.
      * exact Hl.
      * cbn [advance current]. rewrite Hc. exact Hcur.
      * exact Ho.
      * right. subst t3. exists [Available a; Chunk nbytes L n]. eexists.
        split; [reflexivity|]. cbn [advance current maximum].
        split; [|reflexivity].
        rewrite Hc, Hcur, E1. reflexivity.
      * right. subst t3. exists (Available a :: Chunk nbytes L n
                                   :: Emit (DC_EVENT_PROGRESS (advance progress n)) :: t).
        exists p. split; [reflexivity|]. split; [exact E2|]. rewrite E3. reflexivity.
Qed.

(** The loop changes neither the device nor the size of the buffer. *)
Lemma dump_loop_frame :
  forall Sock (irda : irda_t Sock) fuel length nbytes progress (w : world Sock),
    device (final (dump_loop irda fuel length nbytes progress w)) = device w
    /\ option_map bsize (buffer (final (dump_loop irda fuel length nbytes progress w)))
       = option_map bsize (buffer w).
Proof.
  intros Sock irda fuel. induction fuel as [|fuel IH]; intros length nbytes progress w.
  - cbn. auto.
  - cbn [dump_loop]. destruct (nbytes <? length); [|cbn; auto].
    unfold socket_available, socket_read, buffer_store, device_event_emit.
    unfold bind, ret, log, get, put.
    destruct (irda_socket_available irda (socket w)) as [a s1].
    cbn [fst snd app socket device buffer].
    match goal with
    | |- context [irda_socket_read irda s1 ?len] =>
      destruct (irda_socket_read irda s1 len) as [[n bytes] s2]
    end.
    cbn [fst snd app socket device buffer].
    match goal with
    | |- context [negb ?b] => destruct (negb b)
    end.
    + cbn. split; [reflexivity|]. destruct (buffer w); reflexivity.
    + match goal with
      | |- context [dump_loop irda fuel ?l ?nb ?pr ?w'] =>
        specialize (IH l nb pr w'); destruct (dump_loop irda fuel l nb pr w') as [[o w3] t3]
      end.
      cbn in *. destruct IH as [IH1 IH2]. split; [exact IH1|].
      rewrite IH2. destruct (buffer w); reflexivity.
Qed.

(** [l] ends with [x]. *)
Lemma ends_one : forall A (x : A), exists t, [x] = t ++ [x].
Proof.
  intros A x. exists []. reflexivity.
Qed.

Lemma ends_cons :
  forall A (a x : A) l, (exists t, l = t ++ [x]) -> exists t, a :: l = t ++ [x].
Proof.
  intros A a x l [t E]. exists (a :: t). rewrite E. reflexivity.
Qed.

Lemma ends_app :
  forall A (x : A) l' l, (exists t, l = t ++ [x]) -> exists t, l' ++ l = t ++ [x].
Proof.
  intros A x l' l [t E]. exists (l' ++ t). rewrite E. apply app_assoc.
Qed.

Lemma ends_with_progress :
  forall (l : list event) p,
    (exists t, l = t ++ [Emit (DC_EVENT_PROGRESS p)]) ->
    current p = maximum p ->
    exists t p, l = t ++ [Emit (DC_EVENT_PROGRESS p)] /\ current p = maximum p.
Proof.
  intros l p [t E] H. exists t, p. split; assumption.
Qed.

Ltac ends := repeat first [apply ends_one | apply ends_cons | apply ends_app].

Lemma is_success_inv : forall rc, is_success rc = true -> rc = DC_STATUS_SUCCESS.
Proof.
  intros rc H. destruct rc; try discriminate H. reflexivity.
Qed.

Ltac not_success H :=
  injection H as H;
  match type of H with
  | EXITCODE ?n = _ =>
    let Hx := fresh in
    pose proof (EXITCODE_not_success n) as Hx; rewrite H in Hx; discriminate Hx
  | ?rc = DC_STATUS_SUCCESS =>
    match goal with
    | Hn : is_success rc = false |- _ => rewrite H in Hn; discriminate Hn
    end
  | _ => discriminate H
  end.

Ltac loop_facts k :=
  match goal with
  | |- context [dump_loop ?i ?f ?l ?n ?p ?w] =>
    let HLs := fresh "HLs" in
    let HLf := fresh "HLf" in
    pose proof (dump_loop_success _ i f l n p w k) as HLs;
    pose proof (dump_loop_frame _ i f l n p w) as HLf;
    destruct (dump_loop i f l n p w) as [[? ?] ?]
  end.

(** X10: a dump that returns success ends on a progress event whose
    [current] equals its [maximum]. *)
Theorem dump_success_progress :
  forall Sock (irda : irda_t Sock) now resize_ok fuel (w : world Sock),
    result (uwatec_smart_device_dump irda now resize_ok fuel w)
    = Returned DC_STATUS_SUCCESS ->
    exists t p,
      trace (uwatec_smart_device_dump irda now resize_ok fuel w)
      = t ++ [Emit (DC_EVENT_PROGRESS p)]
      /\ current p = maximum p.
Proof.
  intros Sock irda now resize_ok fuel w.
  unfold uwatec_smart_device_dump.
  unfold_device.
  destruct (device w) as [d|]; [|simpl_run; discriminate].
  destruct (negb (device_is_uwatec_smart (Some d))); [simpl_run; discriminate|].
  destruct (buffer w) as [b|]; [|simpl_run; discriminate].
  simpl_run.
  match goal with
  | |- context [uwatec_smart_device_version irda ?da ?sz ?w'] =>
    pose proof (version_run Sock irda da sz w') as (Hd & Hb & Hv);
    destruct (uwatec_smart_device_version irda da sz w') as [[rv wv] tv]
  end.
  simpl_run.
  destruct (is_success (fst rv)) eqn:Hrv; simpl_run;
    [|intros H; not_success H].
  rewrite Hd, Hb. simpl_run.
  repeat first [loop_facts 17 | step_dump resize_ok].
  all: intros H; try (not_success H); norm_bool.
  - eapply ends_with_progress; [ends | reflexivity].
  - match type of HLs with
    | 0 <= 0 <= array_uint32_le ?m -> _ =>
      pose proof (array_uint32_le_range m) as HR
    end.
    destruct HLs as [[E _] | (t & p & E1 & E2 & E3)];
      [lia | exact (proj2 HR) | reflexivity | exact H | congruence | ].
    eapply ends_with_progress; [ends; exists t; exact E1 | ].
    rewrite E2, E3. cbn [advance maximum].
    rewrite SuuntoSolutionSpec.u32_add_r. f_equal. lia.
Qed.

Lemma dump_success_progress_witness :
  exists t p,
    trace (uwatec_smart_device_dump scripted 0 (fun _ => true) 2
             (dump_world progress_script))
    = t ++ [Emit (DC_EVENT_PROGRESS p)]
    /\ current p = maximum p.
Proof.
  apply (dump_success_progress (list reply) scripted 0 (fun _ => true) 2
           (dump_world progress_script)).
  vm_compute. reflexivity.
Defined.

(** *** The version query *)

Ltac split_bytes l :=
  destruct l as [|? [|? [|? [|? [|? ?]]]]].

(** What a version query that returns success has done. *)
Lemma version_success :
  forall Sock (irda : irda_t Sock) data size (w : world Sock),
    length data = 9%nat ->
    fst (result (uwatec_smart_device_version irda data size w)) = DC_STATUS_SUCCESS ->
    exists n1 m1 a1 n2 m2 a2 n3 m3 a3,
      trace (uwatec_smart_device_version irda data size w)
      = [Write [x10] 1 n1; Answer [x10] 1 m1 a1;
         Write [x14] 1 n2; Answer [x14] 4 m2 a2;
         Write [x1a] 1 n3; Answer [x1a] 4 m3 a3]
      /\ snd (result (uwatec_smart_device_version irda data size w)) = a1 ++ a2 ++ a3
      /\ length a1 = 1%nat /\ length a2 = 4%nat /\ length a3 = 4%nat.
Proof.
  intros Sock irda data size w Hlen.
  do 10 (destruct data as [|? data]; try discriminate Hlen).
  unfold uwatec_smart_device_version.
  destruct (size <? UWATEC_SMART_VERSION_SIZE); [cbn; discriminate|].
  unfold bind, ret.
  repeat first
    [ rewrite transfer_cases
    | match goal with
      | |- context [negb (u32 ?n =? ?c)] => destruct (negb (u32 n =? c))
      end
    | rewrite EXITCODE_not_success
    | progress cbn [fst snd is_success negb app final trace result socket device buffer] ].
  all: try (intros H; unfold EXITCODE in H;
            repeat match type of H with
                   | context [if ?c then _ else _] => destruct c
                   end; discriminate H).
  intros _. do 9 eexists. split; [reflexivity|].
  repeat match goal with
         | |- context [snd (fst (irda_socket_read ?i ?s ?n))] =>
           let r := fresh "r" in
           generalize (snd (fst (irda_socket_read i s n))); intros r
         end.
  split_bytes r; split_bytes r0; split_bytes r1; cbn; auto.
Qed.

(** X11: a version query that returns success for a nine-byte array has
    made exactly three transfers, of the commands 0x10, 0x14 and 0x1A in
    this order, asking for 1, 4 and 4 bytes, and the array then holds the
    three answers one after the other. *)
Theorem version_layout :
  forall Sock (irda : irda_t Sock) data size (w : world Sock),
    length data = 9%nat ->
    fst (result (uwatec_smart_device_version irda data size w)) = DC_STATUS_SUCCESS ->
    exists n1 m1 a1 n2 m2 a2 n3 m3 a3,
      trace (uwatec_smart_device_version irda data size w)
      = [Write [x10] 1 n1; Answer [x10] 1 m1 a1;
         Write [x14] 1 n2; Answer [x14] 4 m2 a2;
         Write [x1a] 1 n3; Answer [x1a] 4 m3 a3]
      /\ snd (result (uwatec_smart_device_version irda data size w)) = a1 ++ a2 ++ a3
      /\ length a1 = 1%nat /\ length a2 = 4%nat /\ length a3 = 4%nat.
Proof.
  exact version_success.
Qed.

Lemma version_layout_witness :
  exists n1 m1 a1 n2 m2 a2 n3 m3 a3,
    trace (uwatec_smart_device_version scripted (repeat x00 9) 9 (dump_world version_script))
    = [Write [x10] 1 n1; Answer [x10] 1 m1 a1;
       Write [x14] 1 n2; Answer [x14] 4 m2 a2;
       Write [x1a] 1 n3; Answer [x1a] 4 m3 a3]
    /\ snd (result (uwatec_smart_device_version scripted (repeat x00 9) 9
                      (dump_world version_script)))
       = a1 ++ a2 ++ a3
    /\ length a1 = 1%nat /\ length a2 = 4%nat /\ length a3 = 4%nat.
Proof.
  apply (version_layout (list reply) scripted (repeat x00 9) 9 (dump_world version_script)).
  - reflexivity.
  - reflexivity.
Defined.

(** A version query for fewer than nine bytes is refused before anything
    is written. *)
Lemma version_refused :
  forall Sock (irda : irda_t Sock) data size (w : world Sock),
    size < UWATEC_SMART_VERSION_SIZE ->
    uwatec_smart_device_version irda data size w = (DC_STATUS_NOMEMORY, data, w, []).
Proof.
  intros Sock irda data size w H. unfold uwatec_smart_device_version.
  apply Z.ltb_lt in H. rewrite H. reflexivity.
Qed.

(** The loop writes no command and emits nothing but progress. *)
Lemma dump_loop_events :
  forall Sock (irda : irda_t Sock) fuel length nbytes progress (w : world Sock) e,
    In e (trace (dump_loop irda fuel length nbytes progress w)) ->
    match e with
    | Available _ | Chunk _ _ _ | Emit (DC_EVENT_PROGRESS _) => True
    | _ => False
    end.
Proof.
  intros Sock irda fuel. induction fuel as [|fuel IH]; intros length nbytes progress w e.
  - cbn. intros [].
  - cbn [dump_loop]. destruct (nbytes <? length); [|cbn; intros []].
    unfold socket_available, socket_read, buffer_store, device_event_emit.
    unfold bind, ret, log, get, put.
    destruct (irda_socket_available irda (socket w)) as [a s1].
    cbn [fst snd app socket device buffer].
    match goal with
    | |- context [irda_socket_read irda s1 ?len] =>
      destruct (irda_socket_read irda s1 len) as [[n bytes] s2]
    end.
    cbn [fst snd app socket device buffer].
    match goal with
    | |- context [negb ?b] => destruct (negb b)
    end.
    + cbn. intros [H|[H|[]]]; subst e; exact I.
    + match goal with
      | |- context [dump_loop irda fuel ?l ?nb ?pr ?w'] =>
        specialize (IH l nb pr w' e); destruct (dump_loop irda fuel l nb pr w') as [[o w3] t3]
      end.
      cbn in *. intros [H|[H|[H|H]]]; try (subst e; exact I). exact (IH H).
Qed.

Lemma version_bytes :
  forall a1 a2 a3 : list byte,
    length a1 = 1%nat -> length a2 = 4%nat -> length a3 = 4%nat ->
    nth 0 (a1 ++ a2 ++ a3) x00 = nth 0 a1 x00
    /\ array_uint32_le (mem_of_list (skipn 1 (a1 ++ a2 ++ a3)))
       = array_uint32_le (mem_of_list a2)
    /\ array_uint32_le (mem_of_list (skipn 5 (a1 ++ a2 ++ a3)))
       = array_uint32_le (mem_of_list a3).
Proof.
  intros a1 a2 a3 H1 H2 H3.
  do 2 (destruct a1 as [|? a1]; try discriminate H1).
  do 5 (destruct a2 as [|? a2]; try discriminate H2).
  do 5 (destruct a3 as [|? a3]; try discriminate H3).
  repeat split.
Qed.

Ltac version_facts :=
  match goal with
  | |- context [uwatec_smart_device_version ?irda ?da ?sz ?w'] =>
    let Hd := fresh "Hd" in
    let Hb := fresh "Hb" in
    let Hv := fresh "Hv" in
    let Hvs := fresh "Hvs" in
    pose proof (version_run _ irda da sz w') as (Hd & Hb & Hv);
    pose proof (version_success _ irda da sz w' eq_refl) as Hvs;
    destruct (uwatec_smart_device_version irda da sz w') as [[? ?] ?]
  end.

Ltac loop_events :=
  match goal with
  | |- context [dump_loop ?i ?f ?l ?n ?p ?w] =>
    let HLe := fresh "HLe" in
    let HLf := fresh "HLf" in
    pose proof (dump_loop_events _ i f l n p w) as HLe;
    pose proof (dump_loop_frame _ i f l n p w) as HLf;
    destruct (dump_loop i f l n p w) as [[? ?] ?]
  end.

(** X12: the device information a dump emits has the model from the
    first byte of the answer to command 0x10, firmware 0, and the serial
    number read least significant byte first from the answer to command
    0x14. *)
Theorem dump_devinfo :
  forall Sock (irda : irda_t Sock) now resize_ok fuel (w : world Sock) model firmware serial,
    In (Emit (DC_EVENT_DEVINFO model firmware serial))
       (trace (uwatec_smart_device_dump irda now resize_ok fuel w)) ->
    firmware = 0
    /\ exists m1 a1 m2 a2,
         In (Answer [x10] 1 m1 a1) (trace (uwatec_smart_device_dump irda now resize_ok fuel w))
         /\ In (Answer [x14] 4 m2 a2)
               (trace (uwatec_smart_device_dump irda now resize_ok fuel w))
         /\ model = uint8 (nth 0 a1 x00)
         /\ serial = array_uint32_le (mem_of_list a2).
Proof.
  intros Sock irda now resize_ok fuel w model firmware serial.
  unfold uwatec_smart_device_dump.
  unfold_device.
  destruct (device w) as [d|]; [|simpl_run; intros []].
  destruct (negb (device_is_uwatec_smart (Some d))); [simpl_run; intros []|].
  destruct (buffer w) as [b|]; [|simpl_run; intros []].
  simpl_run.
  version_facts.
  simpl_run.
  destruct (is_success (fst p)) eqn:Hrv; simpl_run.
  2:{ intros HIn. in_cases. use_forall. contradiction. }
  apply is_success_inv in Hrv.
  destruct (Hvs Hrv) as (n1 & m1 & a1 & n2 & m2 & a2 & n3 & m3 & a3 & Et & Es & L1 & L2 & L3).
  destruct (version_bytes a1 a2 a3 L1 L2 L3) as (B1 & B2 & B3).
  rewrite Es, B1, B2, B3. subst l.
  rewrite Hd, Hb. simpl_run.
  repeat first [loop_events | step_dump resize_ok].
  all: intros HIn; in_cases.
  all: try (apply HLe in HIn; contradiction).
  all: injection HIn as E1 E2 E3; subst model firmware serial.
  all: split; [reflexivity|].
  all: exists m1, a1, m2, a2.
  all: split; [in_list|].
  all: split; [in_list|].
  all: split; reflexivity.
Qed.

Lemma dump_devinfo_witness :
  In (Emit (DC_EVENT_DEVINFO 17 0 67305985))
     (trace (uwatec_smart_device_dump scripted 0 (fun _ => true) 2
               (dump_world progress_script)))
  /\ exists m1 a1 m2 a2,
       In (Answer [x10] 1 m1 a1)
          (trace (uwatec_smart_device_dump scripted 0 (fun _ => true) 2
                    (dump_world progress_script)))
       /\ In (Answer [x14] 4 m2 a2)
             (trace (uwatec_smart_device_dump scripted 0 (fun _ => true) 2
                       (dump_world progress_script)))
       /\ 17 = uint8 (nth 0 a1 x00)
       /\ 67305985 = array_uint32_le (mem_of_list a2).
Proof.
  assert (H : In (Emit (DC_EVENT_DEVINFO 17 0 67305985))
                 (trace (uwatec_smart_device_dump scripted 0 (fun _ => true) 2
                           (dump_world progress_script)))) by in_list.
  split; [exact H|].
  exact (proj2 (dump_devinfo (list reply) scripted 0 (fun _ => true) 2
                  (dump_world progress_script) 17 0 67305985 H)).
Defined.

(** X13: the clock event of a dump carries the host time taken during
    the dump and the device time read least significant byte first from
    the answer to command 0x1A, and the device keeps both; its backend and
    its fingerprint timestamp stay as they were. *)
Theorem dump_clock :
  forall Sock (irda : irda_t Sock) now resize_ok fuel (w : world Sock) sys dev,
    In (Emit (DC_EVENT_CLOCK sys dev))
       (trace (uwatec_smart_device_dump irda now resize_ok fuel w)) ->
    sys = now
    /\ (exists m a,
          In (Answer [x1a] 4 m a) (trace (uwatec_smart_device_dump irda now resize_ok fuel w))
          /\ dev = array_uint32_le (mem_of_list a))
    /\ device (final (uwatec_smart_device_dump irda now resize_ok fuel w))
       = option_map (fun d => {| backend := backend d; timestamp := timestamp d;
                                 devtime := dev; systime := sys |})
                    (device w).
Proof.
  intros Sock irda now resize_ok fuel w sys dev.
  unfold uwatec_smart_device_dump.
  unfold_device.
  destruct (device w) as [d|] eqn:Hdev; [|simpl_run; intros []].
  destruct (negb (device_is_uwatec_smart (Some d))); [simpl_run; intros []|].
  destruct (buffer w) as [b|]; [|simpl_run; intros []].
  simpl_run.
  version_facts.
  simpl_run.
  destruct (is_success (fst p)) eqn:Hrv; simpl_run.
  2:{ intros HIn. in_cases. use_forall. contradiction. }
  apply is_success_inv in Hrv.
  destruct (Hvs Hrv) as (n1 & m1 & a1 & n2 & m2 & a2 & n3 & m3 & a3 & Et & Es & L1 & L2 & L3).
  destruct (version_bytes a1 a2 a3 L1 L2 L3) as (B1 & B2 & B3).
  rewrite Es, B1, B2, B3. subst l.
  rewrite Hd, Hb. simpl_run.
  repeat first [loop_events | step_dump resize_ok].
  all: intros HIn; in_cases.
  all: try (apply HLe in HIn; contradiction).
  all: injection HIn as E1 E2; subst sys dev.
  all: split; [reflexivity|].
  all: split; [exists m3, a3; split; [in_list | reflexivity] | ].
  all: try (rewrite Hdev; reflexivity).
  all: rewrite (proj1 HLf), Hdev; reflexivity.
Qed.

Lemma dump_clock_witness :
  In (Emit (DC_EVENT_CLOCK 7 16))
     (trace (uwatec_smart_device_dump scripted 7 (fun _ => true) 2
               (dump_world progress_script)))
  /\ device (final (uwatec_smart_device_dump scripted 7 (fun _ => true) 2
                      (dump_world progress_script)))
     = option_map (fun d => {| backend := backend d; timestamp := timestamp d;
                               devtime := 16; systime := 7 |})
                  (device (dump_world progress_script)).
Proof.
  assert (H : In (Emit (DC_EVENT_CLOCK 7 16))
                 (trace (uwatec_smart_device_dump scripted 7 (fun _ => true) 2
                           (dump_world progress_script)))) by in_list.
  split; [exact H|].
  exact (proj2 (proj2 (dump_clock (list reply) scripted 7 (fun _ => true) 2
                         (dump_world progress_script) 7 16 H))).
Defined.

(** The size of the buffer after a dump that returns success. *)
Lemma dump_success_size :
  forall Sock (irda : irda_t Sock) now resize_ok fuel (w : world Sock),
    result (uwatec_smart_device_dump irda now resize_ok fuel w)
    = Returned DC_STATUS_SUCCESS ->
    exists c m a,
      In (Answer c 4 m a) (trace (uwatec_smart_device_dump irda now resize_ok fuel w))
      /\ hd x00 c = xc6 /\ u32 m = 4
      /\ option_map bsize (buffer (final (uwatec_smart_device_dump irda now resize_ok fuel w)))
         = Some (array_uint32_le (mem_of_list a)).
Proof.
  intros Sock irda now resize_ok fuel w.
  unfold uwatec_smart_device_dump.
  unfold_device.
  destruct (device w) as [d|]; [|simpl_run; discriminate].
  destruct (negb (device_is_uwatec_smart (Some d))); [simpl_run; discriminate|].
  destruct (buffer w) as [b|]; [|simpl_run; discriminate].
  simpl_run.
  match goal with
  | |- context [uwatec_smart_device_version irda ?da ?sz ?w'] =>
    pose proof (version_run Sock irda da sz w') as (Hd & Hb & Hv);
    destruct (uwatec_smart_device_version irda da sz w') as [[rv wv] tv]
  end.
  simpl_run.
  destruct (is_success (fst rv)) eqn:Hrv; simpl_run;
    [|intros H; not_success H].
  rewrite Hd, Hb. simpl_run.
  repeat first [loop_events | step_dump resize_ok].
  all: intros H; try (not_success H); norm_bool.
  - do 3 eexists. split; [right; apply in_or_app; right; in_list|].
    split; [reflexivity|]. split; [eassumption|].
    f_equal. symmetry. assumption.
  - do 3 eexists. split; [right; apply in_or_app; right; in_list|].
    split; [reflexivity|]. split; [eassumption|].
    exact (proj2 HLf).
Qed.

(** X14: a dump that returns success leaves the buffer with the size
    the device gave in its answer to the length query (opcode 0xC6), read
    least significant byte first. *)
Theorem dump_success_buffer :
  forall Sock (irda : irda_t Sock) now resize_ok fuel (w : world Sock),
    result (uwatec_smart_device_dump irda now resize_ok fuel w)
    = Returned DC_STATUS_SUCCESS ->
    exists c m a,
      In (Answer c 4 m a) (trace (uwatec_smart_device_dump irda now resize_ok fuel w))
      /\ hd x00 c = xc6 /\ u32 m = 4
      /\ option_map bsize (buffer (final (uwatec_smart_device_dump irda now resize_ok fuel w)))
         = Some (array_uint32_le (mem_of_list a)).
Proof.
  exact dump_success_size.
Qed.

Lemma dump_success_buffer_witness :
  exists c m a,
    In (Answer c 4 m a)
       (trace (uwatec_smart_device_dump scripted 0 (fun _ => true) 2
                 (dump_world progress_script)))
    /\ hd x00 c = xc6 /\ u32 m = 4
    /\ option_map bsize
         (buffer (final (uwatec_smart_device_dump scripted 0 (fun _ => true) 2
                           (dump_world progress_script))))
       = Some (array_uint32_le (mem_of_list a)).
Proof.
  apply (dump_success_buffer (list reply) scripted 0 (fun _ => true) 2
           (dump_world progress_script)).
  vm_compute. reflexivity.
Defined.

(** *** The chunk reads *)

(** X15: where the announced length is at most 2^31 and the socket
    never reports a negative number of pending bytes, the chunk reads of
    the loop follow one another without gap or overlap from the current
    offset on, each asks for at least one byte, and none reaches beyond the
    announced length; a loop that returns success has asked for exactly
    the bytes that were left. *)
Theorem dump_loop_chunks :
  forall Sock (irda : irda_t Sock) fuel length nbytes progress (w : world Sock),
    0 <= nbytes <= length -> length <= 2 ^ 31 ->
    (forall a, In (Available a) (trace (dump_loop irda fuel length nbytes progress w)) ->
               0 <= a < 2 ^ 31) ->
    tiles nbytes length (trace (dump_loop irda fuel length nbytes progress w)) = true
    /\ (result (dump_loop irda fuel length nbytes progress w) = Returned DC_STATUS_SUCCESS ->
        nbytes + requested (trace (dump_loop irda fuel length nbytes progress w)) = length).
Proof.
  intros Sock irda fuel. induction fuel as [|fuel IH];
    intros length nbytes progress w Hn Hl.
  - cbn. intros _. split; [reflexivity | discriminate].
  - cbn [dump_loop]. destruct (nbytes <? length) eqn:El.
    2:{ intros _. apply Z.ltb_ge in El. cbn. split; [reflexivity | intros _; lia]. }
    apply Z.ltb_lt in El.
    unfold socket_available, socket_read, buffer_store, device_event_emit.
    unfold bind, ret, log, get, put.
    destruct (irda_socket_available irda (socket w)) as [a s1].
    cbn [fst snd app socket device buffer].
    match goal with
    | |- context [irda_socket_read irda s1 ?len] =>
      set (L := len) in *;
      destruct (irda_socket_read irda s1 L) as [[n bytes] s2]
    end.
    cbn [fst snd app socket device buffer].
    assert (HL : (forall a', a' = a -> 0 <= a' < 2 ^ 31) -> 0 < L /\ nbytes + L <= length).
    { intros Ha. specialize (Ha a eq_refl). subst L.
      change (2 ^ 31) with 2147483648 in *.
      rewrite (u32_small a) by (unfold UINT_MAX; lia).
      destruct (a >? 32) eqn:Ea.
      - rewrite Z.gtb_ltb in Ea. apply Z.ltb_lt in Ea.
        rewrite (u32_small (nbytes + a)) by (unfold UINT_MAX; lia).
        destruct (nbytes + a >? length) eqn:Eb.
        + rewrite u32_small by (unfold UINT_MAX; lia). lia.
        + rewrite Z.gtb_ltb in Eb. apply Z.ltb_ge in Eb. lia.
      - rewrite (u32_small (nbytes + 32)) by (unfold UINT_MAX; lia).
        destruct (nbytes + 32 >? length) eqn:Eb.
        + rewrite u32_small by (unfold UINT_MAX; lia). lia.
        + rewrite Z.gtb_ltb in Eb. apply Z.ltb_ge in Eb. lia. }
    clearbody L.
    destruct (negb (u32 n =? L)) eqn:En.
    + cbn. intros Ha.
      destruct HL as [HL1 HL2]; [intros a' ->; apply Ha; left; reflexivity|].
      split.
      * rewrite Z.eqb_refl. cbn.
        apply andb_true_iff. split; [|reflexivity].
        apply andb_true_iff. split; [apply Z.ltb_lt | apply Z.leb_le]; lia.
      * intros H. not_success H.
    + apply negb_false_iff in En. apply Z.eqb_eq in En.
      match goal with
      | |- context [dump_loop irda fuel ?l ?nb ?pr ?w'] =>
        specialize (IH l nb pr w');
        destruct (dump_loop irda fuel l nb pr w') as [[o w3] t3]
      end.
      cbn [result final trace fst snd app] in *.
      intros Ha.
      destruct HL as [HL1 HL2]; [intros a' ->; apply Ha; left; reflexivity|].
      assert (Hnb : u32 (nbytes + n) = nbytes + L).
      { rewrite <- (SuuntoSolutionSpec.u32_add_r nbytes n), En.
        apply u32_small. change (2 ^ 31) with 2147483648 in *. unfold UINT_MAX. lia. }
      rewrite Hnb in IH.
      destruct IH as [IH1 IH2]; [lia | exact Hl | | ].
      { intros a' Ha'. apply Ha. right. right. right. exact Ha'. }
      cbn [tiles requested]. rewrite Z.eqb_refl. split.
      * rewrite IH1. rewrite andb_true_r. cbn.
        apply andb_true_iff. split; [apply Z.ltb_lt | apply Z.leb_le]; lia.
      * intros Ho. specialize (IH2 Ho). lia.
Qed.

Lemma dump_loop_chunks_witness :
  tiles 0 40 (trace (dump_loop scripted 3 40 0 EVENT_PROGRESS_INITIALIZER
                       (dump_world chunk_script))) = true
  /\ (result (dump_loop scripted 3 40 0 EVENT_PROGRESS_INITIALIZER
                (dump_world chunk_script)) = Returned DC_STATUS_SUCCESS ->
      0 + requested (trace (dump_loop scripted 3 40 0 EVENT_PROGRESS_INITIALIZER
                              (dump_world chunk_script))) = 40).
Proof.
  apply (dump_loop_chunks (list reply) scripted 3 40 0 EVENT_PROGRESS_INITIALIZER
           (dump_world chunk_script)).
  - lia.
  - lia.
  - intros a H. vm_compute in H.
    repeat (destruct H as [H|H]; [try discriminate H; injection H as <-; lia|]).
    destruct H.
Defined.

(** The bound on the pending bytes is needed: when the socket reports -1
    after the first chunk, the limit on the packet size wraps around and
    the next read asks for 4294967295 bytes at offset 32 of a buffer of
    40. *)
Example negative_available_overruns :
  In (Chunk 32 4294967295 (-1))
     (trace (dump_loop scripted 3 40 0 EVENT_PROGRESS_INITIALIZER
               (dump_world [Pending 0; Received 32 []; Pending (-1)])))
  /\ tiles 0 40 (trace (dump_loop scripted 3 40 0 EVENT_PROGRESS_INITIALIZER
                          (dump_world [Pending 0; Received 32 []; Pending (-1)])))
     = false.
Proof.
  split; [in_list | vm_compute; reflexivity].
Qed.

(** *** What the splitter delivers *)

Lemma memcmp_header :
  forall a : memory,
    memcmp a header = 0 <->
    a 0 = xa5 /\ a 1 = xa5 /\ a 2 = x5a /\ a 3 = x5a.
Proof.
  intros a. unfold header. cbn [memcmp]. unfold shift. cbn [Z.add Pos.add Pos.succ].
  split.
  - intros H.
    destruct (uint8 (a 0) - uint8 xa5 =? 0) eqn:E0; [|apply Z.eqb_neq in E0; contradiction].
    destruct (uint8 (a 1) - uint8 xa5 =? 0) eqn:E1; [|apply Z.eqb_neq in E1; contradiction].
    destruct (uint8 (a 2) - uint8 x5a =? 0) eqn:E2; [|apply Z.eqb_neq in E2; contradiction].
    destruct (uint8 (a 3) - uint8 x5a =? 0) eqn:E3; [|apply Z.eqb_neq in E3; contradiction].
    apply Z.eqb_eq in E0, E1, E2, E3.
    repeat split; apply uint8_inj; lia.
  - intros (E0 & E1 & E2 & E3). rewrite E0, E1, E2, E3. reflexivity.
Qed.

(** Every delivery of a scan is of a position where the marker was
    found, with the length read behind the marker. *)
Lemma scan_deliveries :
  forall U (data : memory) (callback : option (@dc_dive_callback_t U))
         fuel previous current (u : U) p len f fsize r,
    In (Callback p len f fsize r) (trace (scan data callback fuel previous current u)) ->
    memcmp (shift data p) header = 0
    /\ len = array_uint32_le (shift data (p + 4))
    /\ f = p + 8 /\ fsize = 4
    /\ 0 <= p <= UINT_MAX.
Proof.
  intros U data callback fuel.
  induction fuel as [|fuel IH]; intros previous current u p len f fsize r; [intros []|].
  cbn [scan].
  destruct (current >? 0); [|intros []].
  unfold bind, log, ret.
  assert (Hr : 0 <= u32 (current - 1) <= UINT_MAX).
  { unfold u32, UINT_MAX.
    pose proof (Z.mod_pos_bound (current - 1) (2 ^ 32) eq_refl) as Hm.
    change (2 ^ 32) with 4294967296 in *. lia. }
  destruct (memcmp (shift data (u32 (current - 1))) header =? 0) eqn:Em.
  - apply Z.eqb_eq in Em.
    destruct (u32 (u32 (current - 1)
                   + array_uint32_le (shift data (u32 (current - 1) + 4))) >? previous).
    { cbn. intros [H|[H|[]]]; discriminate H. }
    unfold call_stops. destruct callback as [g|].
    + unfold bind, get, put, log, ret.
      destruct (g (shift data (u32 (current - 1)))
                  (array_uint32_le (shift data (u32 (current - 1) + 4)))
                  (shift data (u32 (current - 1) + 8)) 4 u) as [r' u'].
      cbn [fst snd app].
      assert (Hhere : Callback (u32 (current - 1))
                               (array_uint32_le (shift data (u32 (current - 1) + 4)))
                               (u32 (current - 1) + 8) 4 r'
                      = Callback p len f fsize r ->
                      memcmp (shift data p) header = 0
                      /\ len = array_uint32_le (shift data (p + 4))
                      /\ f = p + 8 /\ fsize = 4 /\ 0 <= p <= UINT_MAX).
      { intros H. injection H as <- <- <- <- <-. auto. }
      destruct (r' =? 0).
      * cbn. intros [H|[H|[H|[]]]]; try discriminate H. exact (Hhere H).
      * match goal with
        | |- context [scan data (Some g) fuel ?pr ?cu u'] =>
          specialize (IH pr cu u' p len f fsize r);
          destruct (scan data (Some g) fuel pr cu u') as [[o w] t]
        end.
        cbn in *. intros [H|[H|[H|H]]]; try discriminate H; auto.
    + cbn [bind ret fst snd app]. unfold ret.
      match goal with
      | |- context [scan data None fuel ?pr ?cu u] =>
        specialize (IH pr cu u p len f fsize r);
        destruct (scan data None fuel pr cu u) as [[o w] t]
      end.
      cbn in *. intros [H|[H|H]]; try discriminate H; auto.
  - specialize (IH previous (u32 (current - 1)) u p len f fsize r).
    destruct (scan data callback fuel previous (u32 (current - 1)) u) as [[o w] t].
    cbn in *. intros [H|H]; [discriminate H | auto].
Qed.

Lemma extract_dives_deliveries :
  forall U (data : memory) (size : Z) (callback : option (@dc_dive_callback_t U))
         abstract (u : U) p len f fsize r,
    In (Callback p len f fsize r)
       (trace (uwatec_smart_extract_dives data size callback abstract u)) ->
    memcmp (shift data p) header = 0
    /\ len = array_uint32_le (shift data (p + 4))
    /\ f = p + 8 /\ fsize = 4
    /\ 0 <= p <= UINT_MAX.
Proof.
  intros U data size callback abstract u p len f fsize r.
  unfold uwatec_smart_extract_dives.
  destruct (match abstract with
            | Some _ => negb (device_is_uwatec_smart abstract)
            | None => false
            end); [intros []|].
  apply scan_deliveries.
Qed.

(** X16: every dive the splitter hands to the callback starts at an
    offset where the buffer holds the marker A5 A5 5A 5A; its size is the
    value read least significant byte first from the four bytes behind the
    marker, and its fingerprint is the four bytes from offset 8 of the
    dive on. *)
Theorem delivered_dives_are_records :
  forall U (data : memory) (size : Z) (callback : option (@dc_dive_callback_t U))
         abstract (u : U) p len f fsize r,
    In (Callback p len f fsize r)
       (trace (uwatec_smart_extract_dives data size callback abstract u)) ->
    (data p = xa5 /\ data (p + 1) = xa5 /\ data (p + 2) = x5a /\ data (p + 3) = x5a)
    /\ len = array_uint32_le (shift data (p + 4))
    /\ f = p + 8 /\ fsize = 4.
Proof.
  intros U data size callback abstract u p len f fsize r HIn.
  apply extract_dives_deliveries in HIn.
  destruct HIn as (Hm & Hl & Hf & Hs & _).
  apply memcmp_header in Hm. unfold shift in Hm.
  rewrite Z.add_0_r in Hm.
  repeat split; try assumption; apply Hm.
Qed.

Lemma delivered_dives_are_records_witness :
  In (Callback 12 13 20 4 1)
     (trace (uwatec_smart_extract_dives (mem_of_list two_dives) 26 (Some (keep 1)) None []))
  /\ 13 = array_uint32_le (shift (mem_of_list two_dives) (12 + 4)).
Proof.
  assert (H : In (Callback 12 13 20 4 1)
                 (trace (uwatec_smart_extract_dives (mem_of_list two_dives) 26
                           (Some (keep 1)) None []))) by (vm_compute; tauto).
  split; [exact H|].
  exact (proj1 (proj2 (delivered_dives_are_records (list Z) (mem_of_list two_dives) 26
                         (Some (keep 1)) None [] 12 13 20 4 1 H))).
Defined.

(** *** The order of the deliveries *)

Lemma scan_log_descending :
  forall cb c o t,
    scan_log cb c o t ->
    forall bound, c <= 0 \/ c + 4 <= bound -> descending bound t = true.
Proof.
  intros cb c o t H. induction H; intros bound Hb.
  - reflexivity.
  - cbn. apply IHscan_log. lia.
  - reflexivity.
  - cbn. rewrite andb_true_r. apply andb_true_iff.
    split; [apply Z.leb_le | apply Z.leb_le]; lia.
  - cbn. rewrite IHscan_log.
    + rewrite andb_true_r. apply andb_true_iff.
      split; [apply Z.leb_le | apply Z.leb_le]; lia.
    + destruct (c - 1 >=? 4) eqn:E; [right; lia | left; lia].
  - cbn. apply IHscan_log.
    destruct (c - 1 >=? 4) eqn:E; [right|left; lia].
    rewrite Z.geb_leb in E. apply Z.leb_le in E. lia.
Qed.

Lemma extract_dives_descending :
  forall U (data : memory) (size : Z) (callback : option (@dc_dive_callback_t U))
         abstract (u : U),
    0 <= size <= UINT_MAX ->
    descending size (trace (uwatec_smart_extract_dives data size callback abstract u))
    = true.
Proof.
  intros U data size callback abstract u Hs.
  destruct abstract as [d|] eqn:Ea.
  - destruct (device_is_uwatec_smart (Some d)) eqn:Ed.
    + eapply scan_log_descending.
      * exact (extract_dives_scan_log U data size callback (Some d) u Hs (or_intror Ed)).
      * destruct (size >=? 4) eqn:E; [right; lia | left; lia].
    + unfold uwatec_smart_extract_dives. rewrite Ed. reflexivity.
  - eapply scan_log_descending.
    + exact (extract_dives_scan_log U data size callback None u Hs (or_introl eq_refl)).
    + destruct (size >=? 4) eqn:E; [right; lia | left; lia].
Qed.

(** X17: the splitter delivers the dives from the end of the buffer
    towards its start: the first one starts at most at [size - 5], every
    further one at least five bytes before the one delivered before it, and
    none before offset 0. *)
Theorem dives_are_delivered_backwards :
  forall U (data : memory) (size : Z) (callback : option (@dc_dive_callback_t U))
         abstract (u : U),
    0 <= size <= UINT_MAX ->
    descending size (trace (uwatec_smart_extract_dives data size callback abstract u))
    = true.
Proof.
  exact extract_dives_descending.
Qed.

Lemma dives_are_delivered_backwards_witness :
  0 <= 26 <= UINT_MAX
  /\ descending 26
       (trace (uwatec_smart_extract_dives (mem_of_list two_dives) 26 (Some (keep 1)) None []))
     = true.
Proof.
  assert (H : 0 <= 26 <= UINT_MAX) by (unfold UINT_MAX; lia).
  split; [exact H|].
  exact (dives_are_delivered_backwards (list Z) (mem_of_list two_dives) 26
           (Some (keep 1)) None [] H).
Defined.

(** *** Buffers without a marker *)

Lemma scan_without_marker :
  forall U (data : memory) (callback : option (@dc_dive_callback_t U))
         fuel previous current (u : U),
    0 <= current <= UINT_MAX ->
    (Z.to_nat current < fuel)%nat ->
    (forall p, 0 <= p < current -> memcmp (shift data p) header <> 0) ->
    result (scan data callback fuel previous current u) = Returned DC_STATUS_SUCCESS
    /\ final (scan data callback fuel previous current u) = u
    /\ forallb is_compare (trace (scan data callback fuel previous current u)) = true.
Proof.
  intros U data callback fuel.
  induction fuel as [|fuel IH]; intros previous current u Hc Hf Hm; [lia|].
  cbn [scan].
  destruct (current >? 0) eqn:Epos; [|cbn; auto].
  rewrite Z.gtb_ltb in Epos. apply Z.ltb_lt in Epos.
  rewrite (u32_small (current - 1)) by lia.
  unfold bind, log, ret.
  destruct (memcmp (shift data (current - 1)) header =? 0) eqn:Em.
  { apply Z.eqb_eq in Em. exfalso. apply (Hm (current - 1)); [lia | exact Em]. }
  assert (Hn : 0 <= current - 1 <= UINT_MAX) by lia.
  assert (Hn' : (Z.to_nat (current - 1) < fuel)%nat) by lia.
  specialize (IH previous (current - 1) u Hn Hn').
  destruct (scan data callback fuel previous (current - 1) u) as [[o w] t].
  cbn in *. apply IH. intros p Hp. apply Hm. lia.
Qed.

(** X18: on a buffer that holds the marker A5 A5 5A 5A at no offset from
    0 to [size - 5], the splitter returns success after comparing only: it
    reads no length, never calls the callback and leaves the state behind
    [userdata] as it was. A buffer of fewer than five bytes is such a
    buffer. *)
Theorem no_marker_no_dive :
  forall U (data : memory) (size : Z) (callback : option (@dc_dive_callback_t U))
         abstract (u : U),
    0 <= size <= UINT_MAX ->
    abstract = None \/ device_is_uwatec_smart abstract = true ->
    (forall p, 0 <= p <= size - 5 ->
               ~ (data p = xa5 /\ data (p + 1) = xa5
                  /\ data (p + 2) = x5a /\ data (p + 3) = x5a)) ->
    result (uwatec_smart_extract_dives data size callback abstract u)
    = Returned DC_STATUS_SUCCESS
    /\ final (uwatec_smart_extract_dives data size callback abstract u) = u
    /\ forallb is_compare
         (trace (uwatec_smart_extract_dives data size callback abstract u)) = true.
Proof.
  intros U data size callback abstract u Hs Ha Hm.
  unfold uwatec_smart_extract_dives.
  assert (Hg : match abstract with
               | None => false
               | Some _ => negb (device_is_uwatec_smart abstract)
               end = false).
  { destruct Ha as [-> | Ha]; [reflexivity|].
    destruct abstract; [rewrite Ha|]; reflexivity. }
  rewrite Hg.
  assert (Hc : (if size >=? 4 then u32 (size - 4) else 0)
               = (if size >=? 4 then size - 4 else 0)).
  { destruct (size >=? 4) eqn:E; [|reflexivity].
    rewrite Z.geb_leb in E. apply Z.leb_le in E. apply u32_small. lia. }
  rewrite Hc.
  assert (Hb : 0 <= (if size >=? 4 then size - 4 else 0) <= size - 4
               \/ (if size >=? 4 then size - 4 else 0) = 0).
  { destruct (size >=? 4) eqn:E; [left|right; reflexivity].
    rewrite Z.geb_leb in E. apply Z.leb_le in E. lia. }
  apply scan_without_marker.
  - destruct Hb as [Hb | ->]; [lia | unfold UINT_MAX; lia].
  - destruct Hb as [Hb | ->]; [lia | cbn; lia].
  - intros p Hp Hz. apply (Hm p); [destruct Hb as [Hb | Hb]; lia|].
    apply memcmp_header in Hz. unfold shift in Hz.
    rewrite Z.add_0_r in Hz. exact Hz.
Qed.

Lemma no_marker_no_dive_witness :
  result (uwatec_smart_extract_dives (mem_of_list marker_at_end) 8 (Some (keep 1)) None [])
  = Returned DC_STATUS_SUCCESS
  /\ final (uwatec_smart_extract_dives (mem_of_list marker_at_end) 8 (Some (keep 1)) None [])
     = []
  /\ forallb is_compare
       (trace (uwatec_smart_extract_dives (mem_of_list marker_at_end) 8
                 (Some (keep 1)) None []))
     = true.
Proof.
  apply (no_marker_no_dive (list Z) (mem_of_list marker_at_end) 8 (Some (keep 1)) None []).
  - unfold UINT_MAX. lia.
  - left. reflexivity.
  - intros p Hp [H _].
    assert (Hc : p = 0 \/ p = 1 \/ p = 2 \/ p = 3) by lia.
    destruct Hc as [-> | [-> | [-> | ->]]]; discriminate H.
Defined.

(** *** Deliveries that do not overlap *)

(** X19: where no delivered dive ends beyond [UINT_MAX], every dive the
    splitter delivers ends at or before the start of the dive it delivered
    before it, and the first one at or before the end of the buffer. *)
Theorem delivered_dives_do_not_overlap :
  forall U (data : memory) (size : Z) (callback : option (@dc_dive_callback_t U))
         abstract (u : U),
    (forall p len f fsize r,
        In (Callback p len f fsize r)
           (trace (uwatec_smart_extract_dives data size callback abstract u)) ->
        p + len <= UINT_MAX) ->
    payloads_within size (trace (uwatec_smart_extract_dives data size callback abstract u))
    = true.
Proof.
  intros U data size callback abstract u Hw.
  apply payloads_within_exact.
  - apply extract_dives_payloads_u32.
  - intros p len f fs r HIn. split; [|eapply Hw; exact HIn].
    apply extract_dives_deliveries in HIn.
    destruct HIn as (_ & Hl & _ & _ & Hp).
    pose proof (array_uint32_le_range (shift data (p + 4))). lia.
Qed.

Lemma delivered_dives_do_not_overlap_witness :
  payloads_within 26
    (trace (uwatec_smart_extract_dives (mem_of_list two_dives) 26 (Some (keep 1)) None []))
  = true.
Proof.
  apply (delivered_dives_do_not_overlap (list Z) (mem_of_list two_dives) 26
           (Some (keep 1)) None []).
  intros p len f fsize r H. vm_compute in H.
  repeat (destruct H as [H|H];
          [try discriminate H; injection H as <- <- <- <- <-; vm_compute; discriminate|]).
  destruct H.
Defined.

(** *** The newest dive *)

Lemma scan_to_marker :
  forall U (data : memory) (g : @dc_dive_callback_t U) fuel previous current (u : U) p,
    0 <= p < current -> current <= UINT_MAX ->
    (Z.to_nat current <= fuel)%nat ->
    (forall q, p < q < current -> memcmp (shift data q) header <> 0) ->
    memcmp (shift data p) header = 0 ->
    u32 (p + array_uint32_le (shift data (p + 4))) <= previous ->
    exists t1 t2,
      trace (scan data (Some g) fuel previous current u)
      = t1 ++ ReadLength (p + 4)
           :: Callback p (array_uint32_le (shift data (p + 4))) (p + 8) 4
                       (fst (g (shift data p) (array_uint32_le (shift data (p + 4)))
                               (shift data (p + 8)) 4 u))
           :: t2
      /\ forallb is_compare t1 = true.
Proof.
  intros U data g fuel.
  induction fuel as [|fuel IH]; intros previous current u p Hp Hc Hf Hm Hz Ho; [lia|].
  cbn [scan].
  assert (Epos : (current >? 0) = true) by (rewrite Z.gtb_ltb; apply Z.ltb_lt; lia).
  rewrite Epos.
  rewrite (u32_small (current - 1)) by lia.
  unfold bind, log, ret.
  destruct (Z.eq_dec (current - 1) p) as [E | E].
  - rewrite E, Hz. cbn [Z.eqb].
    assert (Eo : (u32 (p + array_uint32_le (shift data (p + 4))) >? previous) = false).
    { rewrite Z.gtb_ltb. apply Z.ltb_ge. exact Ho. }
    rewrite Eo.
    unfold call_stops, bind, get, put, log, ret.
    destruct (g (shift data p) (array_uint32_le (shift data (p + 4)))
                (shift data (p + 8)) 4 u) as [r u'].
    cbn [fst snd app].
    destruct (r =? 0).
    + exists [Compare p], []. split; reflexivity.
    + match goal with
      | |- context [scan data (Some g) fuel ?pr ?cu u'] =>
        destruct (scan data (Some g) fuel pr cu u') as [[o w] t]
      end.
      exists [Compare p], t. split; reflexivity.
  - assert (En : (memcmp (shift data (current - 1)) header =? 0) = false).
    { apply Z.eqb_neq. apply Hm. lia. }
    rewrite En.
    assert (H1 : 0 <= p < current - 1) by lia.
    assert (H2 : current - 1 <= UINT_MAX) by lia.
    assert (H3 : (Z.to_nat (current - 1) <= fuel)%nat) by lia.
    destruct (IH previous (current - 1) u p H1 H2 H3) as (t1 & t2 & Et & Hc1);
      [intros q Hq; apply Hm; lia | exact Hz | exact Ho |].
    destruct (scan data (Some g) fuel previous (current - 1) u) as [[o w] t].
    cbn in *. subst t.
    exists (Compare (current - 1) :: t1), t2. split; [reflexivity | exact Hc1].
Qed.

(** X20: the first dive the splitter delivers is the one at the last
    marker of the buffer: where the marker stands at offset [p], at no
    offset from [p + 1] to [size - 5], and the dive at [p] ends within the
    buffer, the splitter compares, reads the length at [p + 4] and calls
    the callback on the dive at [p], before any other call. *)
Theorem newest_dive_first :
  forall U (data : memory) (size : Z) (g : @dc_dive_callback_t U) abstract (u : U) p,
    size <= UINT_MAX ->
    abstract = None \/ device_is_uwatec_smart abstract = true ->
    0 <= p <= size - 5 ->
    data p = xa5 /\ data (p + 1) = xa5 /\ data (p + 2) = x5a /\ data (p + 3) = x5a ->
    (forall q, p < q <= size - 5 ->
               ~ (data q = xa5 /\ data (q + 1) = xa5
                  /\ data (q + 2) = x5a /\ data (q + 3) = x5a)) ->
    p + array_uint32_le (shift data (p + 4)) <= size ->
    exists t1 t2,
      trace (uwatec_smart_extract_dives data size (Some g) abstract u)
      = t1 ++ ReadLength (p + 4)
           :: Callback p (array_uint32_le (shift data (p + 4))) (p + 8) 4
                       (fst (g (shift data p) (array_uint32_le (shift data (p + 4)))
                               (shift data (p + 8)) 4 u))
           :: t2
      /\ forallb is_compare t1 = true.
Proof.
  intros U data size g abstract u p Hs Ha Hp Hz Hm Ho.
  unfold uwatec_smart_extract_dives.
  assert (Hg : match abstract with
               | None => false
               | Some _ => negb (device_is_uwatec_smart abstract)
               end = false).
  { destruct Ha as [-> | Ha]; [reflexivity|].
    destruct abstract; [rewrite Ha|]; reflexivity. }
  rewrite Hg.
  assert (E4 : (size >=? 4) = true) by (rewrite Z.geb_leb; apply Z.leb_le; lia).
  rewrite E4. rewrite (u32_small (size - 4)) by lia.
  pose proof (array_uint32_le_range (shift data (p + 4))) as Hr.
  apply scan_to_marker.
  - lia.
  - lia.
  - lia.
  - intros q Hq Hc. apply (Hm q); [lia|].
    apply memcmp_header in Hc. unfold shift in Hc.
    rewrite Z.add_0_r in Hc. exact Hc.
  - apply memcmp_header. unfold shift. rewrite Z.add_0_r. exact Hz.
  - rewrite u32_small by lia. exact Ho.
Qed.

Lemma newest_dive_first_witness :
  exists t1 t2,
    trace (uwatec_smart_extract_dives (mem_of_list two_dives) 26 (Some (keep 1)) None [])
    = t1 ++ ReadLength (12 + 4)
         :: Callback 12 (array_uint32_le (shift (mem_of_list two_dives) (12 + 4))) (12 + 8) 4
                     (fst (keep 1 (shift (mem_of_list two_dives) 12)
                                (array_uint32_le (shift (mem_of_list two_dives) (12 + 4)))
                                (shift (mem_of_list two_dives) (12 + 8)) 4 []))
         :: t2
    /\ forallb is_compare t1 = true.
Proof.
  apply (newest_dive_first (list Z) (mem_of_list two_dives) 26 (keep 1) None [] 12).
  - unfold UINT_MAX. lia.
  - left. reflexivity.
  - lia.
  - repeat split.
  - intros q Hq (H0 & H1 & _).
    assert (Hc : q = 13 \/ q = 14 \/ q = 15 \/ q = 16 \/ q = 17 \/ q = 18
                 \/ q = 19 \/ q = 20 \/ q = 21) by lia.
    repeat (destruct Hc as [-> | Hc]; [first [discriminate H0 | discriminate H1]|]).
    subst q. discriminate H0.
  - vm_compute. discriminate.
Defined.

(** *** Downloading and splitting in one call *)

(** A length query answered in full with zero ends the dump with success
    and an empty buffer. *)
Lemma dump_empty :
  forall Sock (irda : irda_t Sock) now resize_ok fuel (w : world Sock) command m answer,
    In (Answer command 4 m answer)
       (trace (uwatec_smart_device_dump irda now resize_ok fuel w)) ->
    hd x00 command = xc6 -> u32 m = 4 ->
    array_uint32_le (mem_of_list answer) = 0 ->
    result (uwatec_smart_device_dump irda now resize_ok fuel w)
    = Returned DC_STATUS_SUCCESS
    /\ option_map bsize (buffer (final (uwatec_smart_device_dump irda now resize_ok fuel w)))
       = Some 0.
Proof.
  intros Sock irda now resize_ok fuel w command m answer.
  unfold uwatec_smart_device_dump.
  unfold_device.
  destruct (device w) as [d|]; [|simpl_run; intros []].
  destruct (negb (device_is_uwatec_smart (Some d))); [simpl_run; intros []|].
  destruct (buffer w) as [b|]; [|simpl_run; intros []].
  simpl_run.
  match goal with
  | |- context [uwatec_smart_device_version irda ?da ?sz ?w'] =>
    pose proof (version_run Sock irda da sz w') as (Hd & Hb & Hv);
    destruct (uwatec_smart_device_version irda da sz w') as [[rv wv] tv]
  end.
  simpl_run.
  destruct (negb (is_success (fst rv))).
  { simpl_run. intros HIn Hop Hm HL. in_cases. use_forall. absurd_query. }
  simpl_run. rewrite Hd, Hb. simpl_run.
  repeat step_dump resize_ok.
  all: intros HIn Hop Hm HL; norm_bool; in_cases.
  all: try (use_forall; absurd_query; fail).
  all: try (injection HIn as E1 E2 E3; subst command m answer;
            try contradiction; try congruence).
  all: try (cbn in Hop; discriminate Hop).
  split; reflexivity.
Qed.

(** A dump leaves the device of the family it was. *)
Lemma dump_backend :
  forall Sock (irda : irda_t Sock) now resize_ok fuel (w : world Sock),
    device_is_uwatec_smart (device (final (uwatec_smart_device_dump irda now resize_ok fuel w)))
    = device_is_uwatec_smart (device w).
Proof.
  intros Sock irda now resize_ok fuel w.
  unfold uwatec_smart_device_dump.
  unfold_device.
  destruct (device w) as [d|] eqn:Hdev; [|simpl_run; rewrite Hdev; reflexivity].
  destruct (negb (device_is_uwatec_smart (Some d)));
    [simpl_run; rewrite Hdev; reflexivity|].
  destruct (buffer w) as [b|]; [|simpl_run; rewrite Hdev; reflexivity].
  simpl_run.
  match goal with
  | |- context [uwatec_smart_device_version irda ?da ?sz ?w'] =>
    pose proof (version_run Sock irda da sz w') as (Hd & Hb & Hv);
    destruct (uwatec_smart_device_version irda da sz w') as [[rv wv] tv]
  end.
  simpl_run.
  destruct (negb (is_success (fst rv))).
  { simpl_run. rewrite Hd, Hdev. reflexivity. }
  simpl_run. rewrite Hd, Hb, Hdev. simpl_run.
  repeat first [loop_events | step_dump resize_ok].
  all: try reflexivity.
  rewrite (proj1 HLf). reflexivity.
Qed.

Lemma descending_in :
  forall t bound p len f fsize r,
    descending bound t = true ->
    In (Callback p len f fsize r) t ->
    0 <= p /\ p + 5 <= bound.
Proof.
  induction t as [|e t IH]; intros bound p len f fsize r Hd HIn; [destruct HIn|].
  destruct HIn as [-> | HIn].
  - cbn in Hd. apply andb_true_iff in Hd. destruct Hd as [Hd _].
    apply andb_true_iff in Hd. destruct Hd as [H1 H2].
    apply Z.leb_le in H1, H2. lia.
  - destruct e as [q|q|q l' f' s' r']; cbn in Hd.
    + exact (IH bound p len f fsize r Hd HIn).
    + exact (IH bound p len f fsize r Hd HIn).
    + apply andb_true_iff in Hd. destruct Hd as [Hd Ht].
      apply andb_true_iff in Hd. destruct Hd as [H1 H2].
      apply Z.leb_le in H1, H2.
      destruct (IH q p len f fsize r Ht HIn). lia.
Qed.

Lemma in_map_scan_device :
  forall (t : list event) (e : scan_event), ~ In (Scan e) (map Device t).
Proof.
  intros t e H. apply in_map_iff in H. destruct H as (x & Hx & _). discriminate Hx.
Qed.

Lemma in_map_device_scan :
  forall (t : list scan_event) (e : event), ~ In (Device e) (map Scan t).
Proof.
  intros t e H. apply in_map_iff in H. destruct H as (x & Hx & _). discriminate Hx.
Qed.

Lemma in_map_device :
  forall (t : list event) (e : event), In (Device e) (map Device t) <-> In e t.
Proof.
  intros t e. split.
  - intros H. apply in_map_iff in H. destruct H as (x & Hx & HIn).
    injection Hx as ->. exact HIn.
  - intros H. apply in_map. exact H.
Qed.

Lemma in_map_scan :
  forall (t : list scan_event) (e : scan_event), In (Scan e) (map Scan t) <-> In e t.
Proof.
  intros t e. split.
  - intros H. apply in_map_iff in H. destruct H as (x & Hx & HIn).
    injection Hx as ->. exact HIn.
  - intros H. apply in_map. exact H.
Qed.

(** How a [foreach] on a device of the family runs when a buffer is to
    be had: the dump on an empty buffer, and after a dump that returned
    success the splitter on what the dump left. *)
Lemma foreach_run :
  forall Sock U (irda : irda_t Sock) now resize_ok fuel
         (callback : option (@dc_dive_callback_t U)) (w : world Sock) (u : U),
    device_is_uwatec_smart (device w) = true ->
    let w0 := {| socket := socket w; device := device w;
                 buffer := Some {| bsize := 0; bdata := fun _ => x00 |} |} in
    let d := uwatec_smart_device_dump irda now resize_ok fuel w0 in
    let s := uwatec_smart_extract_dives (dc_buffer_get_data (buffer (final d)))
                                        (dc_buffer_get_size (buffer (final d)))
                                        callback (device (final d)) u in
    (result d = Returned DC_STATUS_SUCCESS ->
     result (uwatec_smart_device_foreach irda now resize_ok true fuel callback (w, u))
     = result s
     /\ snd (final (uwatec_smart_device_foreach irda now resize_ok true fuel callback (w, u)))
        = final s
     /\ trace (uwatec_smart_device_foreach irda now resize_ok true fuel callback (w, u))
        = map Device (trace d) ++ map Scan (trace s))
    /\ (result d <> Returned DC_STATUS_SUCCESS ->
        result (uwatec_smart_device_foreach irda now resize_ok true fuel callback (w, u))
        = result d
        /\ snd (final (uwatec_smart_device_foreach irda now resize_ok true fuel callback
                         (w, u)))
           = u
        /\ trace (uwatec_smart_device_foreach irda now resize_ok true fuel callback (w, u))
           = map Device (trace d)).
Proof.
  intros Sock U irda now resize_ok fuel callback w u Hsmart. cbv zeta.
  unfold uwatec_smart_device_foreach, set_buffer, on_device, on_userdata.
  unfold bind, ret, get, put.
  cbn [fst snd socket device buffer negb]. rewrite Hsmart. cbn [negb app].
  destruct (uwatec_smart_device_dump irda now resize_ok fuel _) as [[o w1] t1].
  cbn [fst snd result final trace app].
  destruct o as [rc|].
  - destruct rc; cbn [fst snd result final trace app socket device buffer];
      (split; [intros H; try discriminate H | intros H; try contradiction]);
      rewrite ?app_nil_r; try (split; [reflexivity | split; reflexivity]).
    destruct (uwatec_smart_extract_dives _ _ callback (device w1) u) as [[o2 u2] t2].
    cbn [fst snd result final trace app]. rewrite ?app_nil_r.
    split; [reflexivity | split; reflexivity].
  - cbn [fst snd result final trace app socket device buffer].
    split; [intros H; discriminate H | intros _].
    rewrite ?app_nil_r. split; [reflexivity | split; reflexivity].
Qed.

Lemma outcome_eq_dec : forall a b : outcome, {a = b} + {a <> b}.
Proof.
  decide equality. decide equality.
Qed.

(** X21: a [foreach] on a device that answers the length query in full
    with zero returns success without running the splitter at all: the
    callback is not called and the state behind [userdata] stays as it
    was. *)
Theorem foreach_empty_device :
  forall Sock U (irda : irda_t Sock) now resize_ok new_ok fuel
         (callback : option (@dc_dive_callback_t U)) (w : world Sock) (u : U) c m a,
    In (Device (Answer c 4 m a))
       (trace (uwatec_smart_device_foreach irda now resize_ok new_ok fuel callback (w, u))) ->
    hd x00 c = xc6 -> u32 m = 4 -> array_uint32_le (mem_of_list a) = 0 ->
    result (uwatec_smart_device_foreach irda now resize_ok new_ok fuel callback (w, u))
    = Returned DC_STATUS_SUCCESS
    /\ snd (final (uwatec_smart_device_foreach irda now resize_ok new_ok fuel callback (w, u)))
       = u
    /\ forall e,
         ~ In (Scan e)
              (trace (uwatec_smart_device_foreach irda now resize_ok new_ok fuel callback
                        (w, u))).
Proof.
  intros Sock U irda now resize_ok new_ok fuel callback w u c m a.
  destruct (device_is_uwatec_smart (device w)) eqn:Hsmart.
  2:{ unfold uwatec_smart_device_foreach, bind, ret, get.
      cbn [fst snd]. rewrite Hsmart. cbn. intros []. }
  destruct new_ok.
  2:{ unfold uwatec_smart_device_foreach, bind, ret, get.
      cbn [fst snd]. rewrite Hsmart. cbn. intros []. }
  pose proof (foreach_run Sock U irda now resize_ok fuel callback w u Hsmart) as Hrun.
  cbv zeta in Hrun.
  set (w0 := {| socket := socket w; device := device w;
                buffer := Some {| bsize := 0; bdata := fun _ => x00 |} |}) in *.
  pose proof (dump_backend Sock irda now resize_ok fuel w0) as Hback.
  pose proof (dump_empty Sock irda now resize_ok fuel w0 c m a) as Hempty.
  destruct Hrun as [Hok Hko].
  intros HIn Hop Hm HL.
  assert (HInd : In (Answer c 4 m a)
                    (trace (uwatec_smart_device_dump irda now resize_ok fuel w0))).
  { destruct (outcome_eq_dec (result (uwatec_smart_device_dump irda now resize_ok fuel w0))
                             (Returned DC_STATUS_SUCCESS)) as [E | E].
    - destruct (Hok E) as (_ & _ & Et). rewrite Et in HIn.
      apply in_app_or in HIn. destruct HIn as [HIn | HIn].
      + apply in_map_device in HIn. exact HIn.
      + apply in_map_device_scan in HIn. destruct HIn.
    - destruct (Hko E) as (_ & _ & Et). rewrite Et in HIn.
      apply in_map_device in HIn. exact HIn. }
  destruct (Hempty HInd Hop Hm HL) as [Hres Hsize].
  destruct (Hok Hres) as (Er & Ef & Et).
  rewrite Er, Ef, Et.
  destruct (buffer (final (uwatec_smart_device_dump irda now resize_ok fuel w0)))
    as [b|]; [|discriminate Hsize].
  injection Hsize as Hsize. cbn [dc_buffer_get_size dc_buffer_get_data]. rewrite Hsize.
  unfold uwatec_smart_extract_dives.
  change (device w0) with (device w) in Hback. rewrite Hsmart in Hback.
  destruct (device (final (uwatec_smart_device_dump irda now resize_ok fuel w0)))
    as [d'|]; [rewrite Hback|]; cbn.
  - split; [reflexivity | split; [reflexivity|]].
    intros e He. rewrite app_nil_r in He. apply in_map_scan_device in He. exact He.
  - split; [reflexivity | split; [reflexivity|]].
    intros e He. rewrite app_nil_r in He. apply in_map_scan_device in He. exact He.
Qed.

Lemma foreach_empty_device_witness :
  result (uwatec_smart_device_foreach scripted 0 (fun _ => true) true 0 (Some (keep 1))
            (dump_world empty_script, []))
  = Returned DC_STATUS_SUCCESS
  /\ snd (final (uwatec_smart_device_foreach scripted 0 (fun _ => true) true 0
                   (Some (keep 1)) (dump_world empty_script, [])))
     = []
  /\ forall e,
       ~ In (Scan e)
            (trace (uwatec_smart_device_foreach scripted 0 (fun _ => true) true 0
                      (Some (keep 1)) (dump_world empty_script, []))).
Proof.
  apply (foreach_empty_device (list reply) (list Z) scripted 0 (fun _ => true) true 0
           (Some (keep 1)) (dump_world empty_script) [] length_query 4
           [x00; x00; x00; x00]).
  - in_list.
  - reflexivity.
  - reflexivity.
  - reflexivity.
Defined.

(** X22: every dive a [foreach] hands to the callback comes after a
    length query (opcode 0xC6) that was answered in full, and starts
    inside the announced length, at least five bytes before its end. *)
Theorem foreach_dives_within_length :
  forall Sock U (irda : irda_t Sock) now resize_ok new_ok fuel
         (callback : option (@dc_dive_callback_t U)) (w : world Sock) (u : U)
         p len f fsize r,
    In (Scan (Callback p len f fsize r))
       (trace (uwatec_smart_device_foreach irda now resize_ok new_ok fuel callback (w, u))) ->
    exists c m a,
      In (Device (Answer c 4 m a))
         (trace (uwatec_smart_device_foreach irda now resize_ok new_ok fuel callback (w, u)))
      /\ hd x00 c = xc6 /\ u32 m = 4
      /\ 0 <= p /\ p + 5 <= array_uint32_le (mem_of_list a).
Proof.
  intros Sock U irda now resize_ok new_ok fuel callback w u p len f fsize r.
  destruct (device_is_uwatec_smart (device w)) eqn:Hsmart.
  2:{ unfold uwatec_smart_device_foreach, bind, ret, get.
      cbn [fst snd]. rewrite Hsmart. cbn. intros []. }
  destruct new_ok.
  2:{ unfold uwatec_smart_device_foreach, bind, ret, get.
      cbn [fst snd]. rewrite Hsmart. cbn. intros []. }
  pose proof (foreach_run Sock U irda now resize_ok fuel callback w u Hsmart) as Hrun.
  cbv zeta in Hrun.
  set (w0 := {| socket := socket w; device := device w;
                buffer := Some {| bsize := 0; bdata := fun _ => x00 |} |}) in *.
  pose proof (dump_success_size Sock irda now resize_ok fuel w0) as Hsize.
  destruct Hrun as [Hok Hko].
  intros HIn.
  destruct (outcome_eq_dec (result (uwatec_smart_device_dump irda now resize_ok fuel w0))
                           (Returned DC_STATUS_SUCCESS)) as [E | E].
  2:{ destruct (Hko E) as (_ & _ & Et). rewrite Et in HIn.
      apply in_map_scan_device in HIn. destruct HIn. }
  destruct (Hok E) as (_ & _ & Et). rewrite Et in *.
  destruct (Hsize E) as (c & m & a & HA & Hop & Hm & Hb).
  apply in_app_or in HIn. destruct HIn as [HIn | HIn];
    [apply in_map_scan_device in HIn; destruct HIn|].
  apply in_map_scan in HIn.
  exists c, m, a.
  split; [apply in_or_app; left; apply in_map_device; exact HA|].
  split; [exact Hop | split; [exact Hm|]].
  destruct (buffer (final (uwatec_smart_device_dump irda now resize_ok fuel w0)))
    as [b|]; [|discriminate Hb].
  injection Hb as Hb. cbn [dc_buffer_get_size dc_buffer_get_data] in HIn.
  rewrite Hb in HIn.
  eapply descending_in; [|exact HIn].
  apply extract_dives_descending. apply array_uint32_le_range.
Qed.

Lemma foreach_dives_within_length_witness :
  In (Scan (Callback 12 13 20 4 1))
     (trace (uwatec_smart_device_foreach scripted 0 (fun _ => true) true 3 (Some (keep 1))
               (dump_world foreach_script, [])))
  /\ exists c m a,
       In (Device (Answer c 4 m a))
          (trace (uwatec_smart_device_foreach scripted 0 (fun _ => true) true 3
                    (Some (keep 1)) (dump_world foreach_script, [])))
       /\ hd x00 c = xc6 /\ u32 m = 4
       /\ 0 <= 12 /\ 12 + 5 <= array_uint32_le (mem_of_list a).
Proof.
  assert (H : In (Scan (Callback 12 13 20 4 1))
                 (trace (uwatec_smart_device_foreach scripted 0 (fun _ => true) true 3
                           (Some (keep 1)) (dump_world foreach_script, []))))
    by (vm_compute; tauto).
  split; [exact H|].
  exact (foreach_dives_within_length (list reply) (list Z) scripted 0 (fun _ => true) true 3
           (Some (keep 1)) (dump_world foreach_script) [] 12 13 20 4 1 H).
Defined.

(** *** The name filter of the discovery *)

Lemma strncmp_starts_with :
  forall lit name,
    Forall (fun x => uint8 x <> 0) lit ->
    strncmp name lit (length lit) = 0 ->
    starts_with lit name = true.
Proof.
  induction lit as [|x lit IH]; intros name Hnz H; [reflexivity|].
  inversion Hnz as [|? ? Hx Hl]; subst.
  cbn [length strncmp hd tl] in H.
  destruct (uint8 (hd x00 name) =? uint8 x) eqn:E; cbn [negb] in H.
  - apply Z.eqb_eq in E.
    destruct name as [|c name].
    { cbn in E. exfalso. apply Hx. symmetry. exact E. }
    cbn [hd tl] in *.
    destruct (uint8 c =? 0) eqn:E0.
    { apply Z.eqb_eq in E0. exfalso. apply Hx. lia. }
    cbn [starts_with]. rewrite (IH name Hl H).
    rewrite andb_true_r. apply Z.eqb_eq. symmetry. exact E.
  - apply Z.eqb_neq in E. lia.
Qed.

Lemma starts_with_app :
  forall a b s, starts_with (a ++ b) s = true -> starts_with a s = true.
Proof.
  induction a as [|x a IH]; intros b s H; [reflexivity|].
  destruct s as [|y s]; [discriminate H|].
  cbn [app starts_with] in *.
  apply andb_true_iff in H. destruct H as [H1 H2].
  rewrite H1, (IH b s H2). reflexivity.
Qed.

Lemma starts_with_strstr :
  forall needle s, starts_with needle s = true -> is_some (strstr s needle) = true.
Proof.
  intros needle s H. destruct s; cbn [strstr]; rewrite H; reflexivity.
Qed.

Lemma no_nul :
  forall l : list byte,
    forallb (fun x => negb (uint8 x =? 0)) l = true ->
    Forall (fun x => uint8 x <> 0) l.
Proof.
  intros l H. apply Forall_forall. intros x Hx.
  rewrite forallb_forall in H. specialize (H x Hx).
  apply negb_true_iff in H. apply Z.eqb_neq in H. exact H.
Qed.

(** X23: the name filter of the discovery takes the address of a device
    exactly when its name holds one of the words Uwatec, UWATEC, Aladin,
    ALADIN, Smart, SMART, Galileo and GALILEO, spelt this way, and leaves
    the address as it was otherwise; the two comparisons with the beginning
    of the name let no name through that holds none of these words. *)
Theorem discovery_filter :
  forall address name current,
    uwatec_smart_discovery address name (Some current)
    = Some (if existsb (fun word => is_some (strstr name word)) filter_words
            then address else current).
Proof.
  intros address name current.
  unfold uwatec_smart_discovery, filter_words. cbn [existsb].
  assert (H1 : (strncmp name Names.UWATEC_Galileo_Sol 18 =? 0) = true ->
               is_some (strstr name Names.UWATEC) = true).
  { intros H. apply Z.eqb_eq in H.
    apply starts_with_strstr.
    apply (starts_with_app Names.UWATEC (skipn 6 Names.UWATEC_Galileo_Sol)).
    change (Names.UWATEC ++ skipn 6 Names.UWATEC_Galileo_Sol)
      with Names.UWATEC_Galileo_Sol.
    apply strncmp_starts_with; [apply no_nul; reflexivity | exact H]. }
  assert (H2 : (strncmp name Names.Uwatec_Smart 12 =? 0) = true ->
               is_some (strstr name Names.Uwatec) = true).
  { intros H. apply Z.eqb_eq in H.
    apply starts_with_strstr.
    apply (starts_with_app Names.Uwatec (skipn 6 Names.Uwatec_Smart)).
    change (Names.Uwatec ++ skipn 6 Names.Uwatec_Smart) with Names.Uwatec_Smart.
    apply strncmp_starts_with; [apply no_nul; reflexivity | exact H]. }
  destruct (strncmp name Names.UWATEC_Galileo_Sol 18 =? 0);
    [specialize (H1 eq_refl) | clear H1];
    (destruct (strncmp name Names.Uwatec_Smart 12 =? 0);
     [specialize (H2 eq_refl) | clear H2]);
    repeat match goal with
           | |- context [is_some ?x] => destruct (is_some x)
           end;
    first [reflexivity | discriminate].
Qed.

(** The filter tells upper case from lower case: a name in lower case
    only does not pass. *)
Example discovery_is_case_sensitive :
  uwatec_smart_discovery 7 Names.uwatec_smart (Some 0) = Some 0
  /\ uwatec_smart_discovery 7 Names.Aladin_Prime (Some 0) = Some 7.
Proof.
  split; reflexivity.
Qed.

(** *** Opening and closing the device *)

Ltac open_cases link :=
  unfold uwatec_smart_device_open;
  repeat match goal with
         | |- context [negb ?b] => destruct b; cbn [negb]
         | |- context [irda_socket_open link] =>
           destruct (irda_socket_open link) as [? ?]
         | |- context [irda_socket_discover link ?s] =>
           destruct (irda_socket_discover link s) as [[? ?] ?]
         | |- context [irda_socket_connect_lsap link ?s ?a ?l] =>
           destruct (irda_socket_connect_lsap link s a l) as [? ?]
         | |- context [if ?x =? ?y then _ else _] =>
           destruct (x =? y) eqn:?
         end;
  cbn [fst snd].

(** X24: once the connection to the discovered address is made, opening
    returns success and hands out a device of the family with fingerprint
    timestamp 0, whatever the handshake returns: the handshake is run on
    the socket as the connect call left it, the device is handed out with
    the socket as the handshake left it, and the status of the handshake is
    dropped. *)
Theorem open_ignores_handshake :
  forall Sock (irda : irda_t Sock) (link : irda_link Sock) malloc_ok out a l rc,
    In (SocketConnect a l rc) (snd (uwatec_smart_device_open irda link malloc_ok out)) ->
    rc <> -1 ->
    let opened := irda_socket_open link in
    let found := irda_socket_discover link (snd opened) in
    let connected := irda_socket_connect_lsap link (snd found) a 1 in
    let device := {| backend := DC_FAMILY_UWATEC_SMART; timestamp := 0;
                     devtime := 0; systime := -1 |} in
    let h := uwatec_smart_handshake irda
               {| socket := snd connected; device := Some device; buffer := None |} in
    uwatec_smart_device_open irda link malloc_ok out
    = (DC_STATUS_SUCCESS,
       Some {| base_device := device; device_socket := socket (final h);
               device_address := a |},
       [SocketOpen (fst opened); SocketDiscover (fst (fst found)); SocketConnect a l rc]
         ++ map Transfer (trace h))
    /\ a = discovered (snd (fst found)) 0 /\ a <> 0 /\ l = 1 /\ rc = fst connected.
Proof.
  intros Sock irda link malloc_ok out a l rc.
  cbv zeta. unfold uwatec_smart_device_open.
  destruct out; cbn [negb]; [|intros []].
  destruct malloc_ok; cbn [negb]; [|intros []].
  destruct (irda_socket_open link) as [rc1 s1]. cbv beta iota. cbn [fst snd].
  destruct (irda_socket_discover link s1) as [[rc2 found] s2]. cbv beta iota. cbn [fst snd].
  destruct (rc1 =? -1); [intros HIn; cbn [snd] in HIn; in_cases|].
  destruct (rc2 =? -1); [intros HIn; cbn [snd] in HIn; in_cases|].
  destruct (discovered found 0 =? 0) eqn:Ea; [intros HIn; cbn [snd] in HIn; in_cases|].
  apply Z.eqb_neq in Ea.
  destruct (irda_socket_connect_lsap link s2 (discovered found 0) 1) as [rc3 s3] eqn:Ec.
  cbv beta iota.
  destruct (rc3 =? -1) eqn:E3.
  - apply Z.eqb_eq in E3. cbn [snd]. intros HIn Hrc. in_cases.
    injection HIn as <- <- <-. contradiction.
  - cbn [snd]. intros HIn Hrc.
    apply in_app_or in HIn. destruct HIn as [HIn | HIn].
    + in_cases. injection HIn as <- <- <-.
      rewrite Ec. cbn [fst snd].
      split; [reflexivity|]. split; [reflexivity|].
      split; [exact Ea|]. split; reflexivity.
    + apply in_map_iff in HIn. destruct HIn as (x & Hx & _). discriminate Hx.
Qed.

Lemma open_ignores_handshake_witness :
  In (SocketConnect 7 1 0)
     (snd (uwatec_smart_device_open scripted
             (scripted_link [] [(7, Names.Aladin_Prime)] 0) true true))
  /\ 0 <> -1
  /\ fst (fst (uwatec_smart_device_open scripted
                 (scripted_link [] [(7, Names.Aladin_Prime)] 0) true true))
     = DC_STATUS_SUCCESS.
Proof.
  assert (H : In (SocketConnect 7 1 0)
                 (snd (uwatec_smart_device_open scripted
                         (scripted_link [] [(7, Names.Aladin_Prime)] 0) true true)))
    by (vm_compute; tauto).
  assert (Hrc : 0 <> -1) by discriminate.
  split; [exact H | split; [exact Hrc|]].
  rewrite (proj1 (open_ignores_handshake (list reply) scripted
                    (scripted_link [] [(7, Names.Aladin_Prime)] 0) true true 7 1 0 H Hrc)).
  reflexivity.
Defined.

(** A device that does not answer the handshake at all is opened all the
    same. *)
Example open_without_answer :
  result (uwatec_smart_handshake scripted
            {| socket := []; device := smart_device 0; buffer := None |})
  = DC_STATUS_IO
  /\ fst (fst (uwatec_smart_device_open scripted
                 (scripted_link [] [(7, Names.Aladin_Prime)] 0) true true))
     = DC_STATUS_SUCCESS.
Proof.
  split; reflexivity.
Qed.

(** X25: an opening that fails hands out no device and does not start
    the handshake; if the socket was opened, the last two things it does
    are to close the socket and to free the device, each done once; if the
    socket could not be opened, it only frees the device. *)
Theorem open_failure_releases :
  forall Sock (irda : irda_t Sock) (link : irda_link Sock) malloc_ok out,
    fst (fst (uwatec_smart_device_open irda link malloc_ok out)) <> DC_STATUS_SUCCESS ->
    snd (fst (uwatec_smart_device_open irda link malloc_ok out)) = None
    /\ (forall e, ~ In (Transfer e) (snd (uwatec_smart_device_open irda link malloc_ok out)))
    /\ (forall rc,
          In (SocketOpen rc) (snd (uwatec_smart_device_open irda link malloc_ok out)) ->
          if rc =? -1
          then snd (uwatec_smart_device_open irda link malloc_ok out) = [SocketOpen rc; Free]
          else exists t rc',
                 snd (uwatec_smart_device_open irda link malloc_ok out)
                 = t ++ [SocketClose rc'; Free]
                 /\ ~ In Free t /\ forall x, ~ In (SocketClose x) t).
Proof.
  intros Sock irda link malloc_ok out.
  open_cases link.
  all: intros Hst; try contradiction.
  all: split; [reflexivity|].
  all: split; [intros e He; cbn in He; decompose [or] He; try discriminate; contradiction|].
  all: intros rc HIn; in_cases.
  all: injection HIn as E; subst rc.
  all: match goal with
       | H : (_ =? -1) = _ |- context [if ?z =? -1 then _ else _] => rewrite H
       end.
  all: try reflexivity.
  - eexists [SocketOpen _; SocketDiscover _]. eexists.
    split; [reflexivity|].
    split; [intros H; in_cases | intros x H; in_cases].
  - eexists [SocketOpen _; SocketDiscover _]. eexists.
    split; [reflexivity|].
    split; [intros H; in_cases | intros x H; in_cases].
  - eexists [SocketOpen _; SocketDiscover _; SocketConnect _ _ _]. eexists.
    split; [reflexivity|].
    split; [intros H; in_cases | intros x H; in_cases].
Qed.

Lemma open_failure_releases_witness :
  fst (fst (uwatec_smart_device_open scripted
              (scripted_link [] [(7, Names.uwatec_smart)] 0) true true))
  <> DC_STATUS_SUCCESS
  /\ exists t rc',
       snd (uwatec_smart_device_open scripted
              (scripted_link [] [(7, Names.uwatec_smart)] 0) true true)
       = t ++ [SocketClose rc'; Free]
       /\ ~ In Free t /\ forall x, ~ In (SocketClose x) t.
Proof.
  assert (H : fst (fst (uwatec_smart_device_open scripted
                          (scripted_link [] [(7, Names.uwatec_smart)] 0) true true))
              <> DC_STATUS_SUCCESS) by (vm_compute; discriminate).
  split; [exact H|].
  apply (proj2 (proj2 (open_failure_releases (list reply) scripted
                         (scripted_link [] [(7, Names.uwatec_smart)] 0) true true H)) 0).
  vm_compute. tauto.
Defined.

(** X26: the device an opening hands out is accepted by the other
    calls: closing it closes the socket once and frees the device, and the
    queries of a dump on it carry four zero bytes as fingerprint, so that
    the first dump asks for everything. *)
Theorem opened_device_is_usable :
  forall Sock (irda : irda_t Sock) (link : irda_link Sock) malloc_ok out d,
    snd (fst (uwatec_smart_device_open irda link malloc_ok out)) = Some d ->
    (exists rc,
        snd (uwatec_smart_device_close link (Some d)) = [SocketClose rc; Free]
        /\ fst (uwatec_smart_device_close link (Some d))
           = (if rc =? -1 then DC_STATUS_IO else DC_STATUS_SUCCESS))
    /\ (forall now resize_ok fuel b c n,
          In (Write c 9 n)
             (trace (uwatec_smart_device_dump irda now resize_ok fuel (world_of d b))) ->
          tl c = [x00; x00; x00; x00; x10; x27; x00; x00]).
Proof.
  intros Sock irda link malloc_ok out d.
  open_cases link.
  all: intros H; try discriminate H.
  injection H as <-.
  split.
  - unfold uwatec_smart_device_close. cbn [base_device device_socket].
    cbn [device_is_uwatec_smart backend dc_family_eqb negb].
    eexists. destruct (irda_socket_close link _ =? -1) eqn:E.
    + split; [reflexivity|]. rewrite E. reflexivity.
    + split; [reflexivity|]. rewrite E. reflexivity.
  - intros now resize_ok fuel b c n HIn.
    eapply dump_queries in HIn; [|reflexivity].
    destruct HIn as [_ Ht]. rewrite Ht. reflexivity.
Qed.

Lemma opened_device_is_usable_witness :
  exists d,
    snd (fst (uwatec_smart_device_open scripted
                (scripted_link [] [(7, Names.Aladin_Prime)] 0)
                true true))
    = Some d
    /\ exists rc,
         snd (uwatec_smart_device_close
                (scripted_link [] [(7, Names.Aladin_Prime)] 0) (Some d))
         = [SocketClose rc; Free]
         /\ fst (uwatec_smart_device_close
                   (scripted_link [] [(7, Names.Aladin_Prime)] 0) (Some d))
            = (if rc =? -1 then DC_STATUS_IO else DC_STATUS_SUCCESS).
Proof.
  eexists. split; [reflexivity|].
  exact (proj1 (opened_device_is_usable (list reply) scripted
                  (scripted_link [] [(7, Names.Aladin_Prime)] 0) true true _ eq_refl)).
Defined.

End UwatecSmartSpec.

(** * Cancellation by the consumers *)

Module Cancellation.

Import SuuntoSolution UwatecSmart.

(** C4, as amended: the dive-record consumer returns an int, and whenever
    it returns the stop signal 0 the scan halts at once with success: the
    delivery is the last event of the run, and the state behind userdata
    is what the consumer made of it on the records delivered.  The sample
    consumer has no stop signal: what the sample decoder returns, reads and
    hands over is the same for any two consumers, whatever they return,
    and what it hands over is every sample of the stream, in order: the
    consumer is called on each of them, and the state behind userdata is
    what these calls make of it. *)
Theorem consumer_stop_signal :
  (forall U (data : memory) (size : Z) (callback : option (@dc_dive_callback_t U))
          abstract (u : U) l1 l2 p len f fs,
      0 <= size <= UINT_MAX ->
      abstract = None \/ device_is_uwatec_smart abstract = true ->
      trace (uwatec_smart_extract_dives data size callback abstract u)
      = l1 ++ UwatecSmart.Callback p len f fs 0 :: l2 ->
      l2 = []
      /\ result (uwatec_smart_extract_dives data size callback abstract u)
         = Returned DC_STATUS_SUCCESS
      /\ final (uwatec_smart_extract_dives data size callback abstract u)
         = replay data callback
                  (trace (uwatec_smart_extract_dives data size callback abstract u)) u)
  /\ (forall U1 R1 U2 R2 (abstract : option dc_parser_t)
             (f1 : @dc_sample_callback_t U1 R1) (f2 : @dc_sample_callback_t U2 R2)
             (u1 : U1) (u2 : U2),
        result (suunto_solution_parser_samples_foreach abstract (Some f1) u1)
        = result (suunto_solution_parser_samples_foreach abstract (Some f2) u2)
        /\ trace (suunto_solution_parser_samples_foreach abstract (Some f1) u1)
           = trace (suunto_solution_parser_samples_foreach abstract (Some f2) u2))
  /\ (forall U R (p : dc_parser_t) (f : @dc_sample_callback_t U R) (u : U),
        SuuntoSolution.backend p = DC_FAMILY_SUUNTO_SOLUTION ->
        4 <= SuuntoSolution.size p < UINT_MAX ->
        delivered (trace (suunto_solution_parser_samples_foreach (Some p) (Some f) u))
        = spec_samples 0 0 (bytes_from (SuuntoSolution.data p) (SuuntoSolution.size p) 3)
        /\ final (suunto_solution_parser_samples_foreach (Some p) (Some f) u)
           = fold_left (fun u s => snd (f s u))
                       (spec_samples 0 0 (bytes_from (SuuntoSolution.data p)
                                                     (SuuntoSolution.size p) 3))
                       u).
Proof.
  split; [|split].
  - intros U data size callback abstract u l1 l2 p len f fs Hs Ha Ht.
    pose proof (UwatecSmartSpec.extract_dives_scan_log U data size callback abstract u Hs Ha)
      as Hlog.
    destruct (UwatecSmartSpec.scan_log_stop _ _ _ _ Hlog _ _ _ _ _ _ Ht) as [H2 Hr].
    split; [exact H2 | split; [exact Hr |]].
    unfold uwatec_smart_extract_dives.
    destruct (match abstract with
              | Some _ => negb (device_is_uwatec_smart abstract)
              | None => false
              end); [reflexivity|].
    apply UwatecSmartSpec.scan_replay.
  - apply SuuntoSolutionSpec.samples_foreach_independent.
  - apply SuuntoSolutionSpec.samples_foreach_hands_over.
Qed.

Lemma consumer_stop_signal_witness :
  (0 <= 21 <= UINT_MAX
   /\ (@None uwatec_smart_device_t = None \/ device_is_uwatec_smart None = true))
  /\ result (uwatec_smart_extract_dives
               (mem_of_list [x00; x00; x00; x00; x00; x00; x00; x00; x00;
                             xa5; xa5; x5a; x5a; x0c; x00; x00; x00;
                             x01; x02; x03; x04])
               21 (Some (keep 0)) None [])
     = Returned DC_STATUS_SUCCESS.
Proof.
  assert (Hs : 0 <= 21 <= UINT_MAX) by (unfold UINT_MAX; lia).
  assert (Ha : @None uwatec_smart_device_t = None \/ device_is_uwatec_smart None = true)
    by (left; reflexivity).
  split; [split; [exact Hs | exact Ha]|].
  exact (proj1 (proj2 (proj1 consumer_stop_signal (list Z)
                         (mem_of_list [x00; x00; x00; x00; x00; x00; x00; x00; x00;
                                       xa5; xa5; x5a; x5a; x0c; x00; x00; x00;
                                       x01; x02; x03; x04])
                         21 (Some (keep 0)) None []
                         [Compare 16; Compare 15; Compare 14; Compare 13; Compare 12;
                          Compare 11; Compare 10; Compare 9; ReadLength 13]
                         [] 9 12 17 4 Hs Ha eq_refl))).
Defined.

(** C4, as stated, fails: a sample consumer that answers stop to every
    sample is still handed all four samples of the stream 01 02 80. *)
Lemma sample_consumer_cannot_stop :
  fst (recorder false (DC_SAMPLE_TIME 180) []) = false
  /\ final (suunto_solution_parser_samples_foreach
              (solution_parser [x00; x00; x00; x01; x02; x80] 6)
              (Some (recorder false)) [])
     = [DC_SAMPLE_TIME 180; DC_SAMPLE_DEPTH 1; DC_SAMPLE_TIME 360; DC_SAMPLE_DEPTH 3]
  /\ result (suunto_solution_parser_samples_foreach
               (solution_parser [x00; x00; x00; x01; x02; x80] 6)
               (Some (recorder false)) [])
     = Returned DC_STATUS_SUCCESS.
Proof.
  repeat split; vm_compute; reflexivity.
Qed.

End Cancellation.

